(** * Serial plotter: ring buffers, line parsing, sample synchronisation, export

    A shallow embedding of [app/python_data_recoder/subplot_record.py]:
    the [CircularBuffer] class and the methods of [SerialPlotterWindow] that
    hold the ingestion core ([add_graph], [receive_serial_data],
    [export_data], [change_buffer_size]).

    Python values are modelled as follows.
    - [str] is a list of Unicode code points ([pystr]); [bytes] is a list of
      [Byte.byte].
    - [int] is [Z]; sizes and positions of arrays and lists are [nat].
    - [float] is kept abstract together with the three operations the program
      performs on it (class [FloatOps]): the builtin [float(s)], the test
      [x != 0], and the element [0.0] that [np.zeros] fills arrays with.
    - a [dict] is an association list in insertion order.
    - the dictionaries reachable from the window ([current_record] and the
      copies stored in [data_records]) live in an object store and are
      referred to by address, so that aliasing is visible.
    - exceptions are values of [exn]; a method is a function from the state to
      the state after it and either a result or the exception it raised. *)

From Stdlib Require Import ZArith NArith Lia.
From Stdlib.Strings Require Import String Ascii Byte.
From stdpp Require Import base tactics option list numbers.

Local Open Scope nat_scope.

(** ** Python strings *)

Abbreviation pystr := (list N).

(** A literal: the code points of an ASCII string. *)
Definition str (s : string) : pystr :=
  List.map N_of_ascii (list_ascii_of_string s).

(** [c in s] for a one-character [c]. *)
Definition contains (c : N) (s : pystr) : bool := existsb (N.eqb c) s.

(** [s.split(sep)] for a one-character separator: never empty, one more piece
    than there are separators. *)
Fixpoint split (sep : N) (s : pystr) : list pystr :=
  match s with
  | [] => [[]]
  | c :: r =>
      if N.eqb c sep then [] :: split sep r
      else match split sep r with
           | w :: ws => (c :: w) :: ws
           | [] => [[c]]
           end
  end.

(** The characters [str.strip()] removes: those for which [str.isspace] holds. *)
Definition isspace (c : N) : bool :=
  ((9 <=? c) && (c <=? 13) || (28 <=? c) && (c <=? 32)
   || (c =? 133) || (c =? 160) || (c =? 5760)
   || (8192 <=? c) && (c <=? 8202)
   || (c =? 8232) || (c =? 8233) || (c =? 8239) || (c =? 8287)
   || (c =? 12288))%N.

Fixpoint lstrip (s : pystr) : pystr :=
  match s with
  | c :: r => if isspace c then lstrip r else s
  | [] => []
  end.

Definition rstrip (s : pystr) : pystr := rev (lstrip (rev s)).

Definition strip (s : pystr) : pystr := rstrip (lstrip s).

(** ** Exceptions *)

Inductive exn :=
| UnicodeDecodeError
| IndexError
| ValueError
| KeyError
| ZeroDivisionError
| OSError.

Global Instance exn_eq_dec : EqDecision exn.
Proof. solve_decision. Defined.

(** ** [bytes.decode("utf-8")] *)

Definition continuation (b : N) : bool := ((128 <=? b) && (b <=? 191))%N.

(** Strict UTF-8: shortest form only, no surrogates, nothing above U+10FFFF. *)
Fixpoint utf8 (bs : list N) : option pystr :=
  match bs with
  | [] => Some []
  | b0 :: r0 =>
      if (b0 <? 128)%N then cons b0 <$> utf8 r0
      else if ((194 <=? b0) && (b0 <=? 223))%N then
        match r0 with
        | b1 :: r1 =>
            if continuation b1
            then cons ((b0 - 192) * 64 + (b1 - 128))%N <$> utf8 r1
            else None
        | _ => None
        end
      else if ((224 <=? b0) && (b0 <=? 239))%N then
        match r0 with
        | b1 :: b2 :: r2 =>
            if (((if b0 =? 224 then 160 else 128) <=? b1)
                && (b1 <=? (if b0 =? 237 then 159 else 191))
                && continuation b2)%N
            then cons ((b0 - 224) * 4096 + (b1 - 128) * 64 + (b2 - 128))%N
                   <$> utf8 r2
            else None
        | _ => None
        end
      else if ((240 <=? b0) && (b0 <=? 244))%N then
        match r0 with
        | b1 :: b2 :: b3 :: r3 =>
            if (((if b0 =? 240 then 144 else 128) <=? b1)
                && (b1 <=? (if b0 =? 244 then 143 else 191))
                && continuation b2 && continuation b3)%N
            then cons ((b0 - 240) * 262144 + (b1 - 128) * 4096
                       + (b2 - 128) * 64 + (b3 - 128))%N
                   <$> utf8 r3
            else None
        | _ => None
        end
      else None
  end.

Definition decode_utf8 (data : list byte) : exn + pystr :=
  match utf8 (List.map Byte.to_N data) with
  | Some s => inr s
  | None => inl UnicodeDecodeError
  end.

(** ** Floats *)

(** What the program needs of Python's [float]: [float_of_str s] is the
    builtin [float(s)], [None] standing for the [ValueError] it raises;
    [float_ne0 x] is [x != 0]; [fzero] is the [0.0] of [np.zeros]. *)
Class FloatOps := {
  float : Type;
  float_of_str : pystr -> option float;
  float_ne0 : float -> bool;
  fzero : float
}.

(** A value stored in a record: the int the record is initialised with, or a
    float read from the line. *)
Inductive pyval {F : FloatOps} :=
| PyInt (z : Z)
| PyFloat (x : float).

(** [v != 0] *)
Definition ne0 {F : FloatOps} (v : pyval) : bool :=
  match v with
  | PyInt z => negb (z =? 0)%Z
  | PyFloat x => float_ne0 x
  end.

(** ** CircularBuffer *)

Record CircularBuffer {F : FloatOps} := mkCircularBuffer {
  capacity : nat;
  buffer : list float;
  index : nat;
  full : bool
}.

Section CircularBuffer.
Context {F : FloatOps}.

(** [CircularBuffer.__init__] *)
Definition CircularBuffer_init (capacity : nat) : CircularBuffer :=
  {| capacity := capacity;
     buffer := repeat fzero capacity;
     index := 0;
     full := false |}.

(** [CircularBuffer.push]: the buffer with the effects of the statements that
    ran, and the exception that stopped it, if any. *)
Definition push (value : float) (self : CircularBuffer)
  : CircularBuffer * option exn :=
  if decide (index self < length (buffer self)) then
    let self1 := {| capacity := capacity self;
                    buffer := <[index self := value]> (buffer self);
                    index := index self;
                    full := full self |} in
    if capacity self =? 0 then (self1, Some ZeroDivisionError)
    else
      let self2 := {| capacity := capacity self1;
                      buffer := buffer self1;
                      index := (index self1 + 1) mod capacity self1;
                      full := full self1 |} in
      if index self2 =? 0
      then ({| capacity := capacity self2;
               buffer := buffer self2;
               index := index self2;
               full := true |}, None)
      else (self2, None)
  else (self, Some IndexError).

(** [CircularBuffer.get_data] *)
Definition get_data (self : CircularBuffer) : list float :=
  if full self
  then drop (index self) (buffer self) ++ take (index self) (buffer self)
  else take (index self) (buffer self).

(** Pushing a sequence of values, one call after the other. *)
Fixpoint push_all (values : list float) (self : CircularBuffer)
  : CircularBuffer * option exn :=
  match values with
  | [] => (self, None)
  | v :: rest =>
      match push v self with
      | (self', None) => push_all rest self'
      | r => r
      end
  end.

End CircularBuffer.

(** ** Dictionaries *)

Section Dict.
Context {K V : Type} `{EqDecision K}.

(** [d[k]], [None] standing for [KeyError]. *)
Fixpoint dict_get (k : K) (d : list (K * V)) : option V :=
  match d with
  | [] => None
  | (k', v) :: r => if decide (k = k') then Some v else dict_get k r
  end.

(** [d[k] = v]: an existing key keeps its place, a new one goes last. *)
Fixpoint dict_set (k : K) (v : V) (d : list (K * V)) : list (K * V) :=
  match d with
  | [] => [(k, v)]
  | (k', v') :: r =>
      if decide (k = k') then (k', v) :: r else (k', v') :: dict_set k v r
  end.

Definition dict_keys (d : list (K * V)) : list K := List.map fst d.

(** [d.values()] *)
Definition dict_values (d : list (K * V)) : list V := List.map snd d.

End Dict.

(** [l[i]] for a Python list and an int that may be negative. *)
Definition getitem {A} (l : list A) (i : Z) : exn + A :=
  let n := Z.of_nat (length l) in
  let j := (if i <? 0 then n + i else i)%Z in
  if (j <? 0)%Z then inl IndexError
  else match l !! Z.to_nat j with
       | Some x => inr x
       | None => inl IndexError
       end.

(** ** The window and the world around it *)

Definition addr := nat.

(** A line printed on standard output. *)
Inductive output :=
| RawLine (line : pystr)          (* Raw line: {line} *)
| ErrorParsingLine (e : exn)      (* Error parsing line: {e} *)
| ExportErrorLine (e : exn).      (* Export error: {e} *)

(** A message box shown to the operator. *)
Inductive message_box :=
| ExportSuccess (filename : pystr)  (* information: Data exported to {filename} *)
| FailedToExport                    (* warning: Failed to export data. *)
| InvalidFilename                   (* warning: Invalid filename. *)
| NoDataToExport.                   (* warning: No data to export. *)

(** A cell handed to [csv.writer]: a string of the header or a value. *)
Inductive cell {F : FloatOps} :=
| CellStr (s : pystr)
| CellVal (v : pyval).

(** A dict from names to values; a row handed to [csv.writer]. *)
Abbreviation pydict := (list (pystr * pyval)).
Abbreviation row := (list cell).

(** How the file system behaves during one export.  The file object is
    buffered, so a failure to write reaches the program in some later call of
    [writerow] or only when the file is closed, and what the file then holds
    need not end with a whole row: it is the file system that decides. *)
Inductive io {F : FloatOps} :=
| IoOk
| IoOpenFails                 (* [open] raises *)
| IoWriteFails (n : nat) (kept : list row).
    (* writing fails: the error is raised by the call of [writerow] that
       follows [n] calls that returned, or at the close of the file when
       fewer calls are made; [kept] is what is found in the file afterwards *)

Record window {F : FloatOps} := mkWindow {
  (* attributes of [self] *)
  data_buffers : list CircularBuffer;
  plot_data_items : list (list float);   (* the data each plot item shows *)
  buffer_sizes : list nat;
  buffer_capacity : nat;
  data_records : list (Z * addr);
  current_record : addr;
  ppg_updated : bool;
  acc_updated : bool;
  sample_count : Z;
  (* the dict objects, by address *)
  store : list (list (pystr * pyval));
  (* the world outside *)
  stdout : list output;
  dialogs : list message_box;
  files : list (pystr * list (list cell))
}.

Section Window.
Context {F : FloatOps}.


Definition set_data_buffers (v : list CircularBuffer) (w : window) : window :=
  let '(mkWindow _ a b c d e f g h i j k l m) := w in mkWindow _ v b c d e f g h i j k l m.
Definition set_plot_data_items (v : list (list float)) (w : window) : window :=
  let '(mkWindow _ a b c d e f g h i j k l m) := w in mkWindow _ a v c d e f g h i j k l m.
Definition set_buffer_capacity (v : nat) (w : window) : window :=
  let '(mkWindow _ a b c d e f g h i j k l m) := w in mkWindow _ a b c v e f g h i j k l m.
Definition set_data_records (v : list (Z * addr)) (w : window) : window :=
  let '(mkWindow _ a b c d e f g h i j k l m) := w in mkWindow _ a b c d v f g h i j k l m.
Definition set_ppg_updated (v : bool) (w : window) : window :=
  let '(mkWindow _ a b c d e f g h i j k l m) := w in mkWindow _ a b c d e f v h i j k l m.
Definition set_acc_updated (v : bool) (w : window) : window :=
  let '(mkWindow _ a b c d e f g h i j k l m) := w in mkWindow _ a b c d e f g v i j k l m.
Definition set_sample_count (v : Z) (w : window) : window :=
  let '(mkWindow _ a b c d e f g h i j k l m) := w in mkWindow _ a b c d e f g h v j k l m.
Definition set_store (v : list pydict) (w : window) : window :=
  let '(mkWindow _ a b c d e f g h i j k l m) := w in mkWindow _ a b c d e f g h i v k l m.
Definition set_stdout (v : list output) (w : window) : window :=
  let '(mkWindow _ a b c d e f g h i j k l m) := w in mkWindow _ a b c d e f g h i j v l m.
Definition set_dialogs (v : list message_box) (w : window) : window :=
  let '(mkWindow _ a b c d e f g h i j k l m) := w in mkWindow _ a b c d e f g h i j k v m.
Definition set_files (v : list (pystr * list row)) (w : window) : window :=
  let '(mkWindow _ a b c d e f g h i j k l m) := w in mkWindow _ a b c d e f g h i j k l v.

(** The dict object at an address. *)
Definition deref (w : window) (a : addr) : pydict := default [] (store w !! a).

(** ** Methods as state transformers that may raise *)

Definition M (A : Type) : Type := window -> window * (exn + A).

Definition ret {A} (x : A) : M A := fun w => (w, inr x).
Definition raise {A} (e : exn) : M A := fun w => (w, inl e).
Definition bind {A B} (m : M A) (k : A -> M B) : M B :=
  fun w => match m w with
           | (w', inr x) => k x w'
           | (w', inl e) => (w', inl e)
           end.
Definition gets {A} (f : window -> A) : M A := fun w => (w, inr (f w)).
Definition modify (f : window -> window) : M unit := fun w => (f w, inr tt).
Definition lift {A} (r : exn + A) : M A := fun w => (w, r).

(** [try: body except (handled): handler] *)
Definition try_except (body : M unit) (handled : exn -> bool)
    (handler : exn -> M unit) : M unit :=
  fun w => match body w with
           | (w', inl e) => if handled e then handler e w' else (w', inl e)
           | r => r
           end.

End Window.

Declare Scope py_scope.
Delimit Scope py_scope with py.
Notation "x <- m ;; k" := (bind m (fun x => k))
  (at level 100, m at next level, right associativity) : py_scope.
Notation "m ;; k" := (bind m (fun _ => k))
  (at level 100, right associativity) : py_scope.

(** ** SerialPlotterWindow *)

Section SerialPlotterWindow.
Context {F : FloatOps}.
Local Open Scope py_scope.

Definition colon : N := 58.
Definition comma : N := 44.

(** The seven channels, in the order of the initial record and of the CSV
    header. *)
Definition channels : list pystr :=
  [str "C"; str "R"; str "IR"; str "G"; str "X"; str "Y"; str "Z"].

Definition ppg_names : list pystr := [str "C"; str "R"; str "IR"; str "G"].
Definition acc_names : list pystr := [str "X"; str "Y"; str "Z"].

Definition sensor_map : list (pystr * nat) :=
  [(str "C", 0); (str "R", 1); (str "IR", 2); (str "G", 3);
   (str "X", 4); (str "Y", 5); (str "Z", 6)].

(** [name in names] *)
Definition name_in (name : pystr) (names : list pystr) : bool :=
  bool_decide (name ∈ names).

Definition initial_record : pydict :=
  List.map (fun name => (name, PyInt 0)) channels.

(** [SerialPlotterWindow.__init__]: no graph yet, the record of zeros at
    address 0, nothing printed, shown or written. *)
Definition SerialPlotterWindow_init : window :=
  {| data_buffers := [];
     plot_data_items := [];
     buffer_sizes := [1000; 3000; 5000; 7000; 10000];
     buffer_capacity := 1000;
     data_records := [];
     current_record := 0;
     ppg_updated := false;
     acc_updated := false;
     sample_count := 0;
     store := [initial_record];
     stdout := [];
     dialogs := [];
     files := [] |}.

(** [print(...)]; standard output is taken to accept every text. *)
Definition print (o : output) : M unit :=
  modify (fun w => set_stdout (stdout w ++ [o]) w).

Definition message (b : message_box) : M unit :=
  modify (fun w => set_dialogs (dialogs w ++ [b]) w).

(** [add_graph]: a new buffer of the current capacity and a plot item showing
    its (empty) data. *)
Definition add_graph : M unit :=
  cap <- gets buffer_capacity ;;
  let data_buffer := CircularBuffer_init cap in
  modify (fun w => set_data_buffers (data_buffers w ++ [data_buffer]) w) ;;
  modify (fun w => set_plot_data_items
                     (plot_data_items w ++ [get_data data_buffer]) w).

(** [self.current_record[name] = value]: the dict object is updated in place. *)
Definition current_record_setitem (name : pystr) (value : pyval) : M unit :=
  modify (fun w =>
    set_store (<[current_record w := dict_set name value (deref w (current_record w))]>
                 (store w)) w).

(** [self.current_record.copy()]: a new dict object with the same items. *)
Definition current_record_copy : M addr :=
  fun w => (set_store (store w ++ [deref w (current_record w)]) w,
            inr (length (store w))).

(** [self.data_buffers[buffer_index].push(value)] *)
Definition data_buffer_push (buffer_index : nat) (value : float) : M unit :=
  fun w =>
    match data_buffers w !! buffer_index with
    | None => (w, inl IndexError)
    | Some data_buffer =>
        let (data_buffer', r) := push value data_buffer in
        (set_data_buffers (<[buffer_index := data_buffer']> (data_buffers w)) w,
         match r with Some e => inl e | None => inr tt end)
    end.

(** [self.plot_data_items[buffer_index].setData(data_buffer.get_data())] *)
Definition plot_setData (buffer_index : nat) : M unit :=
  fun w =>
    match data_buffers w !! buffer_index, plot_data_items w !! buffer_index with
    | Some data_buffer, Some _ =>
        (set_plot_data_items
           (<[buffer_index := get_data data_buffer]> (plot_data_items w)) w,
         inr tt)
    | _, _ => (w, inl IndexError)
    end.

(** [float(s)] *)
Definition py_float (s : pystr) : M float :=
  match float_of_str s with
  | Some x => ret x
  | None => raise ValueError
  end.

(** One turn of the loop over the fields of a line; [is_data] holds the
    locals [is_ppg_data] and [is_acc_data]. *)
Definition handle_field (value : pystr) (is_data : bool * bool)
  : M (bool * bool) :=
  if contains colon value then
    let sensor_data := split colon value in
    s0 <- lift (getitem sensor_data 0) ;;
    let sensor_name := strip s0 in
    s1 <- lift (getitem sensor_data 1) ;;
    sensor_value <- py_float s1 ;;
    current_record_setitem sensor_name (PyFloat sensor_value) ;;
    let is_data' :=
      if name_in sensor_name ppg_names then (true, snd is_data)
      else if name_in sensor_name acc_names then (fst is_data, true)
      else is_data in
    match dict_get sensor_name sensor_map with
    | Some buffer_index =>
        n <- gets (fun w => length (data_buffers w)) ;;
        if buffer_index <? n then
          data_buffer_push buffer_index sensor_value ;;
          plot_setData buffer_index ;;
          ret is_data'
        else ret is_data'
    | None => ret is_data'
    end
  else ret is_data.

(** [for value in values: ...] *)
Fixpoint for_fields (values : list pystr) (is_data : bool * bool)
  : M (bool * bool) :=
  match values with
  | [] => ret is_data
  | value :: rest =>
      is_data' <- handle_field value is_data ;;
      for_fields rest is_data'
  end.

(** The emission step at the end of a line. *)
Definition store_record : M unit :=
  ppg <- gets ppg_updated ;;
  acc <- gets acc_updated ;;
  if ppg && acc then
    values <- gets (fun w => dict_values (deref w (current_record w))) ;;
    if forallb ne0 values then
      modify (fun w => set_sample_count (sample_count w + 1)%Z w) ;;
      a <- current_record_copy ;;
      modify (fun w =>
        set_data_records (dict_set (sample_count w) a (data_records w)) w) ;;
      modify (set_ppg_updated false) ;;
      modify (set_acc_updated false)
    else ret tt
  else ret tt.

(** The body of the [try] in [receive_serial_data], for one line read. *)
Definition line_body (data : list byte) : M unit :=
  decoded <- lift (decode_utf8 data) ;;
  let line := strip decoded in
  print (RawLine line) ;;
  let values := split comma line in
  is_data <- for_fields values (false, false) ;;
  (if fst is_data then modify (set_ppg_updated true) else ret tt) ;;
  (if snd is_data then modify (set_acc_updated true) else ret tt) ;;
  store_record.

Definition parse_errors (e : exn) : bool :=
  bool_decide (e ∈ [UnicodeDecodeError; IndexError; ValueError]).

(** One turn of the [while] loop: the [try] and its [except]. *)
Definition process_line (data : list byte) : M unit :=
  try_except (line_body data) parse_errors
    (fun e => print (ErrorParsingLine e)).

(** [receive_serial_data], [lines] being the lines the port can deliver. *)
Fixpoint receive_serial_data (lines : list (list byte)) : M unit :=
  match lines with
  | [] => ret tt
  | data :: rest => process_line data ;; receive_serial_data rest
  end.

(** ** Export *)

Definition header : row := List.map CellStr channels.

(** [writer.writerow(r)] into the file opened as [filename]; until the file
    is closed or a write fails, the model of the file holds the rows handed
    to [writerow] so far. *)
Definition writerow (filename : pystr) (fs : io) (r : row) : M unit :=
  fun w =>
    let written := default [] (dict_get filename (files w)) in
    match fs with
    | IoWriteFails n kept =>
        if length written =? n
        then (set_files (dict_set filename kept (files w)) w, inl OSError)
        else (set_files (dict_set filename (written ++ [r]) (files w)) w, inr tt)
    | _ => (set_files (dict_set filename (written ++ [r]) (files w)) w, inr tt)
    end.

(** [record[name]] *)
Definition record_getitem (record : addr) (name : pystr) : M cell :=
  fun w => match dict_get name (deref w record) with
           | Some v => (w, inr (CellVal v))
           | None => (w, inl KeyError)
           end.

(** The list display [[record["C"], ..., record["Z"]]], left to right. *)
Fixpoint record_row (record : addr) (names : list pystr) : M row :=
  match names with
  | [] => ret []
  | name :: rest =>
      c <- record_getitem record name ;;
      cs <- record_row record rest ;;
      ret (c :: cs)
  end.

(** [for record in self.data_records.values(): writer.writerow([...])] *)
Fixpoint write_records (filename : pystr) (fs : io) (records : list addr)
  : M unit :=
  match records with
  | [] => ret tt
  | record :: rest =>
      r <- record_row record channels ;;
      writerow filename fs r ;;
      write_records filename fs rest
  end.

(** [open(filename, "w", ...)]: the file exists and is empty. *)
Definition open_w (filename : pystr) (fs : io) : M unit :=
  match fs with
  | IoOpenFails => raise OSError
  | _ => modify (fun w => set_files (dict_set filename [] (files w)) w)
  end.

(** Leaving the [with] block closes the file, which flushes what is still
    buffered. *)
Definition close_w (filename : pystr) (fs : io) : M unit :=
  match fs with
  | IoWriteFails _ kept =>
      fun w => (set_files (dict_set filename kept (files w)) w, inl OSError)
  | _ => ret tt
  end.

(** [export_data]; [filename] is what the file dialog returns (empty when it is
    dismissed) and [fs] how the file system behaves. *)
Definition export_data (filename : pystr) (fs : io) : M unit :=
  n <- gets (fun w => length (data_records w)) ;;
  if 0 <? n then
    if bool_decide (filename <> []) then
      try_except
        (open_w filename fs ;;
         writerow filename fs header ;;
         records <- gets (fun w => dict_values (data_records w)) ;;
         write_records filename fs records ;;
         close_w filename fs ;;
         message (ExportSuccess filename))
        (fun _ => true)
        (fun e => print (ExportErrorLine e) ;; message FailedToExport)
    else message InvalidFilename
  else message NoDataToExport.

(** ** Buffer size *)

(** [change_buffer_size] *)
Definition change_buffer_size (index : Z) : M unit :=
  sizes <- gets buffer_sizes ;;
  cap <- lift (getitem sizes index) ;;
  modify (set_buffer_capacity cap) ;;
  cap' <- gets buffer_capacity ;;
  modify (fun w =>
    set_data_buffers
      (List.map (fun _ => CircularBuffer_init cap') (seq 0 (length (data_buffers w))))
      w).

(** ** The event loop *)

Inductive event :=
| AddGraph
| ReadyRead (lines : list (list byte))
| ExportClicked (filename : pystr) (fs : io)
| BufferSizeSelected (index : Z).

Definition handle (ev : event) : M unit :=
  match ev with
  | AddGraph => add_graph
  | ReadyRead lines => receive_serial_data lines
  | ExportClicked filename fs => export_data filename fs
  | BufferSizeSelected index => change_buffer_size index
  end.

(** The state after a sequence of events, whatever they raised. *)
Definition run (evs : list event) (w : window) : window :=
  fold_left (fun w ev => fst (handle ev w)) evs w.

(** The states the program can be in. *)
Inductive reachable : window -> Prop :=
| reachable_init : reachable SerialPlotterWindow_init
| reachable_step w ev : reachable w -> reachable (fst (handle ev w)).

(** The window as the main program sets it up: seven graphs. *)
Definition main_window : window :=
  run [AddGraph; AddGraph; AddGraph; AddGraph; AddGraph; AddGraph; AddGraph]
    SerialPlotterWindow_init.

End SerialPlotterWindow.

(** ** A float oracle to run the model on concrete lines

    [float(s)] restricted to integer literals (an optional minus sign and
    decimal digits), read as the integer they denote; every other string is
    refused.  It agrees with Python on the strings it accepts and on strings
    that are no numbers at all. *)

Fixpoint digits (s : pystr) (acc : Z) : option Z :=
  match s with
  | [] => Some acc
  | c :: r =>
      if ((48 <=? c) && (c <=? 57))%N
      then digits r (10 * acc + Z.of_N (c - 48))%Z
      else None
  end.

Definition integer_literal (s : pystr) : option Z :=
  match s with
  | [] => None
  | c :: r =>
      if (c =? 45)%N
      then match r with
           | [] => None
           | _ => Z.opp <$> digits r 0
           end
      else digits s 0
  end.

Definition IntegerFloat : FloatOps :=
  {| float := Z;
     float_of_str := integer_literal;
     float_ne0 := fun x => negb (x =? 0)%Z;
     fzero := 0%Z |}.

(** An integer as a float of the oracle. *)
Definition num (z : Z) : @float IntegerFloat := z.

(** The bytes of an ASCII line. *)
Definition bytes (s : string) : list byte := list_byte_of_string s.

(** * Vocabulary of the properties *)

Section Vocabulary.
Context {F : FloatOps}.
Local Open Scope py_scope.

(** The shape every constructed buffer has and [push] keeps. *)
Definition cb_wf (b : CircularBuffer) : Prop :=
  length (buffer b) = capacity b /\ index b < capacity b.

(** The invariant behind [get_data]: after the values [pushed], a buffer of
    capacity [N] holds their last [N], and has wrapped exactly when at least
    [N] values were pushed. *)
Definition holds_last (N : nat) (pushed : list float) (b : CircularBuffer) : Prop :=
  cb_wf b /\ capacity b = N /\
  get_data b = drop (length pushed - N) pushed /\
  (full b = false -> length pushed = index b) /\
  (full b = true -> N <= length pushed).

(** The dictionary of the current record. *)
Definition current (w : window) : pydict := deref w (current_record w).

(** [fields_frame w w']: [w'] differs from [w] at most in the content of the
    current record, where keys are only added or overwritten, and in the
    buffers and plot items, which stay as many. *)
Record fields_frame (w w' : window) : Prop := {
  ff_data_records : data_records w' = data_records w;
  ff_sample_count : sample_count w' = sample_count w;
  ff_ppg_updated : ppg_updated w' = ppg_updated w;
  ff_acc_updated : acc_updated w' = acc_updated w;
  ff_current_record : current_record w' = current_record w;
  ff_buffer_sizes : buffer_sizes w' = buffer_sizes w;
  ff_buffer_capacity : buffer_capacity w' = buffer_capacity w;
  ff_stdout : stdout w' = stdout w;
  ff_dialogs : dialogs w' = dialogs w;
  ff_files : files w' = files w;
  ff_store_length : length (store w') = length (store w);
  ff_store_others : forall a, a <> current_record w -> deref w' a = deref w a;
  ff_keys : forall k, is_Some (dict_get k (current w)) ->
                      is_Some (dict_get k (current w'));
  ff_buffers : length (data_buffers w') = length (data_buffers w);
  ff_buffers_wf : Forall cb_wf (data_buffers w) -> Forall cb_wf (data_buffers w');
  ff_plots : length (plot_data_items w') = length (plot_data_items w)
}.

(** [keeps m]: running [m] leaves alone what [fields_frame] names, whether it
    returns or raises. *)
Definition keeps {A} (m : M A) : Prop :=
  forall w, fields_frame w (fst (m w)).

(** What the loop makes of one comma-separated piece of a line
    ([handle_field_eq] relates it to [handle_field]). *)
Inductive token :=
| NoColon                              (* no colon: passed over *)
| Reading (name : pystr) (x : float)   (* name:value with a numeric value *)
| NotNumeric                           (* [float] raises ValueError *)
| NoSecondPart.                        (* [sensor_data[1]] raises IndexError *)

Definition token_of (value : pystr) : token :=
  if contains colon value then
    match split colon value with
    | s0 :: s1 :: _ =>
        match float_of_str s1 with
        | Some x => Reading (strip s0) x
        | None => NotNumeric
        end
    | _ => NoSecondPart
    end
  else NoColon.

(** The locals [is_ppg_data], [is_acc_data] after a reading of [name]. *)
Definition mark (name : pystr) (is_data : bool * bool) : bool * bool :=
  if name_in name ppg_names then (true, snd is_data)
  else if name_in name acc_names then (fst is_data, true)
  else is_data.

(** The part of the loop body that follows the parsing of a reading. *)
Definition apply_reading (name : pystr) (x : float) (is_data : bool * bool)
  : M (bool * bool) :=
  current_record_setitem name (PyFloat x) ;;
  match dict_get name sensor_map with
  | Some buffer_index =>
      n <- gets (fun w => length (data_buffers w)) ;;
      if buffer_index <? n then
        data_buffer_push buffer_index x ;;
        plot_setData buffer_index ;;
        ret (mark name is_data)
      else ret (mark name is_data)
  | None => ret (mark name is_data)
  end.

(** Whether the emission step stores a record ([store_record_eq]). *)
Definition emits (w : window) : bool :=
  ppg_updated w && acc_updated w && forallb ne0 (dict_values (current w)).

(** The window after the emission step has stored a record
    ([store_record_eq]). *)
Definition emit (w : window) : window :=
  let w1 := set_sample_count (sample_count w + 1)%Z w in
  let w2 := set_store (store w1 ++ [current w1]) w1 in
  let w3 := set_data_records
              (dict_set (sample_count w2) (length (store w1)) (data_records w2)) w2 in
  set_acc_updated false (set_ppg_updated false w3).

(** The window once the locals of the loop are folded into the flags
    ([line_body_eq]). *)
Definition raise_flags (is_data : bool * bool) (w : window) : window :=
  let w1 := if fst is_data then set_ppg_updated true w else w in
  if snd is_data then set_acc_updated true w1 else w1.

Definition printed (o : output) (w : window) : window :=
  set_stdout (stdout w ++ [o]) w.

(** The sample indices 1, ..., n. *)
Definition indices (n : Z) : list Z := List.map Z.of_nat (seq 1 (Z.to_nat n)).

(** [has_channels d]: the seven channel names are keys of [d]. *)
Definition has_channels (d : pydict) : Prop :=
  Forall (fun name => is_Some (dict_get name d)) channels.

(** What holds of every window the program can be in. *)
Record wf (w : window) : Prop := {
  wf_buffers : Forall cb_wf (data_buffers w);
  wf_plots : length (plot_data_items w) = length (data_buffers w);
  wf_capacity : 0 < buffer_capacity w;
  wf_sizes : Forall (lt 0) (buffer_sizes w);
  wf_current : current_record w < length (store w);
  wf_count : (0 <= sample_count w)%Z;
  wf_keys : dict_keys (data_records w) = indices (sample_count w);
  wf_records : Forall (fun a => a < length (store w) /\ a <> current_record w)
                 (dict_values (data_records w));
  wf_channels : has_channels (current w);
  wf_record_channels : Forall (fun a => has_channels (deref w a))
                         (dict_values (data_records w))
}.

(** [session_frame w w']: as [fields_frame], but the flags and the standard
    output may differ. *)
Record session_frame (w w' : window) : Prop := {
  sf_data_records : data_records w' = data_records w;
  sf_sample_count : sample_count w' = sample_count w;
  sf_current_record : current_record w' = current_record w;
  sf_buffer_sizes : buffer_sizes w' = buffer_sizes w;
  sf_buffer_capacity : buffer_capacity w' = buffer_capacity w;
  sf_dialogs : dialogs w' = dialogs w;
  sf_files : files w' = files w;
  sf_store_length : length (store w') = length (store w);
  sf_store_others : forall a, a <> current_record w -> deref w' a = deref w a;
  sf_keys : forall k, is_Some (dict_get k (current w)) ->
                      is_Some (dict_get k (current w'));
  sf_buffers : length (data_buffers w') = length (data_buffers w);
  sf_buffers_wf : Forall cb_wf (data_buffers w) -> Forall cb_wf (data_buffers w');
  sf_plots : length (plot_data_items w') = length (plot_data_items w)
}.

(** How a reading reaches the buffers: the buffer of its channel, if there is
    one, receives the value and its plot item the new data; nothing else
    moves. *)
Definition routed (name : pystr) (x : float) (w w' : window) : Prop :=
  match dict_get name sensor_map with
  | Some i =>
      match data_buffers w !! i with
      | Some b =>
          exists b', push x b = (b', None) /\
            data_buffers w' = <[i := b']> (data_buffers w) /\
            plot_data_items w' = <[i := get_data b']> (plot_data_items w) /\
            list.last (get_data b') = Some x
      | None =>
          data_buffers w' = data_buffers w /\
          plot_data_items w' = plot_data_items w
      end
  | None =>
      data_buffers w' = data_buffers w /\ plot_data_items w' = plot_data_items w
  end.

(** No piece is a name followed by a value that is no number. *)
Definition tokens_ok (values : list pystr) : Prop :=
  Forall (fun value => token_of value <> NotNumeric) values.

(** The four ways a line can go. *)
Inductive line_outcome (data : list byte) (w w' : window) : Prop :=
| line_undecodable :
    decode_utf8 data = inl UnicodeDecodeError ->
    w' = printed (ErrorParsingLine UnicodeDecodeError) w ->
    line_outcome data w w'
| line_not_numeric decoded pre bad post w1 is_data :
    decode_utf8 data = inr decoded ->
    split comma (strip decoded) = pre ++ bad :: post ->
    tokens_ok pre ->
    token_of bad = NotNumeric ->
    for_fields pre (false, false) (printed (RawLine (strip decoded)) w)
      = (w1, inr is_data) ->
    w' = printed (ErrorParsingLine ValueError) w1 ->
    line_outcome data w w'
| line_kept decoded w1 is_data :
    decode_utf8 data = inr decoded ->
    tokens_ok (split comma (strip decoded)) ->
    for_fields (split comma (strip decoded)) (false, false)
      (printed (RawLine (strip decoded)) w) = (w1, inr is_data) ->
    emits (raise_flags is_data w1) = false ->
    w' = raise_flags is_data w1 ->
    line_outcome data w w'
| line_emitted decoded w1 is_data :
    decode_utf8 data = inr decoded ->
    tokens_ok (split comma (strip decoded)) ->
    for_fields (split comma (strip decoded)) (false, false)
      (printed (RawLine (strip decoded)) w) = (w1, inr is_data) ->
    emits (raise_flags is_data w1) = true ->
    w' = emit (raise_flags is_data w1) ->
    line_outcome data w w'.

(** What a line does to the session: either no record is stored, and then no
    flag is lowered, or exactly one is, a copy of the current record in which
    no value is zero. *)
Definition line_session (w w' : window) : Prop :=
  current_record w' = current_record w /\
  (forall a, a <> current_record w -> a < length (store w) ->
             deref w' a = deref w a) /\
  (forall k, is_Some (dict_get k (current w)) -> is_Some (dict_get k (current w'))) /\
  ((data_records w' = data_records w /\
    sample_count w' = sample_count w /\
    store w' !! length (store w) = None /\
    (ppg_updated w = true -> ppg_updated w' = true) /\
    (acc_updated w = true -> acc_updated w' = true))
   \/
   (data_records w'
      = data_records w ++ [((sample_count w + 1)%Z, length (store w))] /\
    sample_count w' = (sample_count w + 1)%Z /\
    deref w' (length (store w)) = current w' /\
    forallb ne0 (dict_values (current w')) = true /\
    ppg_updated w' = false /\ acc_updated w' = false)).

(** The window after the lines of one call of [receive_serial_data]. *)
Definition after_lines (lines : list (list byte)) (w : window) : window :=
  fold_left (fun w data => fst (process_line data w)) lines w.

(** [same_core w w']: nothing of the window itself differs, only what was
    printed, shown or written. *)
Record same_core (w w' : window) : Prop := {
  sc_data_buffers : data_buffers w' = data_buffers w;
  sc_plot_data_items : plot_data_items w' = plot_data_items w;
  sc_buffer_sizes : buffer_sizes w' = buffer_sizes w;
  sc_buffer_capacity : buffer_capacity w' = buffer_capacity w;
  sc_data_records : data_records w' = data_records w;
  sc_current_record : current_record w' = current_record w;
  sc_ppg_updated : ppg_updated w' = ppg_updated w;
  sc_acc_updated : acc_updated w' = acc_updated w;
  sc_sample_count : sample_count w' = sample_count w;
  sc_store : store w' = store w
}.

(** [core_kept m]: [m] prints, shows and writes, nothing more. *)
Definition core_kept {A} (m : M A) : Prop :=
  forall w, same_core w (fst (m w)).

(** The readings among the pieces of a line, in order. *)
Fixpoint readings_of (values : list pystr) : list (pystr * float) :=
  match values with
  | [] => []
  | value :: rest =>
      match token_of value with
      | Reading name x => (name, x) :: readings_of rest
      | _ => readings_of rest
      end
  end.

(** The current record after a sequence of readings. *)
Definition record_after (readings : list (pystr * float)) (d : pydict) : pydict :=
  fold_left (fun d r => dict_set r.1 (PyFloat r.2) d) readings d.

(** The buffer a reading goes to receives it. *)
Definition route (r : pystr * float) (bs : list CircularBuffer)
  : list CircularBuffer :=
  match dict_get r.1 sensor_map with
  | Some i =>
      match bs !! i with
      | Some b => <[i := fst (push r.2 b)]> bs
      | None => bs
      end
  | None => bs
  end.

(** The buffers after a sequence of readings. *)
Definition buffers_after (readings : list (pystr * float))
    (bs : list CircularBuffer) : list CircularBuffer :=
  fold_left (fun bs r => route r bs) readings bs.

(** The locals of the loop after a sequence of readings. *)
Definition marks (readings : list (pystr * float)) (is_data : bool * bool)
  : bool * bool :=
  fold_left (fun d r => mark r.1 d) readings is_data.

(** [session_extends w w' new]: the store of [w'] is that of [w] followed by
    [new], and the records of [w] still have their content. *)
Definition session_extends (w w' : window) (new : list (Z * addr)) : Prop :=
  data_records w' = data_records w ++ new /\
  forall k a, (k, a) ∈ data_records w -> deref w' a = deref w a.

(** Some value of the record is zero: the test [all(value != 0 ...)] fails. *)
Definition has_zero (d : pydict) : bool :=
  negb (forallb ne0 (dict_values d)).

(** No record was stored and no flag was lowered. *)
Definition emission_blocked (w w' : window) : Prop :=
  data_records w' = data_records w /\
  sample_count w' = sample_count w /\
  (ppg_updated w = true -> ppg_updated w' = true) /\
  (acc_updated w = true -> acc_updated w' = true).

(** The pieces before the first one whose value is no number, that piece, and
    the pieces after it. *)
Fixpoint first_malformed (values : list pystr)
  : option (list pystr * pystr * list pystr) :=
  match values with
  | [] => None
  | value :: rest =>
      match token_of value with
      | NotNumeric => Some ([], value, rest)
      | _ => match first_malformed rest with
             | Some (pre, bad, post) => Some (value :: pre, bad, post)
             | None => None
             end
      end
  end.

(** The line makes [process_line] report an error. *)
Definition malformed_line (data : list byte) : bool :=
  match decode_utf8 data with
  | inl _ => true
  | inr decoded =>
      match first_malformed (split comma (strip decoded)) with
      | Some _ => true
      | None => false
      end
  end.

(** The pieces of a malformed line the loop gets through before the error. *)
Definition applied_fields (data : list byte) : list pystr :=
  match decode_utf8 data with
  | inl _ => []
  | inr decoded =>
      match first_malformed (split comma (strip decoded)) with
      | Some (pre, _, _) => pre
      | None => split comma (strip decoded)
      end
  end.

(** What a malformed line makes the program print. *)
Definition error_report (data : list byte) : list output :=
  match decode_utf8 data with
  | inl e => [ErrorParsingLine e]
  | inr decoded => [RawLine (strip decoded); ErrorParsingLine ValueError]
  end.

(** The line is discarded as a whole: neither the current record nor any
    buffer has taken anything from it. *)
Definition line_discarded (w : window) (data : list byte) : Prop :=
  let w' := fst (process_line data w) in
  current w' = current w /\ data_buffers w' = data_buffers w.

(** [r] holds the values of [d] under the seven channel names, in the order
    of the header. *)
Definition is_row (d : pydict) (r : row) : Prop :=
  Forall2 (fun name c => exists v, dict_get name d = Some v /\ c = CellVal v)
    channels r.

(** [float] reads the literal [s] as [x], and [x] is not zero. *)
Definition reads (s : string) (x : float) : Prop :=
  float_of_str (str s) = Some x /\ float_ne0 x = true.

(** The readings of a line that the loop applies: all of them, those before
    the first malformed piece, or none when the line cannot be decoded. *)
Definition line_readings (data : list byte) : list (pystr * float) :=
  readings_of (applied_fields data).

(** The values a sequence of readings sends to the buffer at position [i]. *)
Definition values_for (i : nat) (readings : list (pystr * float)) : list float :=
  List.map snd
    (List.filter (fun r => bool_decide (dict_get r.1 sensor_map = Some i)) readings).

(** The last [n] elements of a list, all of them when there are fewer. *)
Definition last_n {A} (n : nat) (l : list A) : list A := drop (length l - n) l.

(** The value of the last reading of [name] in a sequence, if there is one. *)
Definition latest (name : pystr) (readings : list (pystr * float)) : option float :=
  list.last (List.map snd (List.filter (fun r => bool_decide (r.1 = name)) readings)).

(** Some reading of the sequence has a name of the group. *)
Definition has_group (names : list pystr) (readings : list (pystr * float)) : bool :=
  existsb (fun r => name_in r.1 names) readings.

(** No stored record holds a zero. *)
Definition records_nonzero (w : window) : Prop :=
  Forall (fun record => forallb ne0 (dict_values (deref w record.2)) = true)
    (data_records w).

(** The sizes on offer are those of the constructor, the current capacity is
    one of them, and every buffer has it. *)
Definition configured (w : window) : Prop :=
  buffer_sizes w = buffer_sizes SerialPlotterWindow_init /\
  buffer_capacity w ∈ buffer_sizes w /\
  Forall (fun b => capacity b = buffer_capacity w) (data_buffers w).

(** Every plot item shows the data of its buffer. *)
Definition plots_fresh (w : window) : Prop :=
  plot_data_items w = List.map get_data (data_buffers w).

(** The event is no change of the buffer size. *)
Definition no_resize (ev : event) : Prop :=
  match ev with
  | BufferSizeSelected _ => False
  | _ => True
  end.

(** [preserved P m]: [m] keeps [P], whether it returns or raises. *)
Definition preserved {A} (P : window -> Prop) (m : M A) : Prop :=
  forall w, P w -> P (fst (m w)).

(** The content of the file named [name]. *)
Definition file_content (name : pystr) (w : window) : option (list row) :=
  dict_get name (files w).


(** The two flags [ppg_updated] and [acc_updated]. *)
Definition flags (w : window) : bool * bool := (ppg_updated w, acc_updated w).

(** The flags with which a line comes to the emission test, from those before
    it: the assignments after the loop raise the flag of each group the line
    has a reading of; a line that raises in the loop does not get to them. *)
Definition line_flags (data : list byte) (fl : bool * bool) : bool * bool :=
  if malformed_line data then fl
  else (fst fl || has_group ppg_names (line_readings data),
        snd fl || has_group acc_names (line_readings data)).

End Vocabulary.

(** * Properties *)

(** ** The builtins on concrete inputs *)

Example split_pieces :
  split comma (str "a,b,,c") = [str "a"; str "b"; []; str "c"].
Proof. reflexivity. Qed.

Example split_empty : split comma [] = [[]].
Proof. reflexivity. Qed.

Example split_second_colon : split colon (str "R:1:2") = [str "R"; str "1"; str "2"].
Proof. reflexivity. Qed.

Example strip_both_ends : strip [32; 9; 82; 32; 49; 13; 10]%N = [82; 32; 49]%N.
Proof. reflexivity. Qed.

Example utf8_euro : utf8 [226; 130; 172]%N = Some [8364%N].
Proof. reflexivity. Qed.

Example utf8_overlong : utf8 [192; 128]%N = None.
Proof. reflexivity. Qed.

Example utf8_surrogate : utf8 [237; 160; 128]%N = None.
Proof. reflexivity. Qed.

Example utf8_too_large : utf8 [244; 144; 128; 128]%N = None.
Proof. reflexivity. Qed.

Example utf8_truncated : utf8 [195]%N = None.
Proof. reflexivity. Qed.

Example getitem_negative : getitem [1000; 3000; 5000] (-1) = inr 5000.
Proof. reflexivity. Qed.

Example getitem_out_of_range : getitem [1000; 3000; 5000] 3 = inl IndexError.
Proof. reflexivity. Qed.

Example integer_literal_examples :
  integer_literal (str "12") = Some 12%Z /\
  integer_literal (str "-3") = Some (-3)%Z /\
  integer_literal (str "abc") = None /\
  integer_literal [] = None.
Proof. repeat split; reflexivity. Qed.

(** ** CircularBuffer *)

Section CircularBufferFacts.
Context {F : FloatOps}.

Lemma cb_wf_init n : 0 < n -> cb_wf (CircularBuffer_init n).
Proof. intros Hn. split; simpl; [apply repeat_length | exact Hn]. Qed.

Lemma get_data_init n : get_data (CircularBuffer_init n) = [].
Proof. reflexivity. Qed.

Lemma take_succ_insert {A} (l : list A) i v :
  i < length l -> take (S i) (<[i := v]> l) = take i l ++ [v].
Proof.
  intros Hi.
  rewrite (take_S_r _ i v) by (apply list_lookup_insert_eq; exact Hi).
  rewrite take_insert_ge by lia. reflexivity.
Qed.

Lemma insert_last_slot {A} (l : list A) i v :
  S i = length l -> <[i := v]> l = take i l ++ [v].
Proof.
  intros Hi.
  rewrite <- (take_succ_insert l i v) by lia.
  rewrite take_ge; [reflexivity | rewrite length_insert; lia].
Qed.

(** Before the first wrap a push appends to what [get_data] returns. *)
Lemma push_not_full v (b : CircularBuffer) :
  cb_wf b -> full b = false ->
  exists b', push v b = (b', None) /\ cb_wf b' /\
    capacity b' = capacity b /\
    get_data b' = get_data b ++ [v] /\
    full b' = (S (index b) =? capacity b) /\
    index b' = (if S (index b) =? capacity b then 0 else S (index b)).
Proof.
  intros [Hlen Hidx] Hfull. unfold push.
  destruct (decide (index b < length (buffer b))) as [_|Hn]; [|lia].
  destruct (capacity b =? 0) eqn:Hc; [apply Nat.eqb_eq in Hc; lia|].
  cbn [capacity buffer index full].
  destruct (Nat.eqb_spec (S (index b)) (capacity b)) as [Heq|Hne].
  - assert (Hm : (index b + 1) mod capacity b = 0).
    { replace (index b + 1) with (capacity b) by lia. apply Nat.Div0.mod_same. }
    rewrite Hm. cbn [Nat.eqb].
    eexists. split; [reflexivity|].
    unfold cb_wf, get_data. cbn [capacity buffer index full].
    rewrite length_insert. repeat split; try lia.
    rewrite Hfull, drop_0, take_0, app_nil_r.
    apply insert_last_slot. lia.
  - assert (Hm : (index b + 1) mod capacity b = S (index b)).
    { rewrite Nat.mod_small; lia. }
    rewrite Hm. cbn [Nat.eqb].
    eexists. split; [reflexivity|].
    unfold cb_wf, get_data. cbn [capacity buffer index full].
    rewrite length_insert, Hfull. repeat split; try lia.
    apply take_succ_insert. lia.
Qed.

(** After the first wrap a push drops the oldest value and appends. *)
Lemma push_full v (b : CircularBuffer) :
  cb_wf b -> full b = true ->
  exists b', push v b = (b', None) /\ cb_wf b' /\
    capacity b' = capacity b /\
    get_data b' = drop 1 (get_data b) ++ [v] /\
    full b' = true.
Proof.
  intros [Hlen Hidx] Hfull. unfold push.
  destruct (decide (index b < length (buffer b))) as [_|Hn]; [|lia].
  destruct (capacity b =? 0) eqn:Hc; [apply Nat.eqb_eq in Hc; lia|].
  cbn [capacity buffer index full].
  destruct (lookup_lt_is_Some_2 (buffer b) (index b)) as [x Hx]; [lia|].
  assert (Hold : get_data b
                 = x :: drop (S (index b)) (buffer b) ++ take (index b) (buffer b)).
  { unfold get_data. rewrite Hfull, (drop_S _ x _ Hx). reflexivity. }
  rewrite Hold. cbn [drop]. rewrite drop_0.
  destruct (Nat.eqb_spec (S (index b)) (capacity b)) as [Heq|Hne].
  - assert (Hm : (index b + 1) mod capacity b = 0).
    { replace (index b + 1) with (capacity b) by lia. apply Nat.Div0.mod_same. }
    rewrite Hm. cbn [Nat.eqb].
    eexists. split; [reflexivity|].
    unfold cb_wf, get_data. cbn [capacity buffer index full].
    rewrite length_insert. repeat split; try lia.
    rewrite drop_0, take_0, app_nil_r.
    rewrite (drop_ge (buffer b) (S (index b))) by lia.
    apply insert_last_slot. lia.
  - assert (Hm : (index b + 1) mod capacity b = S (index b)).
    { rewrite Nat.mod_small; lia. }
    rewrite Hm. cbn [Nat.eqb].
    eexists. split; [reflexivity|].
    unfold cb_wf, get_data. cbn [capacity buffer index full].
    rewrite length_insert, Hfull. repeat split; try lia.
    rewrite drop_insert_lt by lia.
    rewrite take_succ_insert by lia.
    rewrite app_assoc. reflexivity.
Qed.

(** On a buffer of the constructed shape [push] never raises, and the value
    pushed becomes the newest one. *)
Lemma push_wf v (b : CircularBuffer) :
  cb_wf b ->
  exists b', push v b = (b', None) /\ cb_wf b' /\
    capacity b' = capacity b /\ list.last (get_data b') = Some v.
Proof.
  intros Hwf. destruct (full b) eqn:Hfull.
  - destruct (push_full v b Hwf Hfull) as (b' & Hp & Hwf' & Hc & Hd & _).
    exists b'. rewrite Hd, last_snoc. auto.
  - destruct (push_not_full v b Hwf Hfull) as (b' & Hp & Hwf' & Hc & Hd & _).
    exists b'. rewrite Hd, last_snoc. auto.
Qed.

Lemma holds_last_init N : 0 < N -> holds_last N [] (CircularBuffer_init N).
Proof.
  intros HN. unfold holds_last. split; [apply cb_wf_init, HN|].
  repeat split; try reflexivity. discriminate.
Qed.

Lemma holds_last_push N pushed v b :
  holds_last N pushed b ->
  exists b', push v b = (b', None) /\ holds_last N (pushed ++ [v]) b'.
Proof.
  intros (Hwf & Hcap & Hdata & Hnf & Hf).
  assert (HN : 0 < N) by (destruct Hwf; lia).
  destruct (full b) eqn:Hfull.
  - destruct (push_full v b Hwf Hfull) as (b' & Hp & Hwf' & Hcap' & Hd' & Hfull').
    exists b'. split; [exact Hp|]. unfold holds_last.
    specialize (Hf eq_refl).
    rewrite length_app; cbn [length].
    split; [exact Hwf'|]. split; [congruence|]. split; [|split].
    + rewrite Hd', Hdata, drop_drop.
      rewrite drop_app_le by lia. f_equal. f_equal. lia.
    + rewrite Hfull'. discriminate.
    + intros _. lia.
  - destruct (push_not_full v b Hwf Hfull)
      as (b' & Hp & Hwf' & Hcap' & Hd' & Hfull' & Hidx').
    exists b'. split; [exact Hp|]. unfold holds_last.
    specialize (Hnf eq_refl). destruct Hwf as [_ Hlt].
    rewrite length_app; cbn [length].
    split; [exact Hwf'|]. split; [congruence|]. split; [|split].
    + rewrite Hd', Hdata.
      replace (length pushed - N) with 0 by lia.
      replace (length pushed + 1 - N) with 0 by lia.
      rewrite !drop_0. reflexivity.
    + intros Hf'. rewrite Hf' in Hfull'.
      destruct (Nat.eqb_spec (S (index b)) (capacity b)); [discriminate|]. lia.
    + intros Hf'. rewrite Hf' in Hfull'. symmetry in Hfull'.
      apply Nat.eqb_eq in Hfull'. lia.
Qed.

Lemma holds_last_push_all N values : forall pushed b,
  holds_last N pushed b ->
  exists b', push_all values b = (b', None) /\ holds_last N (pushed ++ values) b'.
Proof.
  induction values as [|v values IH]; intros pushed b Hb.
  - exists b. rewrite app_nil_r. split; [reflexivity | exact Hb].
  - destruct (holds_last_push N pushed v b Hb) as (b1 & Hp & Hb1).
    destruct (IH _ _ Hb1) as (b' & Hpa & Hb').
    exists b'. cbn [push_all]. rewrite Hp.
    rewrite <- app_assoc in Hb'. split; [exact Hpa | exact Hb'].
Qed.

(** C1. For every positive capacity [N] and every sequence of pushed values,
    pushing them into a new buffer of capacity [N] raises nothing and
    [get_data] then returns the last [min L N] of them, oldest first: the
    whole sequence when [L <= N], the last [N] values when [L > N]. *)
Theorem get_data_last_pushed (N : nat) (values : list float) :
  0 < N ->
  exists b, push_all values (CircularBuffer_init N) = (b, None) /\
    get_data b = drop (length values - N) values /\
    length (get_data b) = Nat.min (length values) N /\
    (length values <= N -> get_data b = values).
Proof.
  intros HN.
  destruct (holds_last_push_all N values [] _ (holds_last_init N HN))
    as (b & Hp & _ & _ & Hd & _).
  cbn [app] in Hd. exists b. split; [exact Hp|]. split; [exact Hd|]. split.
  - rewrite Hd, length_drop. lia.
  - intros Hle. rewrite Hd. replace (length values - N) with 0 by lia.
    apply drop_0.
Qed.

End CircularBufferFacts.

(** Five pushes into a buffer of capacity three leave the last three. *)
Lemma get_data_last_pushed_witness :
  0 < 3 /\
  exists b : @CircularBuffer IntegerFloat,
    push_all (F := IntegerFloat) [1; 2; 3; 4; 5]%Z (CircularBuffer_init 3)
      = (b, None) /\
    get_data b = [3; 4; 5]%Z /\
    length (get_data b) = 3 /\
    (5 <= 3 -> get_data b = [1; 2; 3; 4; 5]%Z).
Proof.
  split; [lia|].
  exact (@get_data_last_pushed IntegerFloat 3 [1; 2; 3; 4; 5]%Z ltac:(lia)).
Defined.

(** ** Dictionaries and strings *)

Section DictFacts.
Context {K V : Type} `{EqDecision K}.
Implicit Types d : list (K * V).

Lemma dict_get_set_eq k v d : dict_get k (dict_set k v d) = Some v.
Proof.
  induction d as [|[k' v'] d IH]; cbn.
  - destruct (decide (k = k)); congruence.
  - destruct (decide (k = k')) as [->|Hne]; cbn.
    + destruct (decide (k' = k')); congruence.
    + destruct (decide (k = k')); [contradiction | exact IH].
Qed.

Lemma dict_get_set_ne k k' v d :
  k <> k' -> dict_get k' (dict_set k v d) = dict_get k' d.
Proof.
  intros Hne. induction d as [|[k0 v0] d IH]; cbn.
  - destruct (decide (k' = k)); congruence.
  - destruct (decide (k = k0)) as [->|Hne0]; cbn.
    + destruct (decide (k' = k0)); congruence.
    + destruct (decide (k' = k0)); [reflexivity | exact IH].
Qed.

Lemma dict_get_set_is_Some k k' v d :
  is_Some (dict_get k' d) -> is_Some (dict_get k' (dict_set k v d)).
Proof.
  intros Hs. destruct (decide (k = k')) as [->|Hne].
  - rewrite dict_get_set_eq. eauto.
  - rewrite dict_get_set_ne by exact Hne. exact Hs.
Qed.

(** A new key goes to the end and moves nothing. *)
Lemma dict_set_fresh k v d :
  k ∉ dict_keys d -> dict_set k v d = d ++ [(k, v)].
Proof.
  induction d as [|[k' v'] d IH]; cbn; intros Hk; [reflexivity|].
  destruct (decide (k = k')) as [->|Hne].
  - exfalso. apply Hk. left.
  - f_equal. apply IH. intros Hin. apply Hk. right. exact Hin.
Qed.

Lemma dict_get_In k v d : dict_get k d = Some v -> v ∈ dict_values d.
Proof.
  induction d as [|[k' v'] d IH]; cbn; [discriminate|].
  destruct (decide (k = k')).
  - intros [= ->]. left.
  - intros Hg. right. apply IH, Hg.
Qed.

End DictFacts.

Lemma split_nonempty sep s : exists piece pieces, split sep s = piece :: pieces.
Proof.
  induction s as [|c s (p & ps & IH)]; cbn; [eauto|].
  destruct (N.eqb c sep); [eauto|]. rewrite IH. eauto.
Qed.

(** A string that contains the separator splits in at least two pieces. *)
Lemma split_contains sep s :
  contains sep s = true ->
  exists s0 s1 pieces, split sep s = s0 :: s1 :: pieces.
Proof.
  induction s as [|c s IH]; cbn; [discriminate|].
  rewrite N.eqb_sym. destruct (N.eqb c sep); cbn.
  - intros _. destruct (split_nonempty sep s) as (p & ps & ->). eauto.
  - intros Hc. destruct (IH Hc) as (s0 & s1 & ps & ->). eauto.
Qed.

(** ** What the loop over the fields leaves alone *)

Section WindowFacts.
Context {F : FloatOps}.
Local Open Scope py_scope.

Lemma fields_frame_refl w : fields_frame w w.
Proof. split; auto. Qed.

Lemma fields_frame_trans w1 w2 w3 :
  fields_frame w1 w2 -> fields_frame w2 w3 -> fields_frame w1 w3.
Proof.
  intros [] []. split; try congruence.
  - intros a Ha. rewrite <- ff_store_others0 by exact Ha.
    apply ff_store_others1. congruence.
  - auto.
  - auto.
Qed.

Lemma deref_insert_eq w a d :
  a < length (store w) -> deref (set_store (<[a := d]> (store w)) w) a = d.
Proof.
  intros Ha. destruct w; unfold deref; cbn in *.
  rewrite list_lookup_insert_eq by exact Ha. reflexivity.
Qed.

Lemma deref_insert_ne w a a' d :
  a <> a' -> deref (set_store (<[a := d]> (store w)) w) a' = deref w a'.
Proof.
  intros Ha. destruct w; unfold deref; cbn in *.
  rewrite list_lookup_insert_ne by exact Ha. reflexivity.
Qed.

Lemma current_record_setitem_frame name value w :
  fields_frame w (fst (current_record_setitem name value w)).
Proof.
  unfold current_record_setitem, modify; cbn [fst].
  split; try (destruct w; reflexivity).
  - destruct w; cbn. apply length_insert.
  - intros a Ha. apply deref_insert_ne. congruence.
  - intros k Hk. unfold current.
    replace (current_record (set_store _ w)) with (current_record w)
      by (destruct w; reflexivity).
    destruct (decide (current_record w < length (store w))) as [Hlt|Hge].
    + rewrite deref_insert_eq by exact Hlt. apply dict_get_set_is_Some, Hk.
    + exfalso. unfold current, deref in Hk.
      rewrite lookup_ge_None_2 in Hk by lia. cbn in Hk. destruct Hk; discriminate.
  - destruct w; cbn; auto.
Qed.

Lemma data_buffer_push_frame i value w :
  fields_frame w (fst (data_buffer_push i value w)).
Proof.
  unfold data_buffer_push.
  destruct (data_buffers w !! i) as [b|] eqn:Hb; [|apply fields_frame_refl].
  destruct (push value b) as [b' r] eqn:Hp; cbn [fst].
  split; try solve [destruct w; cbn; auto using length_insert].
  intros Hwf.
  replace (data_buffers (set_data_buffers (<[i:=b']> (data_buffers w)) w))
    with (<[i:=b']> (data_buffers w)) by (destruct w; reflexivity).
  apply Forall_insert; [exact Hwf|].
  assert (Hwfb : cb_wf b) by (eapply Forall_lookup_1; eauto).
  destruct (push_wf value b Hwfb) as (b1 & Hp1 & Hwf1 & _).
  congruence.
Qed.

Lemma plot_setData_frame i w : fields_frame w (fst (plot_setData i w)).
Proof.
  unfold plot_setData.
  destruct (data_buffers w !! i) as [b|]; [|apply fields_frame_refl].
  destruct (plot_data_items w !! i) as [p|]; [|apply fields_frame_refl].
  cbn [fst]. split; solve [destruct w; cbn; auto using length_insert].
Qed.

Lemma keeps_ret {A} (x : A) : keeps (ret x).
Proof. intros w. apply fields_frame_refl. Qed.

Lemma keeps_raise {A} e : keeps (raise (A := A) e).
Proof. intros w. apply fields_frame_refl. Qed.

Lemma keeps_lift {A} (r : exn + A) : keeps (lift r).
Proof. intros w. apply fields_frame_refl. Qed.

Lemma keeps_gets {A} (f : window -> A) : keeps (gets f).
Proof. intros w. apply fields_frame_refl. Qed.

Lemma keeps_bind {A B} (m : M A) (k : A -> M B) :
  keeps m -> (forall x, keeps (k x)) -> keeps (bind m k).
Proof.
  intros Hm Hk w. unfold bind. specialize (Hm w).
  destruct (m w) as [w' [e|x]]; cbn [fst] in *; [exact Hm|].
  eapply fields_frame_trans; [exact Hm | apply Hk].
Qed.

Lemma keeps_py_float s : keeps (py_float s).
Proof. unfold py_float. destruct (float_of_str s); [apply keeps_ret | apply keeps_raise]. Qed.

Lemma keeps_handle_field value is_data : keeps (handle_field value is_data).
Proof.
  unfold handle_field. destruct (contains colon value); [|apply keeps_ret].
  apply keeps_bind; [apply keeps_lift | intros s0].
  apply keeps_bind; [apply keeps_lift | intros s1].
  apply keeps_bind; [apply keeps_py_float | intros x].
  apply keeps_bind; [intros w; apply current_record_setitem_frame | intros _].
  destruct (dict_get _ sensor_map) as [i|]; [|apply keeps_ret].
  apply keeps_bind; [apply keeps_gets | intros n].
  destruct (i <? n); [|apply keeps_ret].
  apply keeps_bind; [intros w; apply data_buffer_push_frame | intros _].
  apply keeps_bind; [intros w; apply plot_setData_frame | intros _].
  apply keeps_ret.
Qed.

Lemma keeps_for_fields values : forall is_data, keeps (for_fields values is_data).
Proof.
  induction values as [|value values IH]; intros is_data; cbn [for_fields].
  - apply keeps_ret.
  - apply keeps_bind; [apply keeps_handle_field | intros is_data'; apply IH].
Qed.

(** ** The fields of a line *)

Lemma token_of_second_part value : token_of value <> NoSecondPart.
Proof.
  unfold token_of. destruct (contains colon value) eqn:Hc; [|discriminate].
  destruct (split_contains _ _ Hc) as (s0 & s1 & ps & ->).
  destruct (float_of_str s1); discriminate.
Qed.

Lemma handle_field_eq value is_data w :
  handle_field value is_data w =
  match token_of value with
  | NoColon => (w, inr is_data)
  | Reading name x => apply_reading name x is_data w
  | NotNumeric => (w, inl ValueError)
  | NoSecondPart => (w, inl IndexError)
  end.
Proof.
  unfold handle_field, token_of.
  destruct (contains colon value) eqn:Hc; [|reflexivity].
  destruct (split_contains _ _ Hc) as (s0 & s1 & ps & ->).
  change (getitem (s0 :: s1 :: ps) 0) with (inr (A := exn) s0).
  change (getitem (s0 :: s1 :: ps) 1) with (inr (A := exn) s1).
  unfold bind at 1, lift. unfold bind at 1. unfold bind at 1, py_float.
  destruct (float_of_str s1) as [x|]; reflexivity.
Qed.

Lemma keeps_apply_reading name x is_data : keeps (apply_reading name x is_data).
Proof.
  unfold apply_reading.
  apply keeps_bind; [intros w; apply current_record_setitem_frame | intros _].
  destruct (dict_get _ sensor_map) as [i|]; [|apply keeps_ret].
  apply keeps_bind; [apply keeps_gets | intros n].
  destruct (i <? n); [|apply keeps_ret].
  apply keeps_bind; [intros w; apply data_buffer_push_frame | intros _].
  apply keeps_bind; [intros w; apply plot_setData_frame | intros _].
  apply keeps_ret.
Qed.

Lemma for_fields_app pre rest : forall is_data w,
  for_fields (pre ++ rest) is_data w =
  match for_fields pre is_data w with
  | (w1, inr is_data1) => for_fields rest is_data1 w1
  | (w1, inl e) => (w1, inl e)
  end.
Proof.
  induction pre as [|value pre IH]; intros is_data w; cbn [for_fields app].
  - reflexivity.
  - unfold bind. destruct (handle_field value is_data w) as [w1 [e|d1]].
    + reflexivity.
    + apply IH.
Qed.

(** ** The end of a line *)

Lemma store_record_eq w :
  store_record w = (if emits w then emit w else w, inr tt).
Proof.
  unfold store_record, emits, emit, current.
  destruct w as [? ? ? ? ? ? p a ? ? ? ? ?]; unfold bind, gets; cbn.
  destruct p, a; cbn; try reflexivity.
  destruct (forallb ne0 _); reflexivity.
Qed.

Lemma line_body_eq data w :
  line_body data w =
  match decode_utf8 data with
  | inl e => (w, inl e)
  | inr decoded =>
      let line := strip decoded in
      match for_fields (split comma line) (false, false) (printed (RawLine line) w) with
      | (w1, inl e) => (w1, inl e)
      | (w1, inr is_data) => store_record (raise_flags is_data w1)
      end
  end.
Proof.
  unfold line_body. unfold bind at 1. unfold lift.
  destruct (decode_utf8 data) as [e|decoded]; [reflexivity|].
  unfold bind at 1. unfold print, modify, printed.
  unfold bind at 1.
  destruct (for_fields _ _ _) as [w1 [e|[p a]]]; [reflexivity|].
  unfold raise_flags. cbn [fst snd].
  destruct p, a; reflexivity.
Qed.

Lemma process_line_eq data w :
  process_line data w =
  match line_body data w with
  | (w1, inl e) =>
      if parse_errors e then (printed (ErrorParsingLine e) w1, inr tt)
      else (w1, inl e)
  | r => r
  end.
Proof.
  unfold process_line, try_except.
  destruct (line_body data w) as [w1 [e|[]]]; reflexivity.
Qed.

(** ** Well-formed windows *)

Lemma session_frame_refl w : session_frame w w.
Proof. split; auto. Qed.

Lemma session_frame_trans w1 w2 w3 :
  session_frame w1 w2 -> session_frame w2 w3 -> session_frame w1 w3.
Proof.
  intros [] []. split; try congruence.
  - intros a Ha. rewrite <- sf_store_others0 by exact Ha.
    apply sf_store_others1. congruence.
  - auto.
  - auto.
Qed.

Lemma fields_session w w' : fields_frame w w' -> session_frame w w'.
Proof. intros []. split; assumption. Qed.

Lemma session_frame_printed o w : session_frame w (printed o w).
Proof. unfold printed. split; solve [destruct w; cbn; auto]. Qed.

Lemma session_frame_raise_flags is_data w :
  session_frame w (raise_flags is_data w).
Proof.
  unfold raise_flags. destruct is_data as [[] []]; cbn [fst snd];
    split; solve [destruct w; cbn; auto].
Qed.

Lemma wf_frame w w' : wf w -> session_frame w w' -> wf w'.
Proof.
  intros [] []. split.
  - auto.
  - congruence.
  - congruence.
  - congruence.
  - congruence.
  - congruence.
  - congruence.
  - rewrite sf_data_records0, sf_store_length0, sf_current_record0. assumption.
  - unfold has_channels in *. eapply Forall_impl; [|exact wf_channels0].
    cbn. auto.
  - rewrite sf_data_records0.
    apply Forall_forall. intros a Ha.
    rewrite Forall_forall in wf_records0, wf_record_channels0.
    rewrite sf_store_others0; [auto|]. apply wf_records0, Ha.
Qed.

(** In a well-formed window a reading is applied without an exception. *)
Lemma apply_reading_wf name x is_data w :
  wf w ->
  exists w', apply_reading name x is_data w = (w', inr (mark name is_data)) /\
    fields_frame w w' /\ wf w' /\
    current w' = dict_set name (PyFloat x) (current w) /\
    routed name x w w'.
Proof.
  intros Hwf.
  assert (Hgen : exists w',
    apply_reading name x is_data w = (w', inr (mark name is_data)) /\
    current w' = dict_set name (PyFloat x) (current w) /\ routed name x w w').
  { pose proof (wf_buffers _ Hwf) as Hb. pose proof (wf_plots _ Hwf) as Hp.
    pose proof (wf_current _ Hwf) as Hc.
    unfold apply_reading, routed, current_record_setitem, current.
    unfold bind at 1. unfold modify.
    set (w0 := set_store _ w).
    assert (Hcur0 : deref w0 (current_record w0)
                    = dict_set name (PyFloat x) (deref w (current_record w))).
    { subst w0. replace (current_record (set_store _ w)) with (current_record w)
        by (destruct w; reflexivity).
      apply deref_insert_eq, Hc. }
    assert (Hb0 : data_buffers w0 = data_buffers w) by (destruct w; reflexivity).
    assert (Hp0 : plot_data_items w0 = plot_data_items w) by (destruct w; reflexivity).
    destruct (dict_get name sensor_map) as [i|]; [|unfold ret; eauto].
    unfold bind at 1. unfold gets. rewrite Hb0.
    destruct (Nat.ltb_spec i (length (data_buffers w))) as [Hi|Hi].
    - destruct (lookup_lt_is_Some_2 _ _ Hi) as [b Hbi]. rewrite Hbi.
      assert (Hwfb : cb_wf b) by (eapply Forall_lookup_1; eauto).
      destruct (push_wf x b Hwfb) as (b' & Hpush & _ & _ & Hlast).
      unfold bind at 1. unfold data_buffer_push. rewrite Hb0, Hbi, Hpush.
      unfold bind at 1. unfold plot_setData.
      set (w1 := set_data_buffers _ w0).
      assert (Hb1 : data_buffers w1 = <[i := b']> (data_buffers w))
        by (subst w1; rewrite <- Hb0; destruct w0; reflexivity).
      assert (Hp1 : plot_data_items w1 = plot_data_items w)
        by (subst w1; rewrite <- Hp0; destruct w0; reflexivity).
      rewrite Hb1, Hp1, list_lookup_insert_eq by exact Hi.
      destruct (lookup_lt_is_Some_2 (plot_data_items w) i) as [p Hpi]; [lia|].
      rewrite Hpi. unfold ret. eexists. split; [reflexivity|]. split.
      + unfold deref. unfold deref in Hcur0.
        replace (store (set_plot_data_items _ w1)) with (store w0)
          by (subst w1; destruct w0; reflexivity).
        replace (current_record (set_plot_data_items _ w1)) with (current_record w0)
          by (subst w1; destruct w0; reflexivity).
        exact Hcur0.
      + exists b'. split; [reflexivity|]. split; [|split].
        * rewrite <- Hb1. destruct w1; reflexivity.
        * rewrite <- Hp1. destruct w1; reflexivity.
        * exact Hlast.
    - rewrite lookup_ge_None_2 by lia. unfold ret. eauto. }
  destruct Hgen as (w' & Heq & Hcur & Hr).
  pose proof (keeps_apply_reading name x is_data w) as Hk.
  rewrite Heq in Hk. cbn [fst] in Hk.
  exists w'. split; [exact Heq|]. split; [exact Hk|].
  split; [eapply wf_frame; eauto using fields_session|]. split; assumption.
Qed.

(** ** The loop over the fields in a well-formed window *)

Lemma for_fields_cons value values is_data w :
  for_fields (value :: values) is_data w =
  match handle_field value is_data w with
  | (w1, inr is_data1) => for_fields values is_data1 w1
  | (w1, inl e) => (w1, inl e)
  end.
Proof. reflexivity. Qed.

(** Either every piece is passed over or applied, or the loop stops at the
    first piece whose value is no number, with a ValueError and in the state
    the pieces before it produced. *)
Lemma for_fields_wf values : forall is_data w,
  wf w ->
  (tokens_ok values /\
   exists w' is_data', for_fields values is_data w = (w', inr is_data')) \/
  (exists pre bad post w' is_data',
     values = pre ++ bad :: post /\ tokens_ok pre /\
     token_of bad = NotNumeric /\
     for_fields pre is_data w = (w', inr is_data') /\
     for_fields values is_data w = (w', inl ValueError)).
Proof.
  induction values as [|value values IH]; intros is_data w Hwf.
  - left. split; [constructor|]. exists w, is_data. reflexivity.
  - pose proof (handle_field_eq value is_data w) as Hh.
    pose proof (token_of_second_part value) as Hsp.
    destruct (token_of value) as [|name x| |] eqn:Htok; [| | |contradiction].
    + destruct (IH is_data w Hwf)
        as [[Hok (w' & d' & Hf)] | (pre & bad & post & w' & d' & -> & Hok & Hbad & Hpre & Hf)].
      * left. split; [constructor; [congruence | exact Hok]|].
        exists w', d'. rewrite for_fields_cons, Hh. exact Hf.
      * right. exists (value :: pre), bad, post, w', d'.
        split; [reflexivity|]. split; [constructor; [congruence | exact Hok]|].
        split; [exact Hbad|].
        cbn [app]. rewrite !for_fields_cons, Hh. auto.
    + destruct (apply_reading_wf name x is_data w Hwf) as (w1 & Ha & _ & Hwf1 & _).
      rewrite Ha in Hh.
      destruct (IH (mark name is_data) w1 Hwf1)
        as [[Hok (w' & d' & Hf)] | (pre & bad & post & w' & d' & -> & Hok & Hbad & Hpre & Hf)].
      * left. split; [constructor; [congruence | exact Hok]|].
        exists w', d'. rewrite for_fields_cons, Hh. exact Hf.
      * right. exists (value :: pre), bad, post, w', d'.
        split; [reflexivity|]. split; [constructor; [congruence | exact Hok]|].
        split; [exact Hbad|].
        cbn [app]. rewrite !for_fields_cons, Hh. auto.
    + right. exists [], value, values, w, is_data.
      split; [reflexivity|]. split; [constructor|]. split; [exact Htok|].
      split; [reflexivity|]. rewrite for_fields_cons, Hh. reflexivity.
Qed.

Lemma for_fields_ok values is_data w :
  wf w -> tokens_ok values ->
  exists w' is_data', for_fields values is_data w = (w', inr is_data').
Proof.
  intros Hwf Hok.
  destruct (for_fields_wf values is_data w Hwf)
    as [[_ H] | (pre & bad & post & w' & d' & -> & _ & Hbad & _)]; [exact H|].
  exfalso. unfold tokens_ok in Hok. apply Forall_app in Hok as [_ Hok].
  inversion Hok; contradiction.
Qed.

(** ** The emission step in a well-formed window *)

Lemma indices_bounds n k : k ∈ indices n -> (1 <= k <= n)%Z.
Proof.
  unfold indices. rewrite list_elem_of_In, in_map_iff.
  intros (i & <- & Hi). apply in_seq in Hi. lia.
Qed.

Lemma indices_succ n : (0 <= n)%Z -> indices (n + 1) = indices n ++ [(n + 1)%Z].
Proof.
  intros Hn. unfold indices.
  replace (Z.to_nat (n + 1)) with (Z.to_nat n + 1) by lia.
  rewrite seq_app, map_app. cbn. do 2 f_equal. lia.
Qed.

Lemma emit_data_records w :
  wf w ->
  data_records (emit w)
  = data_records w ++ [((sample_count w + 1)%Z, length (store w))].
Proof.
  intros Hwf. unfold emit.
  replace (data_records _)
    with (dict_set (sample_count w + 1)%Z (length (store w)) (data_records w))
    by (destruct w; reflexivity).
  apply dict_set_fresh. rewrite (wf_keys _ Hwf).
  intros Hin. apply indices_bounds in Hin. lia.
Qed.

Lemma emit_store w : store (emit w) = store w ++ [current w].
Proof. destruct w; reflexivity. Qed.

Lemma emit_sample_count w : sample_count (emit w) = (sample_count w + 1)%Z.
Proof. destruct w; reflexivity. Qed.

Lemma emit_current_record w : current_record (emit w) = current_record w.
Proof. destruct w; reflexivity. Qed.

Lemma emit_flags w : ppg_updated (emit w) = false /\ acc_updated (emit w) = false.
Proof. destruct w; split; reflexivity. Qed.

Lemma emit_deref_old w a : a < length (store w) -> deref (emit w) a = deref w a.
Proof.
  intros Ha. unfold deref. rewrite emit_store, lookup_app_l by exact Ha.
  reflexivity.
Qed.

Lemma emit_deref_new w : deref (emit w) (length (store w)) = current w.
Proof.
  unfold deref. rewrite emit_store, lookup_app_r by lia.
  rewrite Nat.sub_diag. reflexivity.
Qed.

Lemma emit_current w : wf w -> current (emit w) = current w.
Proof.
  intros Hwf. unfold current. rewrite emit_current_record.
  apply emit_deref_old, (wf_current _ Hwf).
Qed.

Lemma wf_emit w : wf w -> wf (emit w).
Proof.
  intros Hwf. pose proof (emit_data_records w Hwf) as Hrec.
  pose proof (emit_current w Hwf) as Hcur.
  destruct Hwf. split.
  - destruct w; assumption.
  - destruct w; assumption.
  - destruct w; assumption.
  - destruct w; assumption.
  - rewrite emit_current_record, emit_store, length_app. cbn. lia.
  - rewrite emit_sample_count. lia.
  - rewrite Hrec, emit_sample_count, indices_succ by assumption.
    unfold dict_keys in *. rewrite map_app, wf_keys0. reflexivity.
  - rewrite Hrec, emit_current_record, emit_store, length_app.
    unfold dict_values in *. rewrite map_app. apply Forall_app. split.
    + eapply Forall_impl; [|exact wf_records0]. cbn. intros a [? ?]. split; [lia|assumption].
    + constructor; [|constructor]. cbn. lia.
  - rewrite Hcur. assumption.
  - rewrite Hrec. unfold dict_values in *. rewrite map_app. apply Forall_app. split.
    + apply Forall_forall. intros a Ha.
      rewrite Forall_forall in wf_records0, wf_record_channels0.
      rewrite emit_deref_old by (apply wf_records0, Ha). auto.
    + constructor; [|constructor]. cbn [List.map snd].
      rewrite emit_deref_new. assumption.
Qed.

(** ** One line in a well-formed window *)

Lemma wf_printed o w : wf w -> wf (printed o w).
Proof. intros Hwf. eapply wf_frame; [exact Hwf | apply session_frame_printed]. Qed.

Lemma decode_utf8_error data e : decode_utf8 data = inl e -> e = UnicodeDecodeError.
Proof. unfold decode_utf8. destruct (utf8 _); congruence. Qed.

(** In a well-formed window a line is always handled: no exception leaves
    [process_line]. *)
Lemma process_line_outcome data w :
  wf w ->
  exists w', process_line data w = (w', inr tt) /\ line_outcome data w w'.
Proof.
  intros Hwf. rewrite process_line_eq, line_body_eq.
  destruct (decode_utf8 data) as [e|decoded] eqn:Hd.
  - pose proof (decode_utf8_error _ _ Hd) as ->. cbn.
    eexists. split; [reflexivity|]. apply line_undecodable; [exact Hd | reflexivity].
  - cbn zeta.
    destruct (for_fields_wf (split comma (strip decoded)) (false, false)
                (printed (RawLine (strip decoded)) w) (wf_printed _ _ Hwf))
      as [[Hok (w1 & d & Hf)] | (pre & bad & post & w1 & d & Hs & Hok & Hbad & Hpre & Hf)].
    + rewrite Hf, store_record_eq.
      destruct (emits (raise_flags d w1)) eqn:He.
      * eexists. split; [reflexivity|]. eapply line_emitted; eauto.
      * eexists. split; [reflexivity|]. eapply line_kept; eauto.
    + rewrite Hf. cbn.
      eexists. split; [reflexivity|]. eapply line_not_numeric; eauto.
Qed.

Lemma raise_flags_ppg is_data w :
  ppg_updated (raise_flags is_data w) = fst is_data || ppg_updated w.
Proof. destruct is_data as [[] []], w; reflexivity. Qed.

Lemma raise_flags_acc is_data w :
  acc_updated (raise_flags is_data w) = snd is_data || acc_updated w.
Proof. destruct is_data as [[] []], w; reflexivity. Qed.

Lemma printed_flags o w :
  ppg_updated (printed o w) = ppg_updated w /\
  acc_updated (printed o w) = acc_updated w.
Proof. destruct w; split; reflexivity. Qed.

Lemma printed_current o w : current (printed o w) = current w.
Proof. destruct w; reflexivity. Qed.

Lemma raise_flags_current is_data w : current (raise_flags is_data w) = current w.
Proof. destruct is_data as [[] []], w; reflexivity. Qed.

(** The state the loop over [values] leaves, seen from the window before the
    line. *)
Lemma for_fields_session values is_data o w w1 r :
  for_fields values is_data (printed o w) = (w1, r) ->
  session_frame w w1 /\
  ppg_updated w1 = ppg_updated w /\ acc_updated w1 = acc_updated w.
Proof.
  intros Hf. pose proof (keeps_for_fields values is_data (printed o w)) as Hk.
  rewrite Hf in Hk. cbn [fst] in Hk.
  destruct (printed_flags o w) as [Hp Ha]. split; [|split].
  - eapply session_frame_trans; [apply session_frame_printed|].
    apply fields_session, Hk.
  - rewrite (ff_ppg_updated _ _ Hk). exact Hp.
  - rewrite (ff_acc_updated _ _ Hk). exact Ha.
Qed.

Lemma session_frame_line_session w w' :
  session_frame w w' ->
  (ppg_updated w = true -> ppg_updated w' = true) ->
  (acc_updated w = true -> acc_updated w' = true) ->
  line_session w w'.
Proof.
  intros [] Hp Ha. unfold line_session. repeat split; auto.
  left. repeat split; auto. apply lookup_ge_None_2. lia.
Qed.

Lemma line_outcome_session data w w' :
  wf w -> line_outcome data w w' -> wf w' /\ line_session w w'.
Proof.
  intros Hwf [Hd -> | decoded pre bad post w1 d Hd Hs Hok Hbad Hf ->
                 | decoded w1 d Hd Hok Hf He -> | decoded w1 d Hd Hok Hf He ->].
  - split; [apply wf_printed, Hwf|].
    destruct (printed_flags (ErrorParsingLine UnicodeDecodeError) w) as [Hp' Ha'].
    apply session_frame_line_session;
      [apply session_frame_printed | rewrite Hp'; auto | rewrite Ha'; auto].
  - destruct (for_fields_session _ _ _ _ _ _ Hf) as (Hsf & Hp & Ha).
    assert (Hsf' : session_frame w (printed (ErrorParsingLine ValueError) w1))
      by (eapply session_frame_trans; [exact Hsf | apply session_frame_printed]).
    split; [eapply wf_frame; eauto|].
    destruct (printed_flags (ErrorParsingLine ValueError) w1) as [Hp' Ha'].
    apply session_frame_line_session; [exact Hsf' | congruence | congruence].
  - destruct (for_fields_session _ _ _ _ _ _ Hf) as (Hsf & Hp & Ha).
    assert (Hsf' : session_frame w (raise_flags d w1))
      by (eapply session_frame_trans; [exact Hsf | apply session_frame_raise_flags]).
    split; [eapply wf_frame; eauto|].
    apply session_frame_line_session; [exact Hsf'| |].
    + rewrite raise_flags_ppg, Hp. intros ->. apply orb_true_r.
    + rewrite raise_flags_acc, Ha. intros ->. apply orb_true_r.
  - destruct (for_fields_session _ _ _ _ _ _ Hf) as (Hsf & Hp & Ha).
    set (w2 := raise_flags d w1) in *.
    assert (Hsf' : session_frame w w2)
      by (eapply session_frame_trans; [exact Hsf | apply session_frame_raise_flags]).
    assert (Hwf2 : wf w2) by (eapply wf_frame; eauto).
    split; [apply wf_emit, Hwf2|].
    destruct Hsf'. unfold line_session.
    rewrite emit_current_record, (emit_current _ Hwf2).
    split; [assumption|]. split; [|split; [assumption|]].
    + intros a Hne Hlt. rewrite emit_deref_old by lia. auto.
    + right. rewrite (emit_data_records _ Hwf2), emit_sample_count.
      rewrite sf_data_records0, sf_sample_count0, sf_store_length0.
      rewrite <- sf_store_length0, emit_deref_new.
      destruct (emit_flags w2) as [-> ->].
      unfold emits in He. apply andb_true_iff in He as [_ He].
      repeat split; assumption.
Qed.

(** Every line is handled, keeps the window well formed, and moves the session
    by at most one record. *)
Lemma process_line_wf data w :
  wf w ->
  exists w', process_line data w = (w', inr tt) /\ wf w' /\ line_session w w'.
Proof.
  intros Hwf. destruct (process_line_outcome data w Hwf) as (w' & Hp & Ho).
  exists w'. split; [exact Hp|]. eapply line_outcome_session; eauto.
Qed.

(** ** The other handlers *)

Lemma receive_serial_data_wf lines : forall w,
  wf w ->
  receive_serial_data lines w = (after_lines lines w, inr tt) /\
  wf (after_lines lines w).
Proof.
  induction lines as [|data lines IH]; intros w Hwf; cbn [receive_serial_data after_lines fold_left].
  - split; [reflexivity | exact Hwf].
  - destruct (process_line_wf data w Hwf) as (w1 & Hp & Hwf1 & _).
    unfold bind. rewrite Hp. cbn [fst]. apply IH, Hwf1.
Qed.

Lemma same_core_refl w : same_core w w.
Proof. split; reflexivity. Qed.

Lemma same_core_trans w1 w2 w3 :
  same_core w1 w2 -> same_core w2 w3 -> same_core w1 w3.
Proof. intros [] []. split; congruence. Qed.

Lemma same_core_deref w w' a : same_core w w' -> deref w' a = deref w a.
Proof. intros []. unfold deref. congruence. Qed.

Lemma wf_same_core w w' : wf w -> same_core w w' -> wf w'.
Proof.
  intros Hwf Hsc. pose proof (same_core_deref w w') as Hd.
  destruct Hwf, Hsc. unfold current in *.
  split; unfold current;
    rewrite ?sc_data_buffers0, ?sc_plot_data_items0, ?sc_buffer_sizes0,
      ?sc_buffer_capacity0, ?sc_data_records0, ?sc_current_record0,
      ?sc_sample_count0, ?sc_store0; try assumption.
  - rewrite Hd by (split; assumption). assumption.
  - eapply Forall_impl; [|exact wf_record_channels0]. cbn. intros a Ha.
    rewrite Hd by (split; assumption). exact Ha.
Qed.

Lemma core_kept_ret {A} (x : A) : core_kept (ret x).
Proof. intros w. apply same_core_refl. Qed.

Lemma core_kept_raise {A} e : core_kept (raise (A := A) e).
Proof. intros w. apply same_core_refl. Qed.

Lemma core_kept_gets {A} (f : window -> A) : core_kept (gets f).
Proof. intros w. apply same_core_refl. Qed.

Lemma core_kept_bind {A B} (m : M A) (k : A -> M B) :
  core_kept m -> (forall x, core_kept (k x)) -> core_kept (bind m k).
Proof.
  intros Hm Hk w. unfold bind. specialize (Hm w).
  destruct (m w) as [w' [e|x]]; cbn [fst] in *; [exact Hm|].
  eapply same_core_trans; [exact Hm | apply Hk].
Qed.

Lemma core_kept_try_except body handled handler :
  core_kept body -> (forall e, core_kept (handler e)) ->
  core_kept (try_except body handled handler).
Proof.
  intros Hb Hh w. unfold try_except. specialize (Hb w).
  destruct (body w) as [w' [e|[]]]; cbn [fst] in *; [|exact Hb].
  destruct (handled e); [|exact Hb].
  eapply same_core_trans; [exact Hb | apply Hh].
Qed.

Lemma core_kept_print o : core_kept (print o).
Proof. intros w. split; destruct w; reflexivity. Qed.

Lemma core_kept_message b : core_kept (message b).
Proof. intros w. split; destruct w; reflexivity. Qed.

Lemma core_kept_writerow filename fs r : core_kept (writerow filename fs r).
Proof.
  intros w. unfold writerow.
  destruct fs as [| |n kept]; [| |destruct (_ =? n)]; cbn [fst];
    split; destruct w; reflexivity.
Qed.

Lemma core_kept_open_w filename fs : core_kept (open_w filename fs).
Proof.
  intros w. unfold open_w.
  destruct fs; cbn [fst]; split; destruct w; reflexivity.
Qed.

Lemma core_kept_close_w filename fs : core_kept (close_w filename fs).
Proof.
  intros w. unfold close_w.
  destruct fs; cbn [fst]; split; destruct w; reflexivity.
Qed.

Lemma core_kept_record_row record names : core_kept (record_row record names).
Proof.
  induction names as [|name names IH]; cbn [record_row]; [apply core_kept_ret|].
  apply core_kept_bind.
  - intros w. unfold record_getitem. destruct (dict_get _ _); apply same_core_refl.
  - intros c. apply core_kept_bind; [exact IH | intros cs; apply core_kept_ret].
Qed.

Lemma core_kept_write_records filename fs records :
  core_kept (write_records filename fs records).
Proof.
  induction records as [|record records IH]; cbn [write_records];
    [apply core_kept_ret|].
  apply core_kept_bind; [apply core_kept_record_row | intros r].
  apply core_kept_bind; [apply core_kept_writerow | intros _; exact IH].
Qed.

(** [export_data] changes nothing of the window. *)
Lemma core_kept_export_data filename fs : core_kept (export_data filename fs).
Proof.
  unfold export_data.
  apply core_kept_bind; [apply core_kept_gets | intros n].
  destruct (0 <? n); [|apply core_kept_message].
  destruct (bool_decide _); [|apply core_kept_message].
  apply core_kept_try_except.
  - apply core_kept_bind; [apply core_kept_open_w | intros _].
    apply core_kept_bind; [apply core_kept_writerow | intros _].
    apply core_kept_bind; [apply core_kept_gets | intros records].
    apply core_kept_bind; [apply core_kept_write_records | intros _].
    apply core_kept_bind; [apply core_kept_close_w | intros _].
    apply core_kept_message.
  - intros e. apply core_kept_bind; [apply core_kept_print | intros _].
    apply core_kept_message.
Qed.

Lemma has_channels_initial : has_channels initial_record.
Proof.
  unfold has_channels, channels. repeat (constructor; [vm_compute; eauto|]).
  constructor.
Qed.

Lemma wf_init : wf SerialPlotterWindow_init.
Proof.
  split.
  - constructor.
  - reflexivity.
  - cbn. lia.
  - cbn. repeat (constructor; [apply Nat.ltb_lt; vm_compute; reflexivity|]).
    constructor.
  - cbn. lia.
  - cbn. lia.
  - reflexivity.
  - constructor.
  - exact has_channels_initial.
  - constructor.
Qed.

Lemma wf_add_graph w : wf w -> wf (fst (add_graph w)).
Proof.
  intros Hwf. pose proof (cb_wf_init _ (wf_capacity _ Hwf)) as Hcb.
  destruct Hwf. destruct w. unfold current, deref in *. cbn in *.
  split; unfold current, deref; cbn; try assumption.
  - apply Forall_app. split; [assumption|]. repeat constructor; apply Hcb.
  - rewrite !length_app. cbn. lia.
Qed.

Lemma Forall_map_const {A B} (P : B -> Prop) (c : B) (l : list A) :
  P c -> Forall P (List.map (fun _ => c) l).
Proof. intros Hc. induction l; cbn; constructor; assumption. Qed.

Lemma getitem_In {A} (l : list A) i x : getitem l i = inr x -> x ∈ l.
Proof.
  unfold getitem. destruct (_ <? 0)%Z; [discriminate|].
  destruct (l !! _) as [y|] eqn:Hl; [|discriminate].
  intros [= <-]. eapply list_elem_of_lookup_2, Hl.
Qed.

(** [change_buffer_size] either raises IndexError and changes nothing, or
    installs new buffers of the selected capacity. *)
Lemma change_buffer_size_eq index w :
  change_buffer_size index w =
  match getitem (buffer_sizes w) index with
  | inl e => (w, inl e)
  | inr cap =>
      (set_data_buffers
         (List.map (fun _ => CircularBuffer_init cap)
            (seq 0 (length (data_buffers w))))
         (set_buffer_capacity cap w), inr tt)
  end.
Proof.
  unfold change_buffer_size, bind, gets, lift, modify.
  destruct (getitem (buffer_sizes w) index); [reflexivity|].
  destruct w; reflexivity.
Qed.

Lemma wf_change_buffer_size index w : wf w -> wf (fst (change_buffer_size index w)).
Proof.
  intros Hwf. rewrite change_buffer_size_eq.
  destruct (getitem (buffer_sizes w) index) as [e|cap] eqn:Hg; [exact Hwf|].
  assert (Hcap : 0 < cap).
  { apply getitem_In in Hg. pose proof (wf_sizes _ Hwf) as Hs.
    rewrite Forall_forall in Hs. apply Hs, list_elem_of_In, Hg. }
  destruct Hwf. destruct w. unfold current, deref in *. cbn in *.
  split; unfold current, deref; cbn; try assumption.
  - apply Forall_map_const, cb_wf_init, Hcap.
  - rewrite length_map, length_seq. assumption.
Qed.

Lemma wf_handle ev w : wf w -> wf (fst (handle ev w)).
Proof.
  intros Hwf. destruct ev as [|lines|filename fs|index]; cbn [handle].
  - apply wf_add_graph, Hwf.
  - destruct (receive_serial_data_wf lines w Hwf) as [-> Hwf']. exact Hwf'.
  - eapply wf_same_core; [exact Hwf | apply core_kept_export_data].
  - apply wf_change_buffer_size, Hwf.
Qed.

(** Every reachable window is well formed. *)
Lemma reachable_wf w : reachable w -> wf w.
Proof. induction 1; [apply wf_init | apply wf_handle; assumption]. Qed.

(** ** What the readings of a line do *)

Lemma readings_of_cons value values :
  readings_of (value :: values) =
  match token_of value with
  | Reading name x => (name, x) :: readings_of values
  | _ => readings_of values
  end.
Proof. reflexivity. Qed.

Lemma routed_route name x w w' :
  routed name x w w' -> data_buffers w' = route (name, x) (data_buffers w).
Proof.
  unfold routed, route. cbn [fst snd].
  destruct (dict_get name sensor_map) as [i|]; [|tauto].
  destruct (data_buffers w !! i) as [b|]; [|tauto].
  intros (b' & -> & -> & _). reflexivity.
Qed.

(** When no piece is malformed the loop applies the readings one after the
    other and raises nothing. *)
Lemma for_fields_readings values : forall is_data w,
  wf w -> tokens_ok values ->
  exists w',
    for_fields values is_data w = (w', inr (marks (readings_of values) is_data)) /\
    fields_frame w w' /\ wf w' /\
    current w' = record_after (readings_of values) (current w) /\
    data_buffers w' = buffers_after (readings_of values) (data_buffers w).
Proof.
  induction values as [|value values IH]; intros is_data w Hwf Hok.
  - exists w. split; [reflexivity|]. split; [apply fields_frame_refl|].
    split; [exact Hwf|]. split; reflexivity.
  - inversion Hok as [|? ? Hv Hok']; subst.
    pose proof (handle_field_eq value is_data w) as Hh.
    pose proof (token_of_second_part value) as Hsp.
    rewrite for_fields_cons, readings_of_cons.
    destruct (token_of value) as [|name x| |] eqn:Htok; try contradiction.
    + rewrite Hh. apply IH; assumption.
    + destruct (apply_reading_wf name x is_data w Hwf) as (w1 & Ha & Hff & Hwf1 & Hcur & Hr).
      rewrite Hh, Ha.
      destruct (IH (mark name is_data) w1 Hwf1 Hok') as (w' & Hf & Hff' & Hwf' & Hcur' & Hb').
      exists w'. split; [exact Hf|]. split; [eapply fields_frame_trans; eauto|].
      split; [exact Hwf'|]. split.
      * rewrite Hcur', Hcur. reflexivity.
      * rewrite Hb', (routed_route _ _ _ _ Hr). reflexivity.
Qed.

End WindowFacts.

(** * The claims *)

Lemma map_const_seq {A} (c : A) n k :
  List.map (fun _ : nat => c) (seq k n) = repeat c n.
Proof.
  revert k. induction n as [|n IH]; intros k; cbn; [reflexivity|].
  f_equal. apply IH.
Qed.

(** C7. Whatever the buffers hold, a capacity change that selects an entry of
    [buffer_sizes] replaces every buffer by a new, empty one of the selected
    capacity (cursor 0, not wrapped, [get_data] empty, nothing carried over)
    and leaves the session store, its records and the sample count as they
    were. *)
Theorem change_buffer_size_resets {F : FloatOps} (w : window) (selected : Z)
    (cap : nat) :
  getitem (buffer_sizes w) selected = inr cap ->
  let w' := fst (change_buffer_size selected w) in
  change_buffer_size selected w = (w', inr tt) /\
  buffer_capacity w' = cap /\
  data_buffers w' = repeat (CircularBuffer_init cap) (length (data_buffers w)) /\
  Forall (fun b => capacity b = cap /\ index b = 0 /\ full b = false /\
                   buffer b = repeat fzero cap /\ get_data b = [])
    (data_buffers w') /\
  data_records w' = data_records w /\
  store w' = store w /\
  sample_count w' = sample_count w.
Proof.
  intros Hg. cbn zeta. rewrite change_buffer_size_eq, Hg. cbn [fst].
  rewrite map_const_seq.
  split; [reflexivity|]. split; [destruct w; reflexivity|].
  split; [destruct w; reflexivity|]. split.
  - replace (data_buffers _)
      with (repeat (CircularBuffer_init cap) (length (data_buffers w)))
      by (destruct w; reflexivity).
    apply Forall_forall. intros b Hb. apply repeat_spec in Hb.
    subst b. repeat split; reflexivity.
  - repeat split; destruct w; reflexivity.
Qed.

(** Seven graphs that have received a line; the third size is selected. *)
Lemma change_buffer_size_resets_witness :
  let w := fst (process_line (F := IntegerFloat) (bytes "C:1,X:2") main_window) in
  let w' := fst (change_buffer_size 2 w) in
  getitem (buffer_sizes w) 2 = inr 5000 /\
  change_buffer_size 2 w = (w', inr tt) /\
  buffer_capacity w' = 5000 /\
  data_buffers w' = repeat (CircularBuffer_init 5000) (length (data_buffers w)) /\
  Forall (fun b => capacity b = 5000 /\ index b = 0 /\ full b = false /\
                   buffer b = repeat fzero 5000 /\ get_data b = [])
    (data_buffers w') /\
  data_records w' = data_records w /\
  store w' = store w /\
  sample_count w' = sample_count w.
Proof.
  intros w w'.
  assert (Hg : getitem (buffer_sizes w) 2 = inr 5000) by (vm_compute; reflexivity).
  split; [exact Hg|].
  exact (change_buffer_size_resets w 2 5000 Hg).
Defined.

(** C8. An export requested while the session store is empty shows the
    warning that there is no data, writes no file and leaves the window,
    its session store included, unchanged. *)
Theorem export_empty_reports_error {F : FloatOps} (w : window)
    (filename : pystr) (fs : io) :
  data_records w = [] ->
  let w' := fst (export_data filename fs w) in
  export_data filename fs w = (w', inr tt) /\
  dialogs w' = dialogs w ++ [NoDataToExport] /\
  files w' = files w /\
  stdout w' = stdout w /\
  data_records w' = [] /\
  same_core w w'.
Proof.
  intros He. cbn zeta. unfold export_data, bind, gets.
  rewrite He. cbn [length Nat.ltb Nat.leb]. unfold message, modify. cbn [fst].
  split; [reflexivity|]. split; [destruct w; reflexivity|].
  split; [destruct w; reflexivity|]. split; [destruct w; reflexivity|].
  split; [rewrite <- He; destruct w; reflexivity|].
  split; destruct w; reflexivity.
Qed.

(** The window of the main program before any line has arrived. *)
Lemma export_empty_reports_error_witness :
  let w := main_window (F := IntegerFloat) in
  let w' := fst (export_data (str "out.csv") IoOk w) in
  data_records w = [] /\
  export_data (str "out.csv") IoOk w = (w', inr tt) /\
  dialogs w' = dialogs w ++ [NoDataToExport] /\
  files w' = files w /\
  stdout w' = stdout w /\
  data_records w' = [] /\
  same_core w w'.
Proof.
  intros w w'.
  assert (He : data_records w = []) by reflexivity.
  split; [exact He|].
  exact (export_empty_reports_error w (str "out.csv") IoOk He).
Defined.

Section SessionFacts.
Context {F : FloatOps}.

Lemma session_extends_trans w1 w2 w3 new1 new2 :
  session_extends w1 w2 new1 -> session_extends w2 w3 new2 ->
  session_extends w1 w3 (new1 ++ new2).
Proof.
  intros [Hr1 Hd1] [Hr2 Hd2]. split.
  - rewrite Hr2, Hr1, app_assoc. reflexivity.
  - intros k a Hin. rewrite (Hd2 k a), (Hd1 k a); [reflexivity|exact Hin|].
    rewrite Hr1. apply elem_of_app. left. exact Hin.
Qed.

Lemma stored_address w k a :
  wf w -> (k, a) ∈ data_records w ->
  a < length (store w) /\ a <> current_record w.
Proof.
  intros Hwf Hin. pose proof (wf_records _ Hwf) as Hr.
  rewrite Forall_forall in Hr. apply Hr.
  unfold dict_values. apply in_map_iff. exists (k, a).
  split; [reflexivity|]. apply list_elem_of_In, Hin.
Qed.

Lemma line_session_extends w w' :
  wf w -> line_session w w' ->
  exists new, session_extends w w' new /\ length new <= 1.
Proof.
  intros Hwf (Hcur & Hold & _ & Hcase).
  assert (Hd : forall k a, (k, a) ∈ data_records w -> deref w' a = deref w a).
  { intros k a Hin. destruct (stored_address w k a Hwf Hin). apply Hold; assumption. }
  destruct Hcase as [(Hr & _) | (Hr & _)].
  - exists []. split; [split; [rewrite Hr, app_nil_r; reflexivity | exact Hd]|].
    cbn. lia.
  - eexists. split; [split; [exact Hr | exact Hd]|]. cbn. lia.
Qed.

Lemma after_lines_extends lines : forall w,
  wf w ->
  exists new, session_extends w (after_lines lines w) new /\
              length new <= length lines.
Proof.
  induction lines as [|data lines IH]; intros w Hwf; cbn [after_lines fold_left].
  - exists []. split; [split; [rewrite app_nil_r; reflexivity | reflexivity]|].
    cbn. lia.
  - destruct (process_line_wf data w Hwf) as (w1 & Hp & Hwf1 & Hs).
    rewrite Hp. cbn [fst].
    destruct (line_session_extends w w1 Hwf Hs) as (new1 & He1 & Hl1).
    destruct (IH w1 Hwf1) as (new2 & He2 & Hl2).
    exists (new1 ++ new2). split; [eapply session_extends_trans; eauto|].
    rewrite length_app. cbn [length]. lia.
Qed.

Lemma handle_extends ev w :
  wf w -> exists new, session_extends w (fst (handle ev w)) new.
Proof.
  intros Hwf. destruct ev as [|lines|filename fs|selected]; cbn [handle].
  - exists []. split; [destruct w; cbn; rewrite app_nil_r; reflexivity|].
    intros k a _. destruct w; reflexivity.
  - destruct (receive_serial_data_wf lines w Hwf) as [-> _]. cbn [fst].
    destruct (after_lines_extends lines w Hwf) as (new & He & _). eauto.
  - pose proof (core_kept_export_data filename fs w) as Hsc.
    exists []. split; [rewrite app_nil_r; apply Hsc|].
    intros k a _. apply same_core_deref, Hsc.
  - rewrite change_buffer_size_eq.
    destruct (getitem (buffer_sizes w) selected); cbn [fst];
      (exists []; split; [destruct w; cbn; rewrite app_nil_r; reflexivity|];
       intros k a _; destruct w; reflexivity).
Qed.

Lemma reachable_run evs : forall w, reachable w -> reachable (run evs w).
Proof.
  induction evs as [|ev evs IH]; intros w Hw; [exact Hw|].
  apply IH. apply reachable_step, Hw.
Qed.

Lemma run_wf evs : wf (run evs SerialPlotterWindow_init).
Proof. apply reachable_wf, reachable_run, reachable_init. Qed.

Lemma indices_lookup n i k : indices n !! i = Some k -> k = (Z.of_nat i + 1)%Z.
Proof.
  unfold indices. intros Hl. apply list_lookup_fmap_Some in Hl as (j & -> & Hj).
  apply lookup_seq in Hj as [-> _]. lia.
Qed.

Lemma length_indices n : length (indices n) = Z.to_nat n.
Proof. unfold indices. rewrite length_map, length_seq. reflexivity. Qed.

Lemma wf_sample_count w :
  wf w -> sample_count w = Z.of_nat (length (data_records w)).
Proof.
  intros Hwf. pose proof (wf_keys _ Hwf) as Hk. pose proof (wf_count _ Hwf).
  apply (f_equal length) in Hk. unfold dict_keys in Hk.
  rewrite length_map, length_indices in Hk. lia.
Qed.

Lemma wf_record_index w i k a :
  wf w -> data_records w !! i = Some (k, a) -> k = (Z.of_nat i + 1)%Z.
Proof.
  intros Hwf Hl. apply (indices_lookup (sample_count w)).
  rewrite <- (wf_keys _ Hwf). unfold dict_keys.
  change (List.map fst (data_records w)) with (fst <$> data_records w).
  rewrite list_lookup_fmap, Hl. reflexivity.
Qed.

End SessionFacts.

(** C4. After any events and any further lines: the records of the session
    store carry the indices 1, 2, 3, ... in this order, without gap or reuse;
    the lines only append to the store, at most one record per line, so
    records are in the order of the lines that triggered them; and neither
    lines nor any other event change the content of a record once it is
    stored. *)
Theorem session_store_append_only {F : FloatOps} (evs : list event)
    (lines : list (list byte)) (ev : event) :
  let w := run evs SerialPlotterWindow_init in
  let w' := after_lines lines w in
  receive_serial_data lines w = (w', inr tt) /\
  (forall i k a, data_records w' !! i = Some (k, a) -> k = (Z.of_nat i + 1)%Z) /\
  sample_count w' = Z.of_nat (length (data_records w')) /\
  (exists new, data_records w' = data_records w ++ new /\
               length new <= length lines /\
               forall k a, (k, a) ∈ data_records w -> deref w' a = deref w a) /\
  (exists new, data_records (fst (handle ev w)) = data_records w ++ new /\
               forall k a, (k, a) ∈ data_records w ->
                           deref (fst (handle ev w)) a = deref w a).
Proof.
  intros w w'. pose proof (run_wf evs) as Hwf. fold w in Hwf.
  destruct (receive_serial_data_wf lines w Hwf) as [Hr Hwf'].
  split; [exact Hr|]. split; [|split; [|split]].
  - intros i k a. apply wf_record_index, Hwf'.
  - apply wf_sample_count, Hwf'.
  - destruct (after_lines_extends lines w Hwf) as (new & [He Hd] & Hl). eauto.
  - destruct (handle_extends ev w Hwf) as (new & [He Hd]). eauto.
Qed.

Lemma zero_blocks_line {F : FloatOps} (w : window) (data : list byte) :
  wf w ->
  has_zero (current (fst (process_line data w))) = true ->
  emission_blocked w (fst (process_line data w)).
Proof.
  intros Hwf Hz. destruct (process_line_wf data w Hwf) as (w' & Hp & _ & Hs).
  rewrite Hp in *. cbn [fst] in *.
  destruct Hs as (_ & _ & _ & [(Hr & Hc & _ & Hppg & Hacc) | (_ & _ & _ & Hnz & _)]).
  - unfold emission_blocked. auto.
  - unfold has_zero in Hz. rewrite Hnz in Hz. discriminate.
Qed.

Lemma zero_blocks_lines {F : FloatOps} (lines : list (list byte)) :
  forall w, wf w ->
  (forall n, 0 < n <= length lines ->
             has_zero (current (after_lines (take n lines) w)) = true) ->
  emission_blocked w (after_lines lines w).
Proof.
  induction lines as [|data lines IH]; intros w Hwf Hz.
  - unfold emission_blocked. cbn. auto.
  - change (after_lines (data :: lines) w)
      with (after_lines lines (fst (process_line data w))).
    assert (H1 : emission_blocked w (fst (process_line data w))).
    { apply zero_blocks_line; [exact Hwf|].
      apply (Hz 1). cbn [length]. lia. }
    assert (Hwf1 : wf (fst (process_line data w))).
    { destruct (process_line_wf data w Hwf) as (w1 & -> & Hwf1 & _). exact Hwf1. }
    assert (H2 : emission_blocked (fst (process_line data w))
                   (after_lines lines (fst (process_line data w)))).
    { apply IH; [exact Hwf1|]. intros n Hn.
      apply (Hz (S n)). cbn [length]. lia. }
    destruct H1 as (Hr1 & Hc1 & Hp1 & Ha1), H2 as (Hr2 & Hc2 & Hp2 & Ha2).
    unfold emission_blocked.
    split; [rewrite Hr2; exact Hr1|]. split; [rewrite Hc2; exact Hc1|].
    split; auto.
Qed.

Section MalformedLines.
Context {F : FloatOps}.

Lemma first_malformed_Some values pre bad post :
  first_malformed values = Some (pre, bad, post) ->
  values = pre ++ bad :: post /\ tokens_ok pre /\ token_of bad = NotNumeric.
Proof.
  revert pre. induction values as [|value values IH]; intros pre; cbn; [discriminate|].
  destruct (token_of value) eqn:Htok;
    try (destruct (first_malformed values) as [[[pre' bad'] post']|]; [|discriminate];
         intros [= <- <- <-]; destruct (IH pre' eq_refl) as (-> & Hok & Hbad);
         split; [reflexivity|]; split; [constructor; [congruence | exact Hok] | exact Hbad]).
  intros [= <- <- <-]. split; [reflexivity|]. split; [constructor | exact Htok].
Qed.

Lemma record_after_last readings name x d :
  list.last readings = Some (name, x) ->
  dict_get name (record_after readings d) = Some (PyFloat x).
Proof.
  intros Hl. apply last_Some in Hl as [l' ->].
  unfold record_after. rewrite fold_left_app. cbn. apply dict_get_set_eq.
Qed.

(** A line whose first malformed piece is [bad]: the pieces before it are
    applied, then the error is printed; nothing else happens. *)
Lemma process_line_not_numeric data decoded pre bad post w :
  wf w ->
  decode_utf8 data = inr decoded ->
  split comma (strip decoded) = pre ++ bad :: post ->
  tokens_ok pre ->
  token_of bad = NotNumeric ->
  exists w1,
    for_fields pre (false, false) (printed (RawLine (strip decoded)) w)
      = (w1, inr (marks (readings_of pre) (false, false))) /\
    fields_frame (printed (RawLine (strip decoded)) w) w1 /\
    current w1 = record_after (readings_of pre) (current w) /\
    data_buffers w1 = buffers_after (readings_of pre) (data_buffers w) /\
    process_line data w = (printed (ErrorParsingLine ValueError) w1, inr tt).
Proof.
  intros Hwf Hd Hs Hok Hbad.
  destruct (for_fields_readings pre (false, false) _
              (wf_printed (RawLine (strip decoded)) w Hwf) Hok)
    as (w1 & Hf & Hff & Hwf1 & Hcur & Hb).
  exists w1. split; [exact Hf|]. split; [exact Hff|].
  split; [rewrite Hcur, printed_current; reflexivity|].
  split; [rewrite Hb; destruct w; reflexivity|].
  rewrite process_line_eq, line_body_eq, Hd. cbn zeta.
  rewrite Hs, for_fields_app, Hf, for_fields_cons, handle_field_eq, Hbad.
  reflexivity.
Qed.

End MalformedLines.

Section RoutingFacts.
Context {F : FloatOps}.

Lemma route_length r (bs : list CircularBuffer) : length (route r bs) = length bs.
Proof.
  unfold route. destruct (dict_get _ sensor_map) as [i|]; [|reflexivity].
  destruct (bs !! i); [apply length_insert | reflexivity].
Qed.

Lemma route_wf r (bs : list CircularBuffer) :
  Forall cb_wf bs -> Forall cb_wf (route r bs).
Proof.
  intros Hwf. unfold route. destruct (dict_get _ sensor_map) as [i|]; [|exact Hwf].
  destruct (bs !! i) as [b|] eqn:Hb; [|exact Hwf].
  apply Forall_insert; [exact Hwf|].
  assert (Hwfb : cb_wf b) by (eapply Forall_lookup_1; eauto).
  destruct (push_wf r.2 b Hwfb) as (b' & -> & Hwf' & _). exact Hwf'.
Qed.

Lemma buffers_after_wf readings : forall bs : list CircularBuffer,
  Forall cb_wf bs ->
  Forall cb_wf (buffers_after readings bs) /\
  length (buffers_after readings bs) = length bs.
Proof.
  induction readings as [|r readings IH]; intros bs Hwf; cbn; [auto|].
  destruct (IH (route r bs) (route_wf r bs Hwf)) as [Hw Hl].
  split; [exact Hw|]. rewrite <- (route_length r bs). exact Hl.
Qed.

(** The last reading of a sequence is the newest value of its buffer. *)
Lemma buffers_after_last readings name x i (bs : list CircularBuffer) :
  Forall cb_wf bs ->
  list.last readings = Some (name, x) ->
  dict_get name sensor_map = Some i ->
  i < length bs ->
  exists b, buffers_after readings bs !! i = Some b /\
            list.last (get_data b) = Some x.
Proof.
  intros Hwf Hl Hm Hi. apply last_Some in Hl as [l' ->].
  unfold buffers_after. rewrite fold_left_app. cbn [fold_left].
  fold (buffers_after l' bs).
  destruct (buffers_after_wf l' bs Hwf) as [Hwf' Hlen].
  unfold route. cbn [fst snd]. rewrite Hm.
  destruct (lookup_lt_is_Some_2 (buffers_after l' bs) i) as [b Hb]; [lia|].
  rewrite Hb.
  assert (Hwfb : cb_wf b) by (eapply Forall_lookup_1; eauto).
  destruct (push_wf x b Hwfb) as (b' & Hp & _ & _ & Hlast).
  exists b'. rewrite Hp. cbn [fst].
  split; [apply list_lookup_insert_eq; lia | exact Hlast].
Qed.

End RoutingFacts.

(** C9. In every reachable window, when a piece whose value is no number
    follows well-formed pieces, the line leaves both flags exactly as they
    were and stores no record, although the readings before the malformed
    piece are by then in the current record and in their buffers: the last
    of them is the value under its name and the newest value of its
    buffer. *)
Theorem malformed_after_fields_keeps_flags {F : FloatOps} (w : window)
    (data : list byte) (decoded : pystr) (pre : list pystr) (bad : pystr)
    (post : list pystr) (name : pystr) (x : float) :
  reachable w ->
  decode_utf8 data = inr decoded ->
  split comma (strip decoded) = pre ++ bad :: post ->
  tokens_ok pre ->
  token_of bad = NotNumeric ->
  list.last (readings_of pre) = Some (name, x) ->
  let w' := fst (process_line data w) in
  process_line data w = (w', inr tt) /\
  ppg_updated w' = ppg_updated w /\
  acc_updated w' = acc_updated w /\
  data_records w' = data_records w /\
  sample_count w' = sample_count w /\
  current w' = record_after (readings_of pre) (current w) /\
  data_buffers w' = buffers_after (readings_of pre) (data_buffers w) /\
  dict_get name (current w') = Some (PyFloat x) /\
  (forall i, dict_get name sensor_map = Some i -> i < length (data_buffers w) ->
     exists b, data_buffers w' !! i = Some b /\ list.last (get_data b) = Some x).
Proof.
  intros Hw Hd Hs Hok Hbad Hlast. apply reachable_wf in Hw.
  destruct (process_line_not_numeric data decoded pre bad post w Hw Hd Hs Hok Hbad)
    as (w1 & Hf & Hff & Hcur & Hb & Hp).
  cbn zeta. rewrite Hp. cbn [fst].
  set (o := ErrorParsingLine ValueError).
  destruct (printed_flags o w1) as [Hp1 Ha1].
  destruct (printed_flags (RawLine (strip decoded)) w) as [Hp0 Ha0].
  assert (Hcur' : current (printed o w1) = record_after (readings_of pre) (current w))
    by (rewrite printed_current; exact Hcur).
  assert (Hb' : data_buffers (printed o w1)
                = buffers_after (readings_of pre) (data_buffers w))
    by (rewrite <- Hb; destruct w1; reflexivity).
  split; [reflexivity|].
  split; [rewrite Hp1, (ff_ppg_updated _ _ Hff); exact Hp0|].
  split; [rewrite Ha1, (ff_acc_updated _ _ Hff); exact Ha0|].
  split.
  { transitivity (data_records w1); [destruct w1; reflexivity|].
    rewrite (ff_data_records _ _ Hff). destruct w; reflexivity. }
  split.
  { transitivity (sample_count w1); [destruct w1; reflexivity|].
    rewrite (ff_sample_count _ _ Hff). destruct w; reflexivity. }
  split; [exact Hcur'|]. split; [exact Hb'|]. split.
  - rewrite Hcur'. apply record_after_last, Hlast.
  - intros i Hm Hi. rewrite Hb'.
    eapply buffers_after_last; eauto. apply (wf_buffers _ Hw).
Qed.

(** The line [C:5,R:abc] in the window of the main program. *)
Lemma malformed_after_fields_keeps_flags_witness :
  let w := main_window (F := IntegerFloat) in
  let data := bytes "C:5,R:abc" in
  let w' := fst (process_line data w) in
  reachable w /\
  process_line data w = (w', inr tt) /\
  ppg_updated w' = ppg_updated w /\
  acc_updated w' = acc_updated w /\
  data_records w' = data_records w /\
  sample_count w' = sample_count w /\
  current w' = record_after [(str "C", num 5)] (current w) /\
  data_buffers w' = buffers_after [(str "C", num 5)] (data_buffers w) /\
  dict_get (str "C") (current w') = Some (PyFloat (num 5)) /\
  (forall i, dict_get (str "C") sensor_map = Some i -> i < length (data_buffers w) ->
     exists b, data_buffers w' !! i = Some b /\
               list.last (get_data b) = Some (num 5)).
Proof.
  intros w data w'.
  assert (Hw : reachable w) by apply reachable_run, reachable_init.
  split; [exact Hw|].
  refine (malformed_after_fields_keeps_flags w data (str "C:5,R:abc")
            [str "C:5"] (str "R:abc") [] (str "C") (num 5) Hw _ _ _ _ _).
  - vm_compute. reflexivity.
  - vm_compute. reflexivity.
  - constructor; [vm_compute; discriminate | constructor].
  - vm_compute. reflexivity.
  - vm_compute. reflexivity.
Defined.

(** C2, as stated, fails: in the window of the main program the malformed
    line [C:5,R:abc] is not discarded as a whole, since the reading [C:5]
    that precedes the malformed piece is applied. *)
Lemma malformed_line_not_discarded :
  let w := main_window (F := IntegerFloat) in
  let data := bytes "C:5,R:abc" in
  reachable w /\ malformed_line (F := IntegerFloat) data = true /\
  dict_get (str "C") (current (fst (process_line data w))) = Some (PyFloat (num 5)) /\
  ~ line_discarded w data.
Proof.
  intros w data.
  split; [apply reachable_run, reachable_init|].
  split; [vm_compute; reflexivity|].
  split; [vm_compute; reflexivity|].
  intros [Hc _]. vm_compute in Hc. discriminate Hc.
Qed.

(** C2, amended. In every reachable window a malformed line (one that cannot
    be decoded, or that has a piece with a colon whose value is no number)
    raises nothing out of [process_line], has its error printed and is
    followed by the next line; it stores no record; of its pieces, those
    before the first malformed one are applied to the current record and to
    the buffers, the others are not (none at all when the line cannot be
    decoded). *)
Theorem malformed_line_drops_rest {F : FloatOps} (w : window)
    (data : list byte) (rest : list (list byte)) :
  reachable w ->
  malformed_line data = true ->
  let w' := fst (process_line data w) in
  process_line data w = (w', inr tt) /\
  receive_serial_data (data :: rest) w = receive_serial_data rest w' /\
  stdout w' = stdout w ++ error_report data /\
  data_records w' = data_records w /\
  sample_count w' = sample_count w /\
  current w' = record_after (readings_of (applied_fields data)) (current w) /\
  data_buffers w'
    = buffers_after (readings_of (applied_fields data)) (data_buffers w).
Proof.
  intros Hw Hm. apply reachable_wf in Hw. cbn zeta.
  assert (Hnext : forall w1, process_line data w = (w1, inr tt) ->
            receive_serial_data (data :: rest) w = receive_serial_data rest w1).
  { intros w1 Hp. cbn [receive_serial_data]. unfold bind. rewrite Hp. reflexivity. }
  unfold malformed_line, applied_fields, error_report in *.
  destruct (decode_utf8 data) as [e|decoded] eqn:Hd.
  - pose proof (decode_utf8_error _ _ Hd) as ->.
    assert (Hp : process_line data w
                 = (printed (ErrorParsingLine UnicodeDecodeError) w, inr tt)).
    { rewrite process_line_eq, line_body_eq, Hd. reflexivity. }
    rewrite (Hnext _ Hp), Hp. cbn [fst].
    repeat split; destruct w; reflexivity.
  - destruct (first_malformed (split comma (strip decoded)))
      as [[[pre bad] post]|] eqn:Hfm; [|discriminate].
    apply first_malformed_Some in Hfm as (Hs & Hok & Hbad).
    destruct (process_line_not_numeric data decoded pre bad post w Hw Hd Hs Hok Hbad)
      as (w1 & Hf & Hff & Hcur & Hb & Hp).
    rewrite (Hnext _ Hp), Hp. cbn [fst].
    set (o := ErrorParsingLine ValueError).
    split; [reflexivity|]. split; [reflexivity|]. split.
    { transitivity (stdout w1 ++ [o]); [destruct w1; reflexivity|].
      rewrite (ff_stdout _ _ Hff).
      replace (stdout (printed (RawLine (strip decoded)) w))
        with (stdout w ++ [RawLine (strip decoded)]) by (destruct w; reflexivity).
      rewrite <- app_assoc. reflexivity. }
    split.
    { transitivity (data_records w1); [destruct w1; reflexivity|].
      rewrite (ff_data_records _ _ Hff). destruct w; reflexivity. }
    split.
    { transitivity (sample_count w1); [destruct w1; reflexivity|].
      rewrite (ff_sample_count _ _ Hff). destruct w; reflexivity. }
    split.
    + rewrite printed_current. exact Hcur.
    + rewrite <- Hb. destruct w1; reflexivity.
Qed.

(** The line [C:5,R:abc,G:7] followed by a good line: [C:5] is applied,
    [G:7] is not. *)
Lemma malformed_line_drops_rest_witness :
  let w := main_window (F := IntegerFloat) in
  let data := bytes "C:5,R:abc,G:7" in
  let rest := [bytes "X:1,Y:2,Z:3"] in
  let w' := fst (process_line data w) in
  reachable w /\ malformed_line (F := IntegerFloat) data = true /\
  process_line data w = (w', inr tt) /\
  receive_serial_data (data :: rest) w = receive_serial_data rest w' /\
  stdout w' = stdout w ++ error_report data /\
  data_records w' = data_records w /\
  sample_count w' = sample_count w /\
  current w' = record_after (readings_of (applied_fields (F := IntegerFloat) data)) (current w) /\
  data_buffers w'
    = buffers_after (readings_of (applied_fields (F := IntegerFloat) data))
        (data_buffers w).
Proof.
  intros w data rest w'.
  assert (Hw : reachable w) by apply reachable_run, reachable_init.
  assert (Hm : malformed_line (F := IntegerFloat) data = true)
    by (vm_compute; reflexivity).
  split; [exact Hw|]. split; [exact Hm|].
  exact (malformed_line_drops_rest w data rest Hw Hm).
Defined.

Section ExportFacts.
Context {F : FloatOps}.

Lemma dict_set_set {K V} `{EqDecision K} (k : K) (v1 v2 : V) d :
  dict_set k v2 (dict_set k v1 d) = dict_set k v2 d.
Proof.
  induction d as [|[k' v'] d IH]; cbn.
  - destruct (decide (k = k)); [reflexivity | contradiction].
  - destruct (decide (k = k')) as [->|Hne]; cbn.
    + destruct (decide (k' = k')); [reflexivity | contradiction].
    + destruct (decide (k = k')); [contradiction|]. f_equal. exact IH.
Qed.

Lemma record_row_ok record names w :
  Forall (fun name => is_Some (dict_get name (deref w record))) names ->
  exists r, record_row record names w = (w, inr r) /\
    Forall2 (fun name c => exists v, dict_get name (deref w record) = Some v /\
                                     c = CellVal v) names r.
Proof.
  induction names as [|name names IH]; intros Hn; cbn [record_row].
  - exists []. split; [reflexivity | constructor].
  - inversion Hn as [|? ? [v Hv] Hn']; subst.
    destruct (IH Hn') as (r & Hr & Hf).
    exists (CellVal v :: r). unfold bind, record_getitem, ret. rewrite Hv, Hr.
    split; [reflexivity|]. constructor; [eauto | exact Hf].
Qed.

Lemma deref_set_files f w a : deref (set_files f w) a = deref w a.
Proof. destruct w; reflexivity. Qed.

Lemma files_set_files f w : files (set_files f w) = f.
Proof. destruct w; reflexivity. Qed.

Lemma set_files_set_files f1 f2 w : set_files f2 (set_files f1 w) = set_files f2 w.
Proof. destruct w; reflexivity. Qed.

(** With a file system that does not fail, the loop over the records appends
    one row per record, in the order of the store. *)
Lemma write_records_ok filename records : forall w written,
  Forall (fun a => has_channels (deref w a)) records ->
  dict_get filename (files w) = Some written ->
  exists rows,
    write_records filename IoOk records w
      = (set_files (dict_set filename (written ++ rows) (files w)) w, inr tt) /\
    Forall2 (fun a r => is_row (deref w a) r) records rows.
Proof.
  induction records as [|record records IH]; intros w written Hc Hw;
    cbn [write_records].
  - exists []. rewrite app_nil_r. split; [|constructor].
    unfold ret. f_equal. destruct w; cbn in *. f_equal.
    clear -Hw. induction files0 as [|[k v] fs IH]; cbn in *; [discriminate|].
    destruct (decide (filename = k)) as [->|Hne]; [congruence|].
    f_equal. apply IH, Hw.
  - inversion Hc as [|? ? Hc1 Hc']; subst.
    destruct (record_row_ok record channels w Hc1) as (r & Hr & Hrow).
    unfold bind at 1. rewrite Hr. unfold bind at 1. unfold writerow. rewrite Hw.
    change (default [] (Some written)) with written.
    set (w1 := set_files (dict_set filename (written ++ [r]) (files w)) w).
    destruct (IH w1 (written ++ [r])) as (rows & Hwr & Hrows).
    { eapply Forall_impl; [|exact Hc']. cbn. intros a Ha.
      subst w1. rewrite deref_set_files. exact Ha. }
    { subst w1. rewrite files_set_files. apply dict_get_set_eq. }
    exists (r :: rows). rewrite Hwr. split.
    + subst w1. rewrite files_set_files, set_files_set_files, dict_set_set.
      rewrite <- app_assoc. reflexivity.
    + constructor; [exact Hrow|].
      eapply Forall2_impl; [|exact Hrows]. cbn. intros a r' Hr'.
      subst w1. rewrite deref_set_files in Hr'. exact Hr'.
Qed.

(** An export of a non-empty store to a named file, without I/O failure. *)
Lemma export_data_ok filename w :
  wf w -> data_records w <> [] -> filename <> [] ->
  exists rows,
    export_data filename IoOk w
      = (set_dialogs (dialogs w ++ [ExportSuccess filename])
           (set_files (dict_set filename (header :: rows) (files w)) w), inr tt) /\
    Forall2 (fun a r => is_row (deref w a) r) (dict_values (data_records w)) rows.
Proof.
  intros Hwf Hne Hfn.
  destruct (write_records_ok filename (dict_values (data_records w))
              (set_files (dict_set filename [header] (files w)) w) [header])
    as (rows & Hwr & Hrows).
  { pose proof (wf_record_channels _ Hwf) as Hc.
    eapply Forall_impl; [|exact Hc]. cbn. intros a Ha.
    rewrite deref_set_files. exact Ha. }
  { rewrite files_set_files. apply dict_get_set_eq. }
  rewrite files_set_files, set_files_set_files, dict_set_set in Hwr.
  exists rows. split.
  - unfold export_data, bind, gets.
    destruct (data_records w) as [|rec recs] eqn:Hrec; [contradiction|].
    cbn [length Nat.ltb Nat.leb].
    rewrite bool_decide_eq_true_2 by exact Hfn.
    unfold try_except, open_w, modify, writerow, message.
    rewrite !files_set_files, dict_get_set_eq.
    change (default [] (Some ([] : list row)) ++ [header]) with [header].
    rewrite set_files_set_files, dict_set_set.
    replace (data_records (set_files (dict_set filename [header] (files w)) w))
      with (rec :: recs) by (rewrite <- Hrec; destruct w; reflexivity).
    rewrite Hwr. unfold modify. f_equal. destruct w; reflexivity.
  - eapply Forall2_impl; [|exact Hrows]. cbn. intros a r Hr.
    rewrite deref_set_files in Hr. exact Hr.
Qed.

Lemma is_row_length d r : is_row d r -> length r = 7.
Proof. intros Hr. apply Forall2_length in Hr. rewrite <- Hr. reflexivity. Qed.

End ExportFacts.

(** C6. In every reachable window with a non-empty session store, an export
    to a named file that meets no I/O failure leaves in the file exactly the
    header [C, R, IR, G, X, Y, Z] and then one row per record, in the order
    of the store, which is the ascending order of the sample indices; each
    row holds the seven values its record has under these names, in the
    order of the header, whatever the position of the names in the record.
    A store of [n] records gives [n + 1] rows. *)
Theorem export_writes_header_and_rows {F : FloatOps} (w : window)
    (filename : pystr) :
  reachable w ->
  data_records w <> [] ->
  filename <> [] ->
  let w' := fst (export_data filename IoOk w) in
  exists rows,
    export_data filename IoOk w = (w', inr tt) /\
    dict_get filename (files w') = Some (header :: rows) /\
    header = List.map CellStr
               [str "C"; str "R"; str "IR"; str "G"; str "X"; str "Y"; str "Z"] /\
    length (header :: rows) = S (length (data_records w)) /\
    Forall2 (fun record r => is_row (deref w record.2) r) (data_records w) rows /\
    Forall (fun r => length r = 7) rows /\
    dict_keys (data_records w) = indices (sample_count w) /\
    dialogs w' = dialogs w ++ [ExportSuccess filename] /\
    same_core w w'.
Proof.
  intros Hw Hne Hfn. apply reachable_wf in Hw.
  destruct (export_data_ok filename w Hw Hne Hfn) as (rows & He & Hrows).
  cbn zeta. rewrite He. cbn [fst]. exists rows.
  split; [reflexivity|]. split.
  { replace (files _) with (dict_set filename (header :: rows) (files w))
      by (destruct w; reflexivity).
    apply dict_get_set_eq. }
  split; [reflexivity|]. split.
  { cbn [length]. f_equal. apply Forall2_length in Hrows.
    rewrite <- Hrows. unfold dict_values. apply length_map. }
  split.
  { unfold dict_values in Hrows. clear -Hrows.
    remember (data_records w) as records eqn:Hr. clear Hr.
    revert rows Hrows. induction records as [|rec records IH]; intros rows Hrows;
      inversion Hrows; subst; constructor; auto. }
  split.
  { clear -Hrows. induction Hrows as [|a r ? ? Hr _ IH]; constructor;
      [eapply is_row_length, Hr | exact IH]. }
  split; [apply (wf_keys _ Hw)|].
  split; [destruct w; reflexivity|].
  split; destruct w; reflexivity.
Qed.

(** Two samples, the fields of the second one received in another order:
    three rows, the values in the order of the header. *)
Lemma export_writes_header_and_rows_witness :
  let w := run (F := IntegerFloat)
             [ReadyRead [bytes "C:1,R:2,IR:3,G:4"; bytes "X:5,Y:6,Z:7";
                         bytes "Z:70,Y:60,X:50"; bytes "G:40,IR:30,C:10,R:20"]]
             main_window in
  let w' := fst (export_data (str "out.csv") IoOk w) in
  reachable w /\ data_records w <> [] /\ str "out.csv" <> [] /\
  dict_get (str "out.csv") (files w')
  = Some [header;
          List.map (fun z => CellVal (PyFloat (num z))) [1; 2; 3; 4; 5; 6; 7]%Z;
          List.map (fun z => CellVal (PyFloat (num z))) [10; 20; 30; 40; 50; 60; 70]%Z] /\
  exists rows,
    export_data (str "out.csv") IoOk w = (w', inr tt) /\
    dict_get (str "out.csv") (files w') = Some (header :: rows) /\
    header (F := IntegerFloat)
    = List.map CellStr
        [str "C"; str "R"; str "IR"; str "G"; str "X"; str "Y"; str "Z"] /\
    length (header :: rows) = S (length (data_records w)) /\
    Forall2 (fun record r => is_row (deref w record.2) r) (data_records w) rows /\
    Forall (fun r => length r = 7) rows /\
    dict_keys (data_records w) = indices (sample_count w) /\
    dialogs w' = dialogs w ++ [ExportSuccess (str "out.csv")] /\
    same_core w w'.
Proof.
  intros w w'.
  assert (Hw : reachable w) by (apply reachable_run, reachable_run, reachable_init).
  assert (Hne : data_records w <> []) by (vm_compute; discriminate).
  assert (Hfn : str "out.csv" <> []) by (vm_compute; discriminate).
  split; [exact Hw|]. split; [exact Hne|]. split; [exact Hfn|].
  split; [vm_compute; reflexivity|].
  exact (export_writes_header_and_rows w (str "out.csv") Hw Hne Hfn).
Defined.

Section GoodLines.
Context {F : FloatOps}.

Lemma token_of_reading value s0 s1 pieces name x :
  contains colon value = true ->
  split colon value = s0 :: s1 :: pieces ->
  strip s0 = name ->
  float_of_str s1 = Some x ->
  token_of value = Reading name x.
Proof.
  intros Hc Hs Hn Hx. unfold token_of. rewrite Hc, Hs, Hx, Hn. reflexivity.
Qed.

(** A line without malformed piece: its readings are applied, the flags of
    the groups they belong to are raised, and a record is stored exactly when
    both flags are then up and no value of the current record is zero. *)
Lemma good_line data decoded w :
  wf w ->
  decode_utf8 data = inr decoded ->
  tokens_ok (split comma (strip decoded)) ->
  let readings := readings_of (split comma (strip decoded)) in
  let d := record_after readings (current w) in
  let p := fst (marks readings (false, false)) || ppg_updated w in
  let a := snd (marks readings (false, false)) || acc_updated w in
  let w' := fst (process_line data w) in
  wf w' /\
  process_line data w = (w', inr tt) /\
  current w' = d /\
  if p && a && forallb ne0 (dict_values d)
  then data_records w'
       = data_records w ++ [((sample_count w + 1)%Z, length (store w))] /\
       deref w' (length (store w)) = d /\
       sample_count w' = (sample_count w + 1)%Z /\
       ppg_updated w' = false /\ acc_updated w' = false
  else data_records w' = data_records w /\
       sample_count w' = sample_count w /\
       ppg_updated w' = p /\ acc_updated w' = a.
Proof.
  intros Hwf Hd Hok. cbn zeta.
  set (line := strip decoded) in *.
  set (readings := readings_of (split comma line)).
  destruct (for_fields_readings (split comma line) (false, false) _
              (wf_printed (RawLine line) w Hwf) Hok)
    as (w1 & Hf & Hff & Hwf1 & Hcur & _).
  fold readings in Hf, Hcur. rewrite printed_current in Hcur.
  destruct (printed_flags (RawLine line) w) as [Hp0 Ha0].
  assert (Hsf : session_frame w w1).
  { eapply session_frame_trans; [apply session_frame_printed|].
    apply fields_session, Hff. }
  set (m := marks readings (false, false)) in *.
  set (w2 := raise_flags m w1).
  assert (Hsf2 : session_frame w w2)
    by (eapply session_frame_trans; [exact Hsf | apply session_frame_raise_flags]).
  assert (Hwf2 : wf w2) by exact (wf_frame _ _ Hwf Hsf2).
  assert (Hcur2 : current w2 = record_after readings (current w))
    by (unfold w2; rewrite raise_flags_current; exact Hcur).
  assert (Hp2 : ppg_updated w2 = fst m || ppg_updated w).
  { unfold w2. rewrite raise_flags_ppg, (ff_ppg_updated _ _ Hff), Hp0. reflexivity. }
  assert (Ha2 : acc_updated w2 = snd m || acc_updated w).
  { unfold w2. rewrite raise_flags_acc, (ff_acc_updated _ _ Hff), Ha0. reflexivity. }
  assert (Hp : process_line data w = (if emits w2 then emit w2 else w2, inr tt)).
  { rewrite process_line_eq, line_body_eq, Hd. cbn zeta. fold line.
    rewrite Hf, store_record_eq. fold w2. destruct (emits w2); reflexivity. }
  rewrite Hp. cbn [fst].
  assert (He : emits w2
               = (fst m || ppg_updated w) && (snd m || acc_updated w)
                 && forallb ne0 (dict_values (record_after readings (current w)))).
  { unfold emits. rewrite Hp2, Ha2, Hcur2. reflexivity. }
  rewrite <- He. destruct (emits w2).
  - split; [apply wf_emit, Hwf2|]. split; [reflexivity|].
    split; [rewrite (emit_current _ Hwf2); exact Hcur2|].
    rewrite (emit_data_records _ Hwf2), emit_sample_count.
    rewrite (sf_data_records _ _ Hsf2), (sf_sample_count _ _ Hsf2),
      (sf_store_length _ _ Hsf2).
    split; [reflexivity|]. split.
    { rewrite <- (sf_store_length _ _ Hsf2), emit_deref_new. exact Hcur2. }
    split; [reflexivity|]. apply emit_flags.
  - split; [exact Hwf2|]. split; [reflexivity|]. split; [exact Hcur2|].
    split; [apply (sf_data_records _ _ Hsf2)|].
    split; [apply (sf_sample_count _ _ Hsf2)|]. split; assumption.
Qed.

End GoodLines.

Ltac reading_token :=
  eapply token_of_reading;
  [vm_compute; reflexivity | vm_compute; reflexivity | vm_compute; reflexivity
  | assumption].

(** C3. From a reachable window whose current record holds the seven zeros,
    whose flags are down and whose session store is empty, the lines
    [C:1,R:2,IR:3,G:4] and [X:5,Y:6,Z:7] store nothing after the first line
    and exactly one record after the second, with index 1 and the seven
    values read ([reads] states what [float] makes of the seven literals). *)
Theorem two_lines_one_sample {F : FloatOps} (w : window)
    (x1 x2 x3 x4 x5 x6 x7 : float) :
  reachable w ->
  current w = initial_record ->
  ppg_updated w = false -> acc_updated w = false ->
  data_records w = [] ->
  reads "1" x1 -> reads "2" x2 -> reads "3" x3 -> reads "4" x4 ->
  reads "5" x5 -> reads "6" x6 -> reads "7" x7 ->
  let w1 := fst (process_line (bytes "C:1,R:2,IR:3,G:4") w) in
  let w2 := fst (process_line (bytes "X:5,Y:6,Z:7") w1) in
  receive_serial_data [bytes "C:1,R:2,IR:3,G:4"; bytes "X:5,Y:6,Z:7"] w
    = (w2, inr tt) /\
  data_records w1 = [] /\
  sample_count w2 = 1%Z /\
  exists a,
    data_records w2 = [(1%Z, a)] /\
    deref w2 a = [(str "C", PyFloat x1); (str "R", PyFloat x2);
                  (str "IR", PyFloat x3); (str "G", PyFloat x4);
                  (str "X", PyFloat x5); (str "Y", PyFloat x6);
                  (str "Z", PyFloat x7)].
Proof.
  intros Hw Hcur Hppg Hacc Hrec [Hf1 Hn1] [Hf2 Hn2] [Hf3 Hn3] [Hf4 Hn4]
    [Hf5 Hn5] [Hf6 Hn6] [Hf7 Hn7].
  apply reachable_wf in Hw.
  assert (Hcount : sample_count w = 0%Z)
    by (rewrite (wf_sample_count _ Hw), Hrec; reflexivity).
  (* the first line *)
  assert (Hd1 : decode_utf8 (bytes "C:1,R:2,IR:3,G:4") = inr (str "C:1,R:2,IR:3,G:4"))
    by (vm_compute; reflexivity).
  assert (Hs1 : split comma (strip (str "C:1,R:2,IR:3,G:4"))
                = [str "C:1"; str "R:2"; str "IR:3"; str "G:4"])
    by (vm_compute; reflexivity).
  assert (Ht1 : token_of (str "C:1") = Reading (str "C") x1) by reading_token.
  assert (Ht2 : token_of (str "R:2") = Reading (str "R") x2) by reading_token.
  assert (Ht3 : token_of (str "IR:3") = Reading (str "IR") x3) by reading_token.
  assert (Ht4 : token_of (str "G:4") = Reading (str "G") x4) by reading_token.
  assert (Hok1 : tokens_ok (split comma (strip (str "C:1,R:2,IR:3,G:4")))).
  { rewrite Hs1. repeat (constructor; [congruence|]). constructor. }
  pose proof (good_line _ _ w Hw Hd1 Hok1) as H1. cbn zeta in H1.
  rewrite Hs1 in H1. rewrite !readings_of_cons, Ht1, Ht2, Ht3, Ht4 in H1.
  cbn [readings_of] in H1. rewrite Hcur, Hppg, Hacc in H1.
  set (d1 := [(str "C", PyFloat x1); (str "R", PyFloat x2); (str "IR", PyFloat x3);
              (str "G", PyFloat x4); (str "X", PyInt 0); (str "Y", PyInt 0);
              (str "Z", PyInt 0)]).
  replace (record_after _ initial_record) with d1 in H1 by (vm_compute; reflexivity).
  replace (marks _ (false, false)) with (true, false) in H1
    by (vm_compute; reflexivity).
  cbn [fst snd orb andb] in H1.
  destruct H1 as (Hwf1 & Hp1 & Hcur1 & Hrec1 & Hcount1 & Hppg1 & Hacc1).
  set (w1 := fst (process_line (bytes "C:1,R:2,IR:3,G:4") w)) in *.
  (* the second line *)
  assert (Hd2 : decode_utf8 (bytes "X:5,Y:6,Z:7") = inr (str "X:5,Y:6,Z:7"))
    by (vm_compute; reflexivity).
  assert (Hs2 : split comma (strip (str "X:5,Y:6,Z:7"))
                = [str "X:5"; str "Y:6"; str "Z:7"])
    by (vm_compute; reflexivity).
  assert (Ht5 : token_of (str "X:5") = Reading (str "X") x5) by reading_token.
  assert (Ht6 : token_of (str "Y:6") = Reading (str "Y") x6) by reading_token.
  assert (Ht7 : token_of (str "Z:7") = Reading (str "Z") x7) by reading_token.
  assert (Hok2 : tokens_ok (split comma (strip (str "X:5,Y:6,Z:7")))).
  { rewrite Hs2. repeat (constructor; [congruence|]). constructor. }
  pose proof (good_line _ _ w1 Hwf1 Hd2 Hok2) as H2. cbn zeta in H2.
  rewrite Hs2 in H2. rewrite !readings_of_cons, Ht5, Ht6, Ht7 in H2.
  cbn [readings_of] in H2. rewrite Hcur1, Hppg1, Hacc1 in H2.
  set (d2 := [(str "C", PyFloat x1); (str "R", PyFloat x2); (str "IR", PyFloat x3);
              (str "G", PyFloat x4); (str "X", PyFloat x5); (str "Y", PyFloat x6);
              (str "Z", PyFloat x7)]).
  replace (record_after _ d1) with d2 in H2 by (vm_compute; reflexivity).
  replace (marks _ (false, false)) with (false, true) in H2
    by (vm_compute; reflexivity).
  assert (Hnz : forallb ne0 (dict_values d2) = true).
  { cbn. rewrite Hn1, Hn2, Hn3, Hn4, Hn5, Hn6, Hn7. reflexivity. }
  rewrite Hnz in H2. cbn [fst snd orb andb] in H2.
  destruct H2 as (Hwf2 & Hp2 & Hcur2 & Hrec2 & Hderef2 & Hcount2 & _).
  rewrite Hrec1, Hrec, Hcount1, Hcount in Hrec2. rewrite Hcount1, Hcount in Hcount2.
  cbn zeta. split.
  { destruct (receive_serial_data_wf
                [bytes "C:1,R:2,IR:3,G:4"; bytes "X:5,Y:6,Z:7"] w Hw) as [Hr _].
    exact Hr. }
  split; [rewrite Hrec1; exact Hrec|]. split; [exact Hcount2|].
  exists (length (store w1)). split; [exact Hrec2 | exact Hderef2].
Qed.

(** The window of the main program and the oracle that reads integers. *)
Lemma two_lines_one_sample_witness :
  let w := main_window (F := IntegerFloat) in
  let w1 := fst (process_line (bytes "C:1,R:2,IR:3,G:4") w) in
  let w2 := fst (process_line (bytes "X:5,Y:6,Z:7") w1) in
  (reachable w /\ current w = initial_record /\
   ppg_updated w = false /\ acc_updated w = false /\ data_records w = []) /\
  receive_serial_data [bytes "C:1,R:2,IR:3,G:4"; bytes "X:5,Y:6,Z:7"] w
    = (w2, inr tt) /\
  data_records w1 = [] /\
  sample_count w2 = 1%Z /\
  exists a,
    data_records w2 = [(1%Z, a)] /\
    deref w2 a = [(str "C", PyFloat (num 1)); (str "R", PyFloat (num 2));
                  (str "IR", PyFloat (num 3)); (str "G", PyFloat (num 4));
                  (str "X", PyFloat (num 5)); (str "Y", PyFloat (num 6));
                  (str "Z", PyFloat (num 7))].
Proof.
  intros w w1 w2.
  assert (Hw : reachable w) by apply reachable_run, reachable_init.
  split; [repeat split; try exact Hw; reflexivity|].
  refine (two_lines_one_sample w (num 1) (num 2) (num 3) (num 4) (num 5) (num 6)
            (num 7) Hw eq_refl eq_refl eq_refl eq_refl _ _ _ _ _ _ _);
    split; vm_compute; reflexivity.
Defined.

Section BlockedLines.
Context {F : FloatOps}.

Lemma first_malformed_None values :
  first_malformed values = None -> tokens_ok values.
Proof.
  induction values as [|value values IH]; cbn; intros Hn; [constructor|].
  destruct (token_of value) eqn:Htok; try discriminate;
    (destruct (first_malformed values) as [[[? ?] ?]|]; [discriminate|];
     constructor; [congruence | apply IH; reflexivity]).
Qed.

Lemma ppg_not_acc name :
  name_in name ppg_names = true -> name_in name acc_names = false.
Proof.
  unfold name_in. intros Hp. apply bool_decide_eq_true in Hp.
  apply bool_decide_eq_false. intros Ha.
  rewrite list_elem_of_In in Hp, Ha. cbn in Hp, Ha.
  repeat (destruct Hp as [<-|Hp];
          [repeat (destruct Ha as [Ha|Ha]; [vm_compute in Ha; discriminate Ha|]);
           exact Ha|]).
  exact Hp.
Qed.

Lemma marks_spec readings : forall is_data,
  marks readings is_data
  = (fst is_data || has_group ppg_names readings,
     snd is_data || has_group acc_names readings).
Proof.
  induction readings as [|r readings IH]; intros [p a].
  - cbn. rewrite !orb_false_r. reflexivity.
  - change (marks (r :: readings) (p, a)) with (marks readings (mark r.1 (p, a))).
    rewrite IH. unfold has_group. cbn [existsb]. unfold mark. cbn [fst snd].
    destruct (name_in r.1 ppg_names) eqn:Hp.
    + rewrite (ppg_not_acc _ Hp). cbn [fst snd orb]. rewrite orb_true_r.
      reflexivity.
    + destruct (name_in r.1 acc_names); cbn [fst snd orb];
        rewrite ?orb_true_r; reflexivity.
Qed.

Lemma not_malformed data :
  malformed_line data = false ->
  exists decoded, decode_utf8 data = inr decoded /\
    tokens_ok (split comma (strip decoded)) /\
    line_readings data = readings_of (split comma (strip decoded)).
Proof.
  unfold malformed_line, line_readings, applied_fields.
  destruct (decode_utf8 data) as [e|decoded]; [discriminate|].
  destruct (first_malformed _) as [[[? ?] ?]|] eqn:Hfm; [discriminate|].
  intros _. exists decoded. split; [reflexivity|].
  split; [apply first_malformed_None, Hfm | reflexivity].
Qed.

(** A line that raises leaves both flags as they were. *)
Lemma malformed_line_flags data w :
  wf w -> malformed_line data = true ->
  flags (fst (process_line data w)) = flags w.
Proof.
  intros Hwf. unfold malformed_line, flags.
  destruct (decode_utf8 data) as [e|decoded] eqn:Hd.
  - intros _. rewrite process_line_eq, line_body_eq, Hd.
    pose proof (decode_utf8_error _ _ Hd) as ->. cbn. destruct w; reflexivity.
  - destruct (first_malformed (split comma (strip decoded)))
      as [[[pre bad] post]|] eqn:Hfm; [intros _ | discriminate].
    apply first_malformed_Some in Hfm as (Hs & Hok & Hbad).
    destruct (process_line_not_numeric data decoded pre bad post w Hwf Hd Hs Hok Hbad)
      as (w1 & _ & Hff & _ & _ & ->).
    cbn [fst].
    destruct (printed_flags (ErrorParsingLine ValueError) w1) as [-> ->].
    rewrite (ff_ppg_updated _ _ Hff), (ff_acc_updated _ _ Hff).
    destruct (printed_flags (RawLine (strip decoded)) w) as [-> ->].
    reflexivity.
Qed.

(** A line that ends with a zero in the current record leaves the flags as
    they are at its emission test. *)
Lemma blocked_line_flags data w :
  wf w ->
  has_zero (current (fst (process_line data w))) = true ->
  flags (fst (process_line data w)) = line_flags data (flags w).
Proof.
  intros Hwf Hz. unfold line_flags.
  destruct (malformed_line data) eqn:Hm; [apply malformed_line_flags; assumption|].
  destruct (not_malformed data Hm) as (decoded & Hd & Hok & Hr).
  pose proof (good_line data decoded w Hwf Hd Hok) as Hg. cbn zeta in Hg.
  destruct Hg as (_ & _ & Hcur & Hcase).
  unfold has_zero in Hz. rewrite Hcur in Hz. apply negb_true_iff in Hz.
  rewrite Hz, andb_false_r in Hcase. destruct Hcase as (_ & _ & Hp & Ha).
  unfold flags. rewrite Hp, Ha, Hr, marks_spec. cbn [fst snd orb].
  rewrite (orb_comm (ppg_updated w)), (orb_comm (acc_updated w)). reflexivity.
Qed.

Lemma blocked_lines_flags lines : forall w,
  wf w ->
  (forall n, 0 < n <= length lines ->
             has_zero (current (after_lines (take n lines) w)) = true) ->
  flags (after_lines lines w)
  = fold_left (fun fl data => line_flags data fl) lines (flags w).
Proof.
  induction lines as [|data lines IH]; intros w Hwf Hz; [reflexivity|].
  change (after_lines (data :: lines) w)
    with (after_lines lines (fst (process_line data w))).
  cbn [fold_left].
  assert (Hwf1 : wf (fst (process_line data w))).
  { destruct (process_line_wf data w Hwf) as (w1 & -> & Hwf1 & _). exact Hwf1. }
  rewrite (IH _ Hwf1).
  - rewrite (blocked_line_flags data w Hwf); [reflexivity|].
    apply (Hz 1). cbn [length]. lia.
  - intros n Hn. apply (Hz (S n)). cbn [length]. lia.
Qed.

End BlockedLines.

(** C5. In every reachable window: a line at whose end some value of the
    current record is zero stores no record, whatever the flags are, and
    resets no flag: both flags are afterwards what they are at the emission
    test of the line, that is, the flags before the line, each raised when
    the line has a reading of its group (a line that raises in the loop does
    not come to the test, and its flags are those before it).  Hence as long
    as a value stays zero, line after line, no record is ever stored and the
    flags only accumulate. *)
Theorem zero_value_blocks_emission {F : FloatOps} (w : window) :
  reachable w ->
  (forall data,
     has_zero (current (fst (process_line data w))) = true ->
     emission_blocked w (fst (process_line data w)) /\
     flags (fst (process_line data w)) = line_flags data (flags w)) /\
  (forall lines,
     (forall n, 0 < n <= length lines ->
                has_zero (current (after_lines (take n lines) w)) = true) ->
     emission_blocked w (after_lines lines w) /\
     flags (after_lines lines w)
     = fold_left (fun fl data => line_flags data fl) lines (flags w)).
Proof.
  intros Hw. apply reachable_wf in Hw. split.
  - intros data Hz.
    split; [apply zero_blocks_line | apply blocked_line_flags]; assumption.
  - intros lines Hz.
    split; [apply zero_blocks_lines | apply blocked_lines_flags]; assumption.
Qed.

(** The PPG flag is up; the accelerometer reports with the Z axis at zero:
    the line raises the second flag, both stay up, and the store stays
    empty. *)
Lemma zero_value_blocks_emission_witness :
  let w := run (F := IntegerFloat) [ReadyRead [bytes "C:1,R:2,IR:3,G:4"]]
             SerialPlotterWindow_init in
  let data := bytes "X:5,Y:6,Z:0" in
  let w' := fst (process_line data w) in
  reachable w /\
  has_zero (current w') = true /\
  flags w = (true, false) /\
  line_flags (F := IntegerFloat) data (true, false) = (true, true) /\
  flags w' = (true, true) /\
  data_records w' = [].
Proof.
  intros w data w'.
  assert (Hw : reachable w) by apply reachable_run, reachable_init.
  assert (Hz : has_zero (current w') = true) by (vm_compute; reflexivity).
  assert (Hfl : flags w = (true, false)) by (vm_compute; reflexivity).
  assert (Hlf : line_flags (F := IntegerFloat) data (true, false) = (true, true))
    by (vm_compute; reflexivity).
  destruct (proj1 (zero_value_blocks_emission w Hw) data Hz)
    as [(Hr & _) Hf].
  fold w' in Hr, Hf.
  split; [exact Hw|]. split; [exact Hz|]. split; [exact Hfl|].
  split; [exact Hlf|]. split; [rewrite Hf, Hfl; exact Hlf|].
  rewrite Hr. vm_compute. reflexivity.
Defined.

Section UnknownNames.
Context {F : FloatOps}.

Lemma not_channel_sensor_map name :
  name ∉ channels -> dict_get name sensor_map = None.
Proof.
  intros Hn. unfold sensor_map. cbn [dict_get].
  repeat (destruct (decide _) as [->|_];
          [exfalso; apply Hn, list_elem_of_In; cbn; tauto|]).
  reflexivity.
Qed.

Lemma not_channel_mark name is_data : name ∉ channels -> mark name is_data = is_data.
Proof.
  intros Hn. unfold mark, name_in.
  rewrite !bool_decide_eq_false_2; [reflexivity| |];
    intros Hin; apply Hn; apply list_elem_of_In in Hin; apply list_elem_of_In;
    cbn in *; tauto.
Qed.

Lemma handle_keeps_key ev w k :
  wf w -> is_Some (dict_get k (current w)) ->
  is_Some (dict_get k (current (fst (handle ev w)))).
Proof.
  intros Hwf Hk. destruct ev as [|lines|filename fs|selected]; cbn [handle].
  - destruct w; exact Hk.
  - destruct (receive_serial_data_wf lines w Hwf) as [-> _]. cbn [fst].
    clear -Hwf Hk. revert w Hwf Hk.
    induction lines as [|data lines IH]; intros w Hwf Hk; [exact Hk|].
    change (after_lines (data :: lines) w)
      with (after_lines lines (fst (process_line data w))).
    destruct (process_line_wf data w Hwf) as (w1 & -> & Hwf1 & _ & _ & Hkeys & _).
    apply IH; [exact Hwf1 | apply Hkeys, Hk].
  - pose proof (core_kept_export_data filename fs w) as Hsc.
    unfold current. rewrite (sc_current_record _ _ Hsc), (same_core_deref _ _ _ Hsc).
    exact Hk.
  - rewrite change_buffer_size_eq.
    destruct (getitem (buffer_sizes w) selected); cbn [fst]; destruct w; exact Hk.
Qed.

(** The emission step, seen from a key of the current record. *)
Lemma store_record_key w k v :
  wf w -> dict_get k (current w) = Some v ->
  let w' := fst (store_record w) in
  data_records w' = data_records w \/
  (ne0 v = true /\
   exists a, data_records w' = data_records w ++ [((sample_count w + 1)%Z, a)] /\
             dict_get k (deref w' a) = Some v /\ has_channels (deref w' a)).
Proof.
  intros Hwf Hk. cbn zeta. rewrite store_record_eq. cbn [fst].
  destruct (emits w) eqn:He; [right | left; reflexivity].
  unfold emits in He. apply andb_true_iff in He as [_ He].
  rewrite forallb_forall in He. split.
  - apply He, list_elem_of_In. eapply dict_get_In, Hk.
  - exists (length (store w)). rewrite (emit_data_records _ Hwf), emit_deref_new.
    split; [reflexivity|]. split; [exact Hk | apply (wf_channels _ Hwf)].
Qed.

End UnknownNames.

(** C10. [wf] holds of every reachable window and at every turn of the loop
    over the fields.  In such a window a reading whose name is none of the
    seven channels is stored in the current record under its name (as a new
    last key when the name is new) while the locals that feed the group flags,
    the buffers and the plot items stay as they are.  From then on, in every
    such window whose current record has the name: the name stays a key
    through every field, line and event; an emission step stores a record
    only if the value under the name is not zero, and the record stored has
    the name next to the seven channels; an export still writes rows of seven
    cells. *)
Theorem unknown_name_joins_record {F : FloatOps} (w : window) (value : pystr)
    (is_data : bool * bool) (name : pystr) (x : float) :
  wf w ->
  token_of value = Reading name x ->
  name ∉ channels ->
  let w1 := fst (handle_field value is_data w) in
  (handle_field value is_data w = (w1, inr is_data) /\
   current w1 = dict_set name (PyFloat x) (current w) /\
   (name ∉ dict_keys (current w) ->
    current w1 = current w ++ [(name, PyFloat x)]) /\
   dict_get name (current w1) = Some (PyFloat x) /\
   data_buffers w1 = data_buffers w /\
   plot_data_items w1 = plot_data_items w /\
   wf w1) /\
  forall w2, wf w2 -> is_Some (dict_get name (current w2)) ->
    (forall value' is_data',
       is_Some (dict_get name (current (fst (handle_field value' is_data' w2))))) /\
    (forall data, is_Some (dict_get name (current (fst (process_line data w2))))) /\
    (forall ev, is_Some (dict_get name (current (fst (handle ev w2))))) /\
    (forall v, dict_get name (current w2) = Some v ->
       let w3 := fst (store_record w2) in
       data_records w3 = data_records w2 \/
       (ne0 v = true /\
        exists a,
          data_records w3 = data_records w2 ++ [((sample_count w2 + 1)%Z, a)] /\
          dict_get name (deref w3 a) = Some v /\ has_channels (deref w3 a))) /\
    (forall filename, data_records w2 <> [] -> filename <> [] ->
       exists rows,
         dict_get filename (files (fst (export_data filename IoOk w2)))
         = Some (header :: rows) /\
         Forall (fun r => length r = 7) rows).
Proof.
  intros Hwf Htok Hn. cbn zeta. split.
  - pose proof (handle_field_eq value is_data w) as Hh. rewrite Htok in Hh.
    destruct (apply_reading_wf name x is_data w Hwf) as (w1 & Ha & _ & Hwf1 & Hcur & Hr).
    rewrite Hh, Ha, (not_channel_mark _ _ Hn). cbn [fst].
    unfold routed in Hr. rewrite (not_channel_sensor_map _ Hn) in Hr.
    destruct Hr as [Hb Hp].
    split; [reflexivity|]. split; [exact Hcur|]. split.
    { intros Hnew. rewrite Hcur. apply dict_set_fresh, Hnew. }
    split; [rewrite Hcur; apply dict_get_set_eq|]. auto.
  - intros w2 Hwf2 Hk. split; [|split; [|split; [|split]]].
    + intros value' d. pose proof (keeps_handle_field value' d w2) as Hff.
      apply (ff_keys _ _ Hff), Hk.
    + intros data.
      destruct (process_line_wf data w2 Hwf2) as (w3 & -> & _ & _ & _ & Hkeys & _).
      apply Hkeys, Hk.
    + intros ev. apply handle_keeps_key; assumption.
    + intros v Hv. apply store_record_key; assumption.
    + intros filename Hne Hfn.
      destruct (export_data_ok filename w2 Hwf2 Hne Hfn) as (rows & -> & Hrows).
      exists rows. cbn [fst]. split.
      * replace (files _) with (dict_set filename (header :: rows) (files w2))
          by (destruct w2; reflexivity).
        apply dict_get_set_eq.
      * clear -Hrows. induction Hrows as [|a r ? ? Hr _ IH]; constructor;
          [eapply is_row_length, Hr | exact IH].
Qed.

(** The field [T:9] in the window of the main program; and with it in front
    of the two lines of a sample, the record stored has eight keys. *)
Lemma unknown_name_joins_record_witness :
  let w := main_window (F := IntegerFloat) in
  let w1 := fst (handle_field (str "T:9") (false, false) w) in
  let w2 := run [ReadyRead [bytes "T:9,C:1,R:2,IR:3,G:4"; bytes "X:5,Y:6,Z:7"]] w in
  (wf w /\ token_of (str "T:9") = Reading (str "T") (num 9) /\
   str "T" ∉ channels) /\
  (handle_field (str "T:9") (false, false) w = (w1, inr (false, false)) /\
   current w1 = dict_set (str "T") (PyFloat (num 9)) (current w) /\
   (str "T" ∉ dict_keys (current w) ->
    current w1 = current w ++ [(str "T", PyFloat (num 9))]) /\
   dict_get (str "T") (current w1) = Some (PyFloat (num 9)) /\
   data_buffers w1 = data_buffers w /\
   plot_data_items w1 = plot_data_items w /\
   wf w1) /\
  exists a,
    data_records w2 = [(1%Z, a)] /\
    deref w2 a = [(str "C", PyFloat (num 1)); (str "R", PyFloat (num 2));
                  (str "IR", PyFloat (num 3)); (str "G", PyFloat (num 4));
                  (str "X", PyFloat (num 5)); (str "Y", PyFloat (num 6));
                  (str "Z", PyFloat (num 7)); (str "T", PyFloat (num 9))].
Proof.
  intros w w1 w2.
  assert (Hwf : wf w) by apply reachable_wf, reachable_run, reachable_init.
  assert (Htok : token_of (F := IntegerFloat) (str "T:9") = Reading (str "T") (num 9))
    by (vm_compute; reflexivity).
  assert (Hn : str "T" ∉ channels).
  { intros Hin. apply list_elem_of_In in Hin. vm_compute in Hin.
    repeat (destruct Hin as [Hin|Hin]; [discriminate Hin|]). exact Hin. }
  split; [auto|]. split.
  - exact (proj1 (unknown_name_joins_record w (str "T:9") (false, false)
                    (str "T") (num 9) Hwf Htok Hn)).
  - eexists. split; vm_compute; reflexivity.
Defined.

(** * Further properties *)

(** ** The cursor of a buffer *)

Section CursorFacts.
Context {F : FloatOps}.

(** One push on a buffer of the constructed shape: the cursor advances by one
    modulo the capacity and the flag is raised when it is back at zero. *)
Lemma push_cursor v (b : CircularBuffer) :
  cb_wf b ->
  exists b', push v b = (b', None) /\ cb_wf b' /\
    capacity b' = capacity b /\
    index b' = (index b + 1) mod capacity b /\
    full b' = full b || (index b' =? 0).
Proof.
  intros [Hlen Hidx]. unfold push.
  destruct (decide (index b < length (buffer b))) as [_|Hn]; [|lia].
  destruct (capacity b =? 0) eqn:Hc; [apply Nat.eqb_eq in Hc; lia|].
  cbn [capacity buffer index full].
  assert (Hlt : (index b + 1) mod capacity b < capacity b)
    by (apply Nat.mod_upper_bound; lia).
  destruct ((index b + 1) mod capacity b =? 0) eqn:Hz.
  - eexists. split; [reflexivity|]. unfold cb_wf. cbn [capacity buffer index full].
    rewrite length_insert, Hz, orb_true_r. repeat split; try lia.
  - eexists. split; [reflexivity|]. unfold cb_wf. cbn [capacity buffer index full].
    rewrite length_insert, Hz, orb_false_r. repeat split; try lia.
Qed.

Lemma push_all_cursor N values : forall (b : CircularBuffer) L,
  cb_wf b -> capacity b = N -> index b = L mod N -> full b = (N <=? L) ->
  exists b', push_all values b = (b', None) /\ cb_wf b' /\ capacity b' = N /\
    index b' = (L + length values) mod N /\
    full b' = (N <=? L + length values).
Proof.
  induction values as [|v values IH]; intros b L Hwf Hcap Hidx Hfull.
  - exists b. cbn [length push_all]. rewrite Nat.add_0_r. auto.
  - destruct (push_cursor v b Hwf) as (b1 & Hp & Hwf1 & Hcap1 & Hidx1 & Hfull1).
    assert (HN : 0 < N) by (destruct Hwf; lia).
    assert (Hi : index b1 = (L + 1) mod N).
    { rewrite Hidx1, Hcap, Hidx. apply Nat.Div0.add_mod_idemp_l. }
    assert (Hf : full b1 = (N <=? L + 1)).
    { rewrite Hfull1, Hfull, Hi.
      destruct (Nat.leb_spec N L) as [Hle|Hlt].
      - cbn. symmetry. apply Nat.leb_le. lia.
      - cbn. destruct (Nat.eq_dec (L + 1) N) as [<-|Hne].
        + rewrite Nat.Div0.mod_same, Nat.leb_refl. reflexivity.
        + rewrite Nat.mod_small by lia.
          replace (L + 1 =? 0) with false by (symmetry; apply Nat.eqb_neq; lia).
          symmetry. apply Nat.leb_gt. lia. }
    destruct (IH b1 (L + 1) Hwf1 (eq_trans Hcap1 Hcap) Hi Hf)
      as (b' & Hpa & Hwf' & Hcap' & Hidx' & Hfull').
    exists b'. cbn [push_all length]. rewrite Hp.
    replace (L + S (length values)) with (L + 1 + length values) by lia.
    auto.
Qed.

End CursorFacts.

(** X1. After [L] pushes into a new buffer of positive capacity [N] the array
    still has [N] slots, the cursor is at [L mod N], and the buffer counts as
    wrapped exactly when [N <= L]. *)
Theorem cursor_after_pushes {F : FloatOps} (N : nat) (values : list float) :
  0 < N ->
  exists b, push_all values (CircularBuffer_init N) = (b, None) /\
    capacity b = N /\ length (buffer b) = N /\
    index b = length values mod N /\
    full b = (N <=? length values).
Proof.
  intros HN.
  destruct (push_all_cursor N values (CircularBuffer_init N) 0) as (b & Hp & [Hl _] & Hc & Hi & Hf).
  - apply cb_wf_init, HN.
  - reflexivity.
  - cbn. rewrite Nat.Div0.mod_0_l. reflexivity.
  - cbn. symmetry. apply Nat.leb_gt, HN.
  - exists b. rewrite Hl. auto.
Qed.

(** Seven pushes into a buffer of capacity three. *)
Lemma cursor_after_pushes_witness :
  0 < 3 /\
  exists b : @CircularBuffer IntegerFloat,
    push_all (F := IntegerFloat) [1; 2; 3; 4; 5; 6; 7]%Z (CircularBuffer_init 3)
      = (b, None) /\
    capacity b = 3 /\ length (buffer b) = 3 /\
    index b = 1 /\ full b = true.
Proof.
  split; [lia|].
  exact (@cursor_after_pushes IntegerFloat 3 [1; 2; 3; 4; 5; 6; 7]%Z ltac:(lia)).
Defined.

(** X2. A sequence of pushes into a new buffer ends without an exception
    exactly when the capacity is positive or nothing is pushed.  With
    capacity zero the first push raises IndexError, at the write into the
    empty array and before the cursor is touched, and the buffer is as it
    was built. *)
Theorem push_raises_iff_capacity_zero {F : FloatOps} (N : nat)
    (values : list float) :
  (snd (push_all values (CircularBuffer_init N)) = None
   <-> 0 < N \/ values = []) /\
  (forall v rest,
     push_all (v :: rest) (CircularBuffer_init 0)
     = (CircularBuffer_init 0, Some IndexError)).
Proof.
  split; [|reflexivity]. split.
  - intros Hp. destruct N as [|N]; [|left; lia].
    destruct values as [|v values]; [right; reflexivity | discriminate Hp].
  - intros [HN | ->]; [|reflexivity].
    destruct (push_all_cursor N values (CircularBuffer_init N) 0)
      as (b & -> & _).
    + apply cb_wf_init, HN.
    + reflexivity.
    + cbn. rewrite Nat.Div0.mod_0_l. reflexivity.
    + cbn. symmetry. apply Nat.leb_gt, HN.
    + reflexivity.
Qed.

(** ** What any line does to the record and the buffers *)

Section LineReadings.
Context {F : FloatOps}.

(** A line without malformed piece, as an equation. *)
Lemma process_line_good data decoded w :
  wf w ->
  decode_utf8 data = inr decoded ->
  tokens_ok (split comma (strip decoded)) ->
  exists w1,
    fields_frame (printed (RawLine (strip decoded)) w) w1 /\ wf w1 /\
    current w1 = record_after (readings_of (split comma (strip decoded))) (current w) /\
    data_buffers w1
    = buffers_after (readings_of (split comma (strip decoded))) (data_buffers w) /\
    process_line data w
    = (let w2 := raise_flags
                   (marks (readings_of (split comma (strip decoded))) (false, false))
                   w1 in
       if emits w2 then emit w2 else w2, inr tt).
Proof.
  intros Hwf Hd Hok.
  destruct (for_fields_readings (split comma (strip decoded)) (false, false) _
              (wf_printed (RawLine (strip decoded)) w Hwf) Hok)
    as (w1 & Hf & Hff & Hwf1 & Hcur & Hb).
  exists w1. split; [exact Hff|]. split; [exact Hwf1|].
  split; [rewrite Hcur, printed_current; reflexivity|].
  split; [rewrite Hb; destruct w; reflexivity|].
  rewrite process_line_eq, line_body_eq, Hd. cbn zeta.
  rewrite Hf, store_record_eq.
  destruct (emits _); reflexivity.
Qed.

Lemma raise_flags_data_buffers is_data w :
  data_buffers (raise_flags is_data w) = data_buffers w.
Proof. destruct is_data as [[] []], w; reflexivity. Qed.

Lemma emit_data_buffers w : data_buffers (emit w) = data_buffers w.
Proof. destruct w; reflexivity. Qed.

Lemma printed_data_buffers o w : data_buffers (printed o w) = data_buffers w.
Proof. destruct w; reflexivity. Qed.

(** Whatever the line, the current record and the buffers afterwards are
    those its applied readings produce. *)
Lemma process_line_applies data w :
  wf w ->
  current (fst (process_line data w))
  = record_after (line_readings data) (current w) /\
  data_buffers (fst (process_line data w))
  = buffers_after (line_readings data) (data_buffers w).
Proof.
  intros Hwf. unfold line_readings, applied_fields.
  destruct (decode_utf8 data) as [e|decoded] eqn:Hd.
  - rewrite process_line_eq, line_body_eq, Hd.
    pose proof (decode_utf8_error _ _ Hd) as ->. cbn.
    split; destruct w; reflexivity.
  - destruct (first_malformed (split comma (strip decoded)))
      as [[[pre bad] post]|] eqn:Hfm.
    + apply first_malformed_Some in Hfm as (Hs & Hok & Hbad).
      destruct (process_line_not_numeric data decoded pre bad post w Hwf Hd Hs Hok Hbad)
        as (w1 & _ & _ & Hcur & Hb & ->).
      cbn [fst]. rewrite printed_current, printed_data_buffers. auto.
    + apply first_malformed_None in Hfm.
      destruct (process_line_good data decoded w Hwf Hd Hfm)
        as (w1 & Hff & Hwf1 & Hcur & Hb & ->).
      cbn zeta. cbn [fst].
      set (w2 := raise_flags _ w1).
      assert (Hwf2 : wf w2)
        by (eapply wf_frame; [exact Hwf1 | apply session_frame_raise_flags]).
      assert (Hc2 : current w2 = current w1) by apply raise_flags_current.
      assert (Hb2 : data_buffers w2 = data_buffers w1)
        by apply raise_flags_data_buffers.
      destruct (emits w2).
      * rewrite (emit_current _ Hwf2), emit_data_buffers. split; congruence.
      * split; congruence.
Qed.

Lemma last_n_short {A} n (l : list A) : length l <= n -> last_n n l = l.
Proof. intros Hl. unfold last_n. replace (length l - n) with 0 by lia. apply drop_0. Qed.

Lemma last_n_app {A} n (l l' : list A) :
  last_n n (last_n n l ++ l') = last_n n (l ++ l').
Proof.
  destruct (Nat.le_gt_cases (length l) n) as [Hle|Hgt].
  - rewrite (last_n_short n l Hle). reflexivity.
  - unfold last_n. rewrite !length_app, length_drop.
    replace (length l - (length l - n) + length l' - n) with (length l') by lia.
    replace (length l + length l' - n) with ((length l - n) + length l') by lia.
    rewrite <- drop_drop. f_equal.
    rewrite drop_app_le by lia. reflexivity.
Qed.

(** A push slides the window of a buffer by one value. *)
Lemma push_window v (b : CircularBuffer) :
  cb_wf b ->
  cb_wf (fst (push v b)) /\
  capacity (fst (push v b)) = capacity b /\
  get_data (fst (push v b)) = last_n (capacity b) (get_data b ++ [v]).
Proof.
  intros Hwf. pose proof Hwf as [Hlen Hidx]. destruct (full b) eqn:Hfull.
  - destruct (push_full v b Hwf Hfull) as (b' & -> & Hwf' & Hc & Hd & _).
    cbn [fst]. split; [exact Hwf'|]. split; [exact Hc|].
    rewrite Hd. unfold last_n. rewrite length_app. cbn [length].
    assert (Hl : length (get_data b) = capacity b).
    { unfold get_data. rewrite Hfull, length_app, length_drop, length_take. lia. }
    rewrite Hl. replace (capacity b + 1 - capacity b) with 1 by lia.
    rewrite drop_app_le by lia. reflexivity.
  - destruct (push_not_full v b Hwf Hfull) as (b' & -> & Hwf' & Hc & Hd & _).
    cbn [fst]. split; [exact Hwf'|]. split; [exact Hc|].
    rewrite Hd. symmetry. apply last_n_short.
    rewrite length_app. cbn [length].
    unfold get_data. rewrite Hfull, length_take. lia.
Qed.

Lemma route_other r j i (bs : list CircularBuffer) :
  dict_get r.1 sensor_map = Some j -> j <> i -> route r bs !! i = bs !! i.
Proof.
  intros Hm Hne. unfold route. rewrite Hm.
  destruct (bs !! j); [apply list_lookup_insert_ne, Hne | reflexivity].
Qed.

(** The buffer at position [i] after a sequence of readings: its window has
    slid over the values sent to it, in their order. *)
Lemma buffers_after_lookup readings : forall (bs : list CircularBuffer) i b,
  Forall cb_wf bs -> bs !! i = Some b ->
  exists b', buffers_after readings bs !! i = Some b' /\
    capacity b' = capacity b /\
    get_data b' = last_n (capacity b) (get_data b ++ values_for i readings).
Proof.
  induction readings as [|r readings IH]; intros bs i b Hwf Hb.
  - exists b. cbn. rewrite app_nil_r. split; [exact Hb|]. split; [reflexivity|].
    symmetry. apply last_n_short.
    assert (Hwfb : cb_wf b) by (eapply Forall_lookup_1; eauto).
    destruct Hwfb as [Hlen Hidx]. unfold get_data.
    destruct (full b); rewrite ?length_app, ?length_drop, length_take; lia.
  - change (buffers_after (r :: readings) bs)
      with (buffers_after readings (route r bs)).
    pose proof (route_wf r bs Hwf) as Hwf'.
    unfold values_for. cbn [List.filter].
    destruct (dict_get r.1 sensor_map) as [j|] eqn:Hm.
    + destruct (decide (j = i)) as [->|Hne].
      * rewrite bool_decide_eq_true_2 by reflexivity. cbn [List.map snd].
        fold (values_for i readings).
        assert (Hwfb : cb_wf b) by (eapply Forall_lookup_1; [exact Hwf | exact Hb]).
        destruct (push_window r.2 b Hwfb) as (_ & Hc1 & Hd1).
        assert (Hb1 : route r bs !! i = Some (fst (push r.2 b))).
        { unfold route. rewrite Hm, Hb. apply list_lookup_insert_eq.
          eapply lookup_lt_Some, Hb. }
        destruct (IH _ _ _ Hwf' Hb1) as (b' & Hl & Hc & Hd).
        exists b'. split; [exact Hl|]. split; [congruence|].
        rewrite Hd, Hc1, Hd1, last_n_app, <- app_assoc. reflexivity.
      * rewrite bool_decide_eq_false_2 by congruence.
        fold (values_for i readings).
        apply IH; [exact Hwf'|]. rewrite (route_other r j i bs Hm Hne). exact Hb.
    + rewrite bool_decide_eq_false_2 by congruence.
      fold (values_for i readings).
      apply IH; [exact Hwf'|]. unfold route. rewrite Hm. exact Hb.
Qed.

Lemma record_after_get readings : forall (d : pydict) k,
  dict_get k (record_after readings d)
  = match latest k readings with
    | Some x => Some (PyFloat x)
    | None => dict_get k d
    end.
Proof.
  induction readings as [|r readings IH]; intros d k; [reflexivity|].
  change (record_after (r :: readings) d)
    with (record_after readings (dict_set r.1 (PyFloat r.2) d)).
  rewrite IH. unfold latest. cbn [List.filter].
  set (rest := List.map snd (List.filter _ readings)).
  destruct (decide (r.1 = k)) as [Heq|Hne].
  - rewrite bool_decide_eq_true_2 by exact Heq. cbn [List.map snd].
    fold rest. destruct rest as [|y rest'] eqn:Hrest.
    + cbn. rewrite <- Heq. apply dict_get_set_eq.
    + rewrite last_cons_cons.
      destruct (list.last (y :: rest')) eqn:Hl; [reflexivity|].
      apply last_None in Hl. discriminate Hl.
  - rewrite bool_decide_eq_false_2 by exact Hne. fold rest.
    destruct (list.last rest); [reflexivity|]. apply dict_get_set_ne, Hne.
Qed.

End LineReadings.

(** X3. Whatever the line (good, malformed or undecodable) and whatever
    happened before, the buffer of each graph afterwards shows the last
    [capacity] values of what it showed before followed by the values the
    line's applied readings send to it, in their order; its capacity is
    unchanged. *)
Theorem line_slides_buffers {F : FloatOps} (evs : list event) (data : list byte)
    (i : nat) (b : CircularBuffer) :
  let w := run evs SerialPlotterWindow_init in
  let w' := fst (process_line data w) in
  data_buffers w !! i = Some b ->
  exists b', data_buffers w' !! i = Some b' /\
    capacity b' = capacity b /\
    get_data b'
    = last_n (capacity b) (get_data b ++ values_for i (line_readings data)).
Proof.
  intros w w' Hb. pose proof (run_wf evs) as Hwf. fold w in Hwf.
  destruct (process_line_applies data w Hwf) as [_ Hbs].
  unfold w'. rewrite Hbs.
  apply buffers_after_lookup; [apply (wf_buffers _ Hwf) | exact Hb].
Qed.

(** The red channel of the main program receives two values in one line. *)
Lemma line_slides_buffers_witness :
  let w := run (F := IntegerFloat)
             [AddGraph; AddGraph; ReadyRead [bytes "R:1,C:9"]]
             SerialPlotterWindow_init in
  let w' := fst (process_line (bytes "R:2,X:5,R:3,G:oops,R:4") w) in
  exists b b',
    data_buffers w !! 1 = Some b /\ get_data b = [num 1] /\
    data_buffers w' !! 1 = Some b' /\
    capacity b' = capacity b /\
    get_data b' = [num 1; num 2; num 3].
Proof.
  intros w w'.
  assert (Hb : data_buffers w !! 1 = Some (fst (push (num 1) (CircularBuffer_init 1000))))
    by (vm_compute; reflexivity).
  destruct (line_slides_buffers
              [AddGraph; AddGraph; ReadyRead [bytes "R:1,C:9"]]
              (bytes "R:2,X:5,R:3,G:oops,R:4") 1 _ Hb) as (b' & Hl & Hc & Hd).
  eexists. exists b'. split; [exact Hb|]. split; [vm_compute; reflexivity|].
  split; [exact Hl|]. split; [exact Hc|].
  rewrite Hd. vm_compute. reflexivity.
Defined.

(** X4. Whatever the line and whatever happened before, the value the current
    record has under a name afterwards is the value of the last applied
    reading of that name in the line, and the value it had before when the
    line applies no reading of that name. *)
Theorem line_last_reading_wins {F : FloatOps} (evs : list event)
    (data : list byte) (name : pystr) :
  let w := run evs SerialPlotterWindow_init in
  let w' := fst (process_line data w) in
  dict_get name (current w')
  = match latest name (line_readings data) with
    | Some x => Some (PyFloat x)
    | None => dict_get name (current w)
    end.
Proof.
  intros w w'. pose proof (run_wf evs) as Hwf. fold w in Hwf.
  destruct (process_line_applies data w Hwf) as [Hcur _].
  unfold w'. rewrite Hcur. apply record_after_get.
Qed.

(** ** When a line stores a record *)

Section EmissionFacts.
Context {F : FloatOps}.

Lemma raise_flags_stdout is_data w : stdout (raise_flags is_data w) = stdout w.
Proof. destruct is_data as [[] []], w; reflexivity. Qed.

Lemma emit_stdout w : stdout (emit w) = stdout w.
Proof. destruct w; reflexivity. Qed.

Lemma printed_stdout o w : stdout (printed o w) = stdout w ++ [o].
Proof. destruct w; reflexivity. Qed.

End EmissionFacts.

(** X5. A line that is not malformed, after any events: it raises and
    reports nothing and prints only its text; its readings are applied; it
    stores a record exactly when, counting the flags left by earlier lines,
    a PPG reading and an accelerometer reading have arrived and no value of
    the current record is zero.  The record stored is a copy of the current
    record under the next index, and both flags go down; otherwise the flags
    stay as raised. *)
Theorem good_line_stores_iff {F : FloatOps} (evs : list event) (data : list byte) :
  let w := run evs SerialPlotterWindow_init in
  let w' := fst (process_line data w) in
  let readings := line_readings data in
  let d := record_after readings (current w) in
  let p := ppg_updated w || has_group ppg_names readings in
  let a := acc_updated w || has_group acc_names readings in
  malformed_line data = false ->
  process_line data w = (w', inr tt) /\
  (exists decoded, decode_utf8 data = inr decoded /\
                   stdout w' = stdout w ++ [RawLine (strip decoded)]) /\
  current w' = d /\
  if p && a && forallb ne0 (dict_values d)
  then data_records w'
       = data_records w ++ [((sample_count w + 1)%Z, length (store w))] /\
       deref w' (length (store w)) = d /\
       ppg_updated w' = false /\ acc_updated w' = false
  else data_records w' = data_records w /\
       ppg_updated w' = p /\ acc_updated w' = a.
Proof.
  intros w w' readings d p a Hm. pose proof (run_wf evs) as Hwf. fold w in Hwf.
  destruct (not_malformed data Hm) as (decoded & Hd & Hok & Hr).
  pose proof (good_line data decoded w Hwf Hd Hok) as Hg. cbn zeta in Hg.
  rewrite <- Hr in Hg. fold readings in Hg. rewrite marks_spec in Hg.
  cbn [fst snd orb] in Hg.
  rewrite (orb_comm (has_group ppg_names readings)) in Hg.
  rewrite (orb_comm (has_group acc_names readings)) in Hg.
  fold p a d w' in Hg.
  destruct Hg as (_ & Hp & Hcur & Hcase).
  split; [exact Hp|]. split.
  { exists decoded. split; [exact Hd|].
    destruct (process_line_good data decoded w Hwf Hd Hok)
      as (w1 & Hff & _ & _ & _ & Heq).
    unfold w'. rewrite Heq. cbn zeta. cbn [fst].
    destruct (emits _); rewrite ?emit_stdout, raise_flags_stdout,
      (ff_stdout _ _ Hff), printed_stdout; reflexivity. }
  split; [exact Hcur|].
  destruct (p && a && forallb ne0 (dict_values d)).
  - destruct Hcase as (H1 & H2 & _ & H3 & H4). auto.
  - destruct Hcase as (H1 & _ & H3 & H4). auto.
Qed.

(** All seven channels in one line, into the window of the main program. *)
Lemma good_line_stores_iff_witness :
  let evs := [AddGraph; AddGraph; AddGraph; AddGraph; AddGraph; AddGraph; AddGraph] in
  let data := bytes "C:1,R:2,IR:3,G:4,X:5,Y:6,Z:7" in
  let w := run (F := IntegerFloat) evs SerialPlotterWindow_init in
  let w' := fst (process_line data w) in
  malformed_line (F := IntegerFloat) data = false /\
  data_records w' = [(1%Z, 1)] /\
  ppg_updated w' = false /\ acc_updated w' = false.
Proof.
  intros evs data w w'.
  assert (Hm : malformed_line (F := IntegerFloat) data = false)
    by (vm_compute; reflexivity).
  split; [exact Hm|].
  destruct (good_line_stores_iff evs data Hm) as (_ & _ & _ & Hcase).
  fold w w' in Hcase.
  replace (_ && _ && _) with true in Hcase by (vm_compute; reflexivity).
  destruct Hcase as (H1 & _ & H3 & H4).
  split; [rewrite H1; vm_compute; reflexivity | auto].
Defined.

(** ** Lines without a colon *)

Section ColonFreeLines.
Context {F : FloatOps}.

Lemma contains_lstrip c s : contains c (lstrip s) = true -> contains c s = true.
Proof.
  induction s as [|ch s IH]; cbn [lstrip]; [auto|].
  destruct (isspace ch); [|auto].
  intros Hc. change (contains c (ch :: s)) with (N.eqb c ch || contains c s).
  rewrite (IH Hc). apply orb_true_r.
Qed.

Lemma contains_rev c s : contains c (rev s) = contains c s.
Proof.
  unfold contains. induction s as [|ch s IH]; cbn; [reflexivity|].
  rewrite existsb_app, IH. cbn. rewrite orb_false_r. apply orb_comm.
Qed.

Lemma contains_strip c s : contains c s = false -> contains c (strip s) = false.
Proof.
  intros Hs. unfold strip, rstrip.
  destruct (contains c (rev (lstrip (rev (lstrip s))))) eqn:Hc; [|reflexivity].
  rewrite contains_rev in Hc. apply contains_lstrip in Hc.
  rewrite contains_rev in Hc. apply contains_lstrip in Hc. congruence.
Qed.

Lemma split_pieces_without c sep s :
  contains c s = false ->
  Forall (fun piece => contains c piece = false) (split sep s).
Proof.
  induction s as [|ch s IH]; cbn [split]; intros Hc.
  - constructor; [reflexivity | constructor].
  - change (contains c (ch :: s)) with (N.eqb c ch || contains c s) in Hc.
    apply orb_false_iff in Hc as [Hch Hs]. specialize (IH Hs).
    assert (Hcons : forall piece, contains c piece = false ->
                                  contains c (ch :: piece) = false).
    { intros piece Hp.
      change (contains c (ch :: piece)) with (N.eqb c ch || contains c piece).
      rewrite Hch, Hp. reflexivity. }
    destruct (N.eqb ch sep).
    + constructor; [reflexivity | exact IH].
    + destruct (split sep s) as [|piece pieces].
      * constructor; [apply Hcons; reflexivity | constructor].
      * inversion IH; subst. constructor; [apply Hcons|]; assumption.
Qed.

Lemma for_fields_no_colon values : forall is_data w,
  Forall (fun value => contains colon value = false) values ->
  for_fields values is_data w = (w, inr is_data).
Proof.
  induction values as [|value values IH]; intros is_data w Hv; [reflexivity|].
  inversion Hv as [|? ? Hc Hv']; subst.
  rewrite for_fields_cons. unfold handle_field. rewrite Hc. unfold ret.
  apply IH, Hv'.
Qed.

Lemma emits_printed o w : emits (printed o w) = emits w.
Proof. destruct w; reflexivity. Qed.

End ColonFreeLines.

(** X6. In any window, a line that decodes and contains no colon is never an
    error: it prints its text, leaves the current record, the buffers and the
    flags as they are, and runs the emission step on them, so that it stores
    a record exactly when both flags were already up and no value of the
    current record is zero. *)
Theorem colon_free_line {F : FloatOps} (w : window) (data : list byte)
    (decoded : pystr) :
  decode_utf8 data = inr decoded ->
  contains colon decoded = false ->
  process_line data w
  = (let w0 := printed (RawLine (strip decoded)) w in
     if emits w then emit w0 else w0, inr tt).
Proof.
  intros Hd Hc. rewrite process_line_eq, line_body_eq, Hd. cbn zeta.
  rewrite for_fields_no_colon
    by (apply split_pieces_without, contains_strip, Hc).
  change (raise_flags (false, false) ?x) with x.
  rewrite store_record_eq, emits_printed.
  destruct (emits w); reflexivity.
Qed.

(** A zero blocks the sample, a malformed line then sets the missing value
    without running the emission step, and a line of plain text stores the
    pending record. *)
Lemma colon_free_line_witness :
  let w := run (F := IntegerFloat)
             [ReadyRead [bytes "C:1,R:2,IR:3,G:4"; bytes "X:5,Y:6";
                         bytes "Z:7,R:abc"]]
             SerialPlotterWindow_init in
  let w' := fst (process_line (bytes "hello") w) in
  decode_utf8 (bytes "hello") = inr (str "hello") /\
  contains colon (str "hello") = false /\
  data_records w = [] /\ emits w = true /\
  w' = emit (printed (RawLine (str "hello")) w) /\
  data_records w' = [(1%Z, 1)].
Proof.
  intros w w'.
  assert (Hd : decode_utf8 (bytes "hello") = inr (str "hello")) by reflexivity.
  assert (Hc : contains colon (str "hello") = false) by reflexivity.
  assert (He : emits w = true) by (vm_compute; reflexivity).
  split; [exact Hd|]. split; [exact Hc|]. split; [reflexivity|].
  split; [exact He|].
  pose proof (colon_free_line w (bytes "hello") (str "hello") Hd Hc) as H.
  cbn zeta in H. rewrite He in H.
  assert (Hw' : w' = emit (printed (RawLine (str "hello")) w)).
  { unfold w'. rewrite H. reflexivity. }
  split; [exact Hw'|]. rewrite Hw'. vm_compute. reflexivity.
Defined.

(** ** Invariants of the stored records and of the configuration *)

Section MoreInvariants.
Context {F : FloatOps}.

Lemma process_line_nonzero data w :
  wf w -> records_nonzero w -> records_nonzero (fst (process_line data w)).
Proof.
  intros Hwf Hnz. destruct (process_line_wf data w Hwf) as (w1 & -> & _ & Hs).
  cbn [fst]. destruct Hs as (_ & Hold & _ & Hcase).
  assert (Hkeep : Forall (fun record =>
                    forallb ne0 (dict_values (deref w1 record.2)) = true)
                    (data_records w)).
  { unfold records_nonzero in Hnz. rewrite Forall_forall in Hnz.
    apply Forall_forall. intros [k a] Hin. cbn [snd].
    destruct (stored_address w k a Hwf) as [Hlt Hne];
      [apply list_elem_of_In, Hin|].
    rewrite (Hold a Hne Hlt). apply (Hnz (k, a) Hin). }
  unfold records_nonzero.
  destruct Hcase as [(-> & _) | (-> & _ & Hnew & Hall & _)]; [exact Hkeep|].
  apply Forall_app. split; [exact Hkeep|].
  constructor; [|constructor]. cbn [snd]. rewrite Hnew. exact Hall.
Qed.

Lemma after_lines_nonzero lines : forall w,
  wf w -> records_nonzero w -> records_nonzero (after_lines lines w).
Proof.
  induction lines as [|data lines IH]; intros w Hwf Hnz; [exact Hnz|].
  change (after_lines (data :: lines) w)
    with (after_lines lines (fst (process_line data w))).
  apply IH; [|apply process_line_nonzero; assumption].
  destruct (process_line_wf data w Hwf) as (w1 & -> & Hwf1 & _). exact Hwf1.
Qed.

Lemma handle_nonzero ev w :
  wf w -> records_nonzero w -> records_nonzero (fst (handle ev w)).
Proof.
  intros Hwf Hnz. destruct ev as [|lines|filename fs|selected]; cbn [handle].
  - destruct w; exact Hnz.
  - destruct (receive_serial_data_wf lines w Hwf) as [-> _].
    apply after_lines_nonzero; assumption.
  - pose proof (core_kept_export_data filename fs w) as Hsc.
    unfold records_nonzero. rewrite (sc_data_records _ _ Hsc).
    eapply Forall_impl; [|exact Hnz]. cbn. intros record Hr.
    rewrite (same_core_deref _ _ _ Hsc). exact Hr.
  - rewrite change_buffer_size_eq.
    destruct (getitem (buffer_sizes w) selected); cbn [fst]; destruct w; exact Hnz.
Qed.

Lemma run_invariant (P : window -> Prop) :
  (forall ev w, wf w -> P w -> P (fst (handle ev w))) ->
  forall evs w, wf w -> P w -> P (run evs w).
Proof.
  intros Hstep evs. induction evs as [|ev evs IH]; intros w Hwf Hp; [exact Hp|].
  apply IH; [apply wf_handle, Hwf | apply Hstep; assumption].
Qed.

Lemma after_lines_app l1 l2 (w : window) :
  after_lines (l1 ++ l2) w = after_lines l2 (after_lines l1 w).
Proof. apply fold_left_app. Qed.

Lemma route_capacity c r (bs : list CircularBuffer) :
  Forall cb_wf bs -> Forall (fun b => capacity b = c) bs ->
  Forall (fun b => capacity b = c) (route r bs).
Proof.
  intros Hwf Hc. unfold route. destruct (dict_get _ sensor_map) as [i|]; [|exact Hc].
  destruct (bs !! i) as [b|] eqn:Hb; [|exact Hc].
  apply Forall_insert; [exact Hc|].
  assert (Hwfb : cb_wf b) by (eapply Forall_lookup_1; [exact Hwf | exact Hb]).
  destruct (push_window r.2 b Hwfb) as (_ & -> & _).
  exact (Forall_lookup_1 (fun b => capacity b = c) bs i b Hc Hb).
Qed.

Lemma buffers_after_capacity c readings : forall bs : list CircularBuffer,
  Forall cb_wf bs -> Forall (fun b => capacity b = c) bs ->
  Forall (fun b => capacity b = c) (buffers_after readings bs).
Proof.
  induction readings as [|r readings IH]; intros bs Hwf Hc; [exact Hc|].
  change (buffers_after (r :: readings) bs)
    with (buffers_after readings (route r bs)).
  apply IH; [apply route_wf, Hwf | apply route_capacity; assumption].
Qed.

(** A line changes neither the sizes on offer nor the current capacity. *)
Lemma process_line_sizes data w :
  wf w ->
  buffer_sizes (fst (process_line data w)) = buffer_sizes w /\
  buffer_capacity (fst (process_line data w)) = buffer_capacity w.
Proof.
  intros Hwf. destruct (process_line_outcome data w Hwf) as (w' & -> & Ho).
  cbn [fst].
  destruct Ho as [Hd -> | decoded pre bad post w1 d Hd Hs Hok Hbad Hf ->
                 | decoded w1 d Hd Hok Hf He -> | decoded w1 d Hd Hok Hf He ->].
  - split; destruct w; reflexivity.
  - destruct (for_fields_session _ _ _ _ _ _ Hf) as ([] & _).
    split; [transitivity (buffer_sizes w1) | transitivity (buffer_capacity w1)];
      try assumption; destruct w1; reflexivity.
  - destruct (for_fields_session _ _ _ _ _ _ Hf) as ([] & _).
    split; [transitivity (buffer_sizes w1) | transitivity (buffer_capacity w1)];
      try assumption; destruct d as [[] []], w1; reflexivity.
  - destruct (for_fields_session _ _ _ _ _ _ Hf) as ([] & _).
    split; [transitivity (buffer_sizes w1) | transitivity (buffer_capacity w1)];
      try assumption; destruct d as [[] []], w1; reflexivity.
Qed.

Lemma process_line_configured data w :
  wf w -> configured w -> configured (fst (process_line data w)).
Proof.
  intros Hwf (Hs & Hc & Hb).
  destruct (process_line_sizes data w Hwf) as [Hs' Hc'].
  destruct (process_line_applies data w Hwf) as [_ Hbs].
  unfold configured. rewrite Hs', Hc', Hbs.
  split; [exact Hs|]. split; [exact Hc|].
  apply buffers_after_capacity; [apply (wf_buffers _ Hwf) | exact Hb].
Qed.

Lemma handle_configured ev w :
  wf w -> configured w -> configured (fst (handle ev w)).
Proof.
  intros Hwf Hcfg. destruct ev as [|lines|filename fs|selected]; cbn [handle].
  - destruct Hcfg as (Hs & Hc & Hb). destruct w. cbn in *.
    split; [exact Hs|]. split; [exact Hc|]. cbn.
    apply Forall_app. split; [exact Hb|]. repeat constructor.
  - destruct (receive_serial_data_wf lines w Hwf) as [-> _]. cbn [fst].
    clear -Hwf Hcfg. revert w Hwf Hcfg.
    induction lines as [|data lines IH]; intros w Hwf Hcfg; [exact Hcfg|].
    change (after_lines (data :: lines) w)
      with (after_lines lines (fst (process_line data w))).
    apply IH; [|apply process_line_configured; assumption].
    destruct (process_line_wf data w Hwf) as (w1 & -> & Hwf1 & _). exact Hwf1.
  - pose proof (core_kept_export_data filename fs w) as [].
    destruct Hcfg as (Hs & Hc & Hb). unfold configured.
    rewrite sc_buffer_sizes0, sc_buffer_capacity0, sc_data_buffers0. auto.
  - rewrite change_buffer_size_eq.
    destruct (getitem (buffer_sizes w) selected) as [e|cap] eqn:Hg; [exact Hcfg|].
    apply getitem_In in Hg. destruct Hcfg as (Hs & _ & _).
    cbn [fst]. destruct w. cbn in *.
    split; [exact Hs|]. split; [exact Hg|].
    apply Forall_map_const. reflexivity.
Qed.

Lemma configured_init : configured SerialPlotterWindow_init.
Proof.
  split; [reflexivity|]. split; [|constructor].
  cbn. apply list_elem_of_In. left. reflexivity.
Qed.

Lemma run_configured evs : configured (run evs SerialPlotterWindow_init).
Proof.
  apply (run_invariant configured handle_configured);
    [apply wf_init | apply configured_init].
Qed.

End MoreInvariants.

(** X7. After any events, every record of the session store has the seven
    channels among its keys and holds no zero. *)
Theorem stored_records_complete_nonzero {F : FloatOps} (evs : list event) :
  let w := run evs SerialPlotterWindow_init in
  Forall (fun record =>
            has_channels (deref w record.2) /\
            forallb ne0 (dict_values (deref w record.2)) = true)
    (data_records w).
Proof.
  intros w. pose proof (run_wf evs) as Hwf. fold w in Hwf.
  assert (Hnz : records_nonzero w).
  { apply (run_invariant records_nonzero handle_nonzero); [apply wf_init|].
    constructor. }
  pose proof (wf_record_channels _ Hwf) as Hch.
  unfold records_nonzero in Hnz. unfold dict_values in Hch.
  rewrite Forall_forall in Hnz, Hch. apply Forall_forall. intros record Hin.
  split; [|apply Hnz, Hin].
  apply Hch, in_map, Hin.
Qed.

(** X8. After any events, lines delivered in one call of
    [receive_serial_data] or in two give the same window, and no exception
    leaves either call. *)
Theorem lines_batching {F : FloatOps} (evs : list event)
    (lines1 lines2 : list (list byte)) :
  let w := run evs SerialPlotterWindow_init in
  receive_serial_data (lines1 ++ lines2) w
  = receive_serial_data lines2 (fst (receive_serial_data lines1 w)) /\
  snd (receive_serial_data (lines1 ++ lines2) w) = inr tt /\
  run [ReadyRead (lines1 ++ lines2)] w
  = run [ReadyRead lines1; ReadyRead lines2] w.
Proof.
  intros w. pose proof (run_wf evs) as Hwf. fold w in Hwf.
  destruct (receive_serial_data_wf (lines1 ++ lines2) w Hwf) as [H12 _].
  destruct (receive_serial_data_wf lines1 w Hwf) as [H1 Hwf1].
  destruct (receive_serial_data_wf lines2 _ Hwf1) as [H2 _].
  assert (Heq : receive_serial_data (lines1 ++ lines2) w
                = receive_serial_data lines2 (fst (receive_serial_data lines1 w))).
  { rewrite H12, H1. cbn [fst]. rewrite H2, after_lines_app. reflexivity. }
  split; [exact Heq|]. split; [rewrite H12; reflexivity|].
  cbn [run fold_left handle]. rewrite Heq. reflexivity.
Qed.

(** X9. After any events, the sizes on offer are the five of the
    constructor, the current capacity is one of them, every buffer has this
    capacity with an array of that length and its cursor inside, and there
    are as many plot items as buffers. *)
Theorem configuration_invariant {F : FloatOps} (evs : list event) :
  let w := run evs SerialPlotterWindow_init in
  buffer_sizes w = [1000; 3000; 5000; 7000; 10000] /\
  buffer_capacity w ∈ buffer_sizes w /\
  Forall (fun b => capacity b = buffer_capacity w /\
                   length (buffer b) = buffer_capacity w /\
                   index b < buffer_capacity w)
    (data_buffers w) /\
  length (plot_data_items w) = length (data_buffers w).
Proof.
  intros w. pose proof (run_wf evs) as Hwf. fold w in Hwf.
  destruct (run_configured evs) as (Hs & Hc & Hb). fold w in Hs, Hc, Hb.
  split; [exact Hs|]. split; [exact Hc|]. split; [|apply (wf_plots _ Hwf)].
  pose proof (wf_buffers _ Hwf) as Hcb.
  rewrite Forall_forall in Hb, Hcb. apply Forall_forall. intros b Hin.
  specialize (Hb b Hin). destruct (Hcb b Hin) as [Hl Hi].
  rewrite <- Hb. auto.
Qed.

(** X10. After any events, a selection between -5 and 4 (Python counts
    negative positions from the end) installs the entry of the five sizes at
    that position as the current capacity; any other selection raises
    IndexError and changes nothing. *)
Theorem selection_range {F : FloatOps} (evs : list event) (selected : Z) :
  let w := run evs SerialPlotterWindow_init in
  let w' := fst (change_buffer_size selected w) in
  ((-5 <= selected <= 4)%Z ->
   exists cap,
     getitem [1000; 3000; 5000; 7000; 10000] selected = inr cap /\
     change_buffer_size selected w = (w', inr tt) /\
     buffer_capacity w' = cap) /\
  ((selected < -5 \/ 4 < selected)%Z ->
   change_buffer_size selected w = (w, inl IndexError)).
Proof.
  intros w w'. destruct (run_configured evs) as (Hs & _). fold w in Hs.
  change (buffer_sizes SerialPlotterWindow_init)
    with [1000; 3000; 5000; 7000; 10000] in Hs.
  unfold w'. rewrite change_buffer_size_eq, Hs. split.
  - intros Hr.
    assert (Hcases : (selected = -5 \/ selected = -4 \/ selected = -3 \/
                      selected = -2 \/ selected = -1 \/ selected = 0 \/
                      selected = 1 \/ selected = 2 \/ selected = 3 \/
                      selected = 4)%Z) by lia.
    destruct Hcases as [->|[->|[->|[->|[->|[->|[->|[->|[->| ->]]]]]]]]];
      (eexists; split; [reflexivity|]; cbn [fst];
       split; [reflexivity | destruct w; reflexivity]).
  - intros Hr.
    assert (Hg : getitem [1000; 3000; 5000; 7000; 10000] selected
                 = inl IndexError).
    { unfold getitem. cbn [length]. destruct (Z.ltb_spec selected 0) as [Hneg|Hpos].
      - replace (Z.of_nat 5 + selected <? 0)%Z with true
          by (symmetry; apply Z.ltb_lt; lia). reflexivity.
      - replace (selected <? 0)%Z with false by (symmetry; apply Z.ltb_ge; lia).
        rewrite lookup_ge_None_2; [reflexivity|]. cbn [length]. lia. }
    rewrite Hg. reflexivity.
Qed.

(** The last size, selected from the end, and a selection out of range. *)
Lemma selection_range_witness :
  let w := main_window (F := IntegerFloat) in
  (-5 <= -1 <= 4)%Z /\ (4 < 5)%Z /\
  buffer_capacity (fst (change_buffer_size (-1) w)) = 10000 /\
  change_buffer_size 5 w = (w, inl IndexError).
Proof.
  intros w.
  assert (H1 : (-5 <= -1 <= 4)%Z) by lia.
  assert (H2 : (4 < 5)%Z) by lia.
  split; [exact H1|]. split; [exact H2|].
  pose proof (selection_range (F := IntegerFloat)
                [AddGraph; AddGraph; AddGraph; AddGraph; AddGraph; AddGraph; AddGraph]
                (-1)) as [Hin _].
  pose proof (selection_range (F := IntegerFloat)
                [AddGraph; AddGraph; AddGraph; AddGraph; AddGraph; AddGraph; AddGraph]
                5) as [_ Hout].
  destruct (Hin H1) as (cap & Hg & _ & Hc).
  split; [|apply Hout; right; exact H2].
  unfold w, main_window. rewrite Hc. injection Hg as <-. reflexivity.
Defined.

(** ** What the plot items show *)

Section PlotFacts.
Context {F : FloatOps}.

Lemma plots_fresh_ext w w' :
  data_buffers w' = data_buffers w ->
  plot_data_items w' = plot_data_items w ->
  plots_fresh w -> plots_fresh w'.
Proof. unfold plots_fresh. intros -> ->. auto. Qed.

Lemma map_get_data_insert (bs : list CircularBuffer) i b :
  List.map get_data (<[i := b]> bs) = <[i := get_data b]> (List.map get_data bs).
Proof.
  change (get_data <$> <[i := b]> bs = <[i := get_data b]> (get_data <$> bs)).
  apply list_fmap_insert.
Qed.

Lemma apply_reading_fresh name x is_data w :
  wf w -> plots_fresh w ->
  plots_fresh (fst (apply_reading name x is_data w)).
Proof.
  intros Hwf Hfresh.
  destruct (apply_reading_wf name x is_data w Hwf) as (w' & -> & _ & _ & _ & Hr).
  cbn [fst]. unfold routed in Hr.
  destruct (dict_get name sensor_map) as [i|].
  - destruct (data_buffers w !! i) as [b|].
    + destruct Hr as (b' & _ & Hb & Hp & _). unfold plots_fresh in *.
      rewrite Hb, Hp, Hfresh. symmetry. apply map_get_data_insert.
    + destruct Hr as [Hb Hp]. apply (plots_fresh_ext w); assumption.
  - destruct Hr as [Hb Hp]. apply (plots_fresh_ext w); assumption.
Qed.

Lemma for_fields_fresh values : forall is_data w,
  wf w -> plots_fresh w -> plots_fresh (fst (for_fields values is_data w)).
Proof.
  induction values as [|value values IH]; intros is_data w Hwf Hfresh;
    [exact Hfresh|].
  rewrite for_fields_cons, handle_field_eq.
  pose proof (token_of_second_part value) as Hsp.
  destruct (token_of value) as [|name x| |]; try contradiction.
  - apply IH; assumption.
  - pose proof (apply_reading_fresh name x is_data w Hwf Hfresh) as Hf1.
    destruct (apply_reading_wf name x is_data w Hwf) as (w1 & Ha & _ & Hwf1 & _).
    rewrite Ha in *. cbn [fst] in Hf1. apply IH; assumption.
  - exact Hfresh.
Qed.

Lemma process_line_fresh data w :
  wf w -> plots_fresh w -> plots_fresh (fst (process_line data w)).
Proof.
  intros Hwf Hfresh.
  assert (Hp : forall o, plots_fresh (printed o w))
    by (intros o; apply (plots_fresh_ext w); [destruct w; reflexivity.. | exact Hfresh]).
  rewrite process_line_eq, line_body_eq.
  destruct (decode_utf8 data) as [e|decoded].
  - destruct (parse_errors e); cbn [fst]; [apply Hp | exact Hfresh].
  - cbn zeta.
    pose proof (for_fields_fresh (split comma (strip decoded)) (false, false) _
                  (wf_printed (RawLine (strip decoded)) w Hwf) (Hp _)) as Hf.
    destruct (for_fields _ _ _) as [w1 [e|d]]; cbn [fst] in Hf.
    + destruct (parse_errors e); cbn [fst]; [|exact Hf].
      apply (plots_fresh_ext w1); [destruct w1; reflexivity.. | exact Hf].
    + rewrite store_record_eq. cbn [fst].
      assert (Hf2 : plots_fresh (raise_flags d w1))
        by (apply (plots_fresh_ext w1);
            [destruct d as [[] []], w1; reflexivity.. | exact Hf]).
      destruct (emits _); [|exact Hf2].
      apply (plots_fresh_ext (raise_flags d w1));
        [destruct (raise_flags d w1); reflexivity.. | exact Hf2].
Qed.

Lemma handle_fresh ev w :
  no_resize ev -> wf w -> plots_fresh w -> plots_fresh (fst (handle ev w)).
Proof.
  intros Hev Hwf Hfresh.
  destruct ev as [|lines|filename fs|selected]; cbn [handle]; [| | |destruct Hev].
  - unfold plots_fresh in *. destruct w. cbn in *.
    rewrite map_app, Hfresh. reflexivity.
  - destruct (receive_serial_data_wf lines w Hwf) as [-> _]. cbn [fst].
    clear -Hwf Hfresh. revert w Hwf Hfresh.
    induction lines as [|data lines IH]; intros w Hwf Hfresh; [exact Hfresh|].
    change (after_lines (data :: lines) w)
      with (after_lines lines (fst (process_line data w))).
    apply IH; [|apply process_line_fresh; assumption].
    destruct (process_line_wf data w Hwf) as (w1 & -> & Hwf1 & _). exact Hwf1.
  - pose proof (core_kept_export_data filename fs w) as [].
    apply (plots_fresh_ext w); assumption.
Qed.

Lemma run_fresh evs : forall w,
  Forall no_resize evs -> wf w -> plots_fresh w -> plots_fresh (run evs w).
Proof.
  induction evs as [|ev evs IH]; intros w Hev Hwf Hfresh; [exact Hfresh|].
  inversion Hev; subst.
  apply IH; [assumption | apply wf_handle, Hwf | apply handle_fresh; assumption].
Qed.

End PlotFacts.

(** X11. As long as the buffer size is not changed, every plot item shows
    exactly what [get_data] of its buffer returns: after any graphs, lines
    and exports. *)
Theorem plots_show_buffers {F : FloatOps} (evs : list event) :
  Forall no_resize evs ->
  plots_fresh (run evs SerialPlotterWindow_init).
Proof.
  intros Hev. apply run_fresh; [exact Hev | apply wf_init | reflexivity].
Qed.

(** Two graphs and a line for both. *)
Lemma plots_show_buffers_witness :
  let evs := [AddGraph; AddGraph; ReadyRead [bytes "R:2,C:1,R:3"];
              ExportClicked (str "out.csv") IoOk] in
  let w := run (F := IntegerFloat) evs SerialPlotterWindow_init in
  Forall no_resize evs /\
  plot_data_items w = [[num 1]; [num 2; num 3]] /\
  plots_fresh w.
Proof.
  intros evs w.
  assert (Hev : Forall no_resize evs) by (repeat constructor).
  split; [exact Hev|]. split; [vm_compute; reflexivity|].
  exact (plots_show_buffers evs Hev).
Defined.

(** X12. After any events, a successful change of the buffer size leaves the
    plot items as they are: they keep showing the data of the discarded
    buffers, and agree with the new, empty buffers only if they were all
    empty. *)
Theorem resize_keeps_plots {F : FloatOps} (evs : list event) (selected : Z)
    (cap : nat) :
  let w := run evs SerialPlotterWindow_init in
  let w' := fst (change_buffer_size selected w) in
  getitem (buffer_sizes w) selected = inr cap ->
  plot_data_items w' = plot_data_items w /\
  (plots_fresh w' <-> Forall (fun shown => shown = []) (plot_data_items w)).
Proof.
  intros w w' Hg. pose proof (run_wf evs) as Hwf. fold w in Hwf.
  pose proof (wf_plots _ Hwf) as Hlen.
  assert (Hp : plot_data_items w' = plot_data_items w).
  { unfold w'. rewrite change_buffer_size_eq, Hg. destruct w; reflexivity. }
  assert (Hb : data_buffers w'
               = repeat (CircularBuffer_init cap) (length (plot_data_items w))).
  { unfold w'. rewrite change_buffer_size_eq, Hg. cbn [fst].
    rewrite Hlen, <- (map_const_seq _ _ 0). destruct w; reflexivity. }
  split; [exact Hp|]. unfold plots_fresh. rewrite Hp, Hb.
  generalize (plot_data_items w). clear. intros plots.
  induction plots as [|shown plots IH]; cbn.
  - split; [constructor | reflexivity].
  - split.
    + intros [= -> Hrest]. constructor; [reflexivity | apply IH, Hrest].
    + intros Hall. inversion Hall; subst. f_equal. apply IH. assumption.
Qed.

(** A graph that shows a value when the size is changed. *)
Lemma resize_keeps_plots_witness :
  let evs := [AddGraph; ReadyRead [bytes "C:1"]] in
  let w := run (F := IntegerFloat) evs SerialPlotterWindow_init in
  let w' := fst (change_buffer_size 1 w) in
  getitem (buffer_sizes w) 1 = inr 3000 /\
  plot_data_items w' = [[num 1]] /\
  List.map get_data (data_buffers w') = [[]] /\
  ~ plots_fresh w'.
Proof.
  intros evs w w'.
  assert (Hg : getitem (buffer_sizes w) 1 = inr 3000) by (vm_compute; reflexivity).
  destruct (resize_keeps_plots evs 1 3000 Hg) as [Hp Hiff].
  fold w w' in Hp, Hiff.
  split; [exact Hg|]. split; [rewrite Hp; vm_compute; reflexivity|].
  split; [vm_compute; reflexivity|].
  intros Hfresh. apply Hiff in Hfresh.
  replace (plot_data_items w) with [[num 1]] in Hfresh by (vm_compute; reflexivity).
  inversion Hfresh as [|? ? Hx _]. discriminate Hx.
Defined.

(** ** More on the export *)

Section ExportFrame.
Context {F : FloatOps}.

Lemma preserved_ret {A} P (x : A) : preserved P (ret x).
Proof. intros w Hp. exact Hp. Qed.

Lemma preserved_raise {A} P e : preserved P (raise (A := A) e).
Proof. intros w Hp. exact Hp. Qed.

Lemma preserved_gets {A} P (f : window -> A) : preserved P (gets f).
Proof. intros w Hp. exact Hp. Qed.

Lemma preserved_bind {A B} P (m : M A) (k : A -> M B) :
  preserved P m -> (forall x, preserved P (k x)) -> preserved P (bind m k).
Proof.
  intros Hm Hk w Hp. unfold bind. specialize (Hm w Hp).
  destruct (m w) as [w' [e|x]]; cbn [fst] in *; [exact Hm | apply Hk, Hm].
Qed.

Lemma preserved_try_except P body handled handler :
  preserved P body -> (forall e, preserved P (handler e)) ->
  preserved P (try_except body handled handler).
Proof.
  intros Hb Hh w Hp. unfold try_except. specialize (Hb w Hp).
  destruct (body w) as [w' [e|[]]]; cbn [fst] in *; [|exact Hb].
  destruct (handled e); [apply Hh, Hb | exact Hb].
Qed.

(** The file [other] is not the one being written. *)
Lemma export_data_other_file filename fs other content :
  other <> filename ->
  preserved (fun w => file_content other w = content) (export_data filename fs).
Proof.
  intros Hne. unfold file_content.
  assert (Hprint : forall o, preserved (fun w => dict_get other (files w) = content)
                               (print o))
    by (intros o w Hp; destruct w; exact Hp).
  assert (Hmsg : forall b, preserved (fun w => dict_get other (files w) = content)
                             (message b))
    by (intros b w Hp; destruct w; exact Hp).
  assert (Hset : forall v w, dict_get other (files w) = content ->
            dict_get other (files (set_files (dict_set filename v (files w)) w))
            = content).
  { intros v w Hp. rewrite files_set_files, dict_get_set_ne by congruence.
    exact Hp. }
  assert (Hrow : forall r, preserved (fun w => dict_get other (files w) = content)
                             (writerow filename fs r)).
  { intros r w Hp. unfold writerow.
    destruct fs as [| |n kept]; [| |destruct (_ =? n)]; cbn [fst]; auto. }
  assert (Hrec : forall record names,
            preserved (fun w => dict_get other (files w) = content)
              (record_row record names)).
  { intros record names. induction names as [|name names IH]; cbn [record_row];
      [apply preserved_ret|].
    apply preserved_bind.
    - intros w Hp. unfold record_getitem.
      destruct (dict_get name (deref w record)); exact Hp.
    - intros c. apply preserved_bind; [exact IH | intros; apply preserved_ret]. }
  assert (Hrecs : forall records,
            preserved (fun w => dict_get other (files w) = content)
              (write_records filename fs records)).
  { induction records as [|record records IH]; cbn [write_records];
      [apply preserved_ret|].
    apply preserved_bind; [apply Hrec | intros r].
    apply preserved_bind; [apply Hrow | intros _; exact IH]. }
  unfold export_data.
  apply preserved_bind; [apply preserved_gets | intros n].
  destruct (0 <? n); [|apply Hmsg].
  destruct (bool_decide _); [|apply Hmsg].
  apply preserved_try_except.
  - apply preserved_bind.
    { intros w Hp. unfold open_w, raise, modify. destruct fs; cbn [fst]; auto. }
    intros _. apply preserved_bind; [apply Hrow | intros _].
    apply preserved_bind; [apply preserved_gets | intros records].
    apply preserved_bind; [apply Hrecs | intros _].
    apply preserved_bind; [|intros _; apply Hmsg].
    intros w Hp. unfold close_w, ret. destruct fs; cbn [fst]; auto.
  - intros e. apply preserved_bind; [apply Hprint | intros _; apply Hmsg].
Qed.

(** No exception leaves [export_data]. *)
Lemma export_data_returns filename fs w :
  snd (export_data filename fs w) = inr tt.
Proof.
  unfold export_data, bind, gets.
  destruct (0 <? _); [|reflexivity].
  destruct (bool_decide _); [|reflexivity].
  unfold try_except.
  match goal with |- context [match ?body with _ => _ end] =>
    destruct body as [w' [e|[]]] end; reflexivity.
Qed.

Lemma dict_set_same {K V} `{EqDecision K} (k : K) (v : V) d :
  dict_get k d = Some v -> dict_set k v d = d.
Proof.
  induction d as [|[k' v'] d IH]; cbn; [discriminate|].
  destruct (decide (k = k')) as [->|Hne]; [congruence|].
  intros Hg. f_equal. apply IH, Hg.
Qed.

Lemma set_files_same w : set_files (files w) w = w.
Proof. destruct w; reflexivity. Qed.

Lemma rows_exist records w :
  Forall (fun a => has_channels (deref w a)) records ->
  exists rows, Forall2 (fun a r => is_row (deref w a) r) records rows.
Proof.
  induction 1 as [|a records Ha _ (rows & IH)]; [exists []; constructor|].
  destruct (record_row_ok a channels w Ha) as (r & _ & Hr).
  exists (r :: rows). constructor; assumption.
Qed.

Lemma is_row_unique d r1 r2 : is_row d r1 -> is_row d r2 -> r1 = r2.
Proof.
  unfold is_row. generalize channels. intros names H1. revert r2.
  induction H1 as [|name c1 names r1 (v1 & Hv1 & ->) _ IH]; intros r2 H2;
    inversion H2 as [|? c2 ? r2' (v2 & Hv2 & ->) H2']; subst; [reflexivity|].
  f_equal; [congruence | apply IH, H2'].
Qed.

Lemma rows_unique records w rows1 rows2 :
  Forall2 (fun a r => is_row (deref w a) r) records rows1 ->
  Forall2 (fun a r => is_row (deref w a) r) records rows2 ->
  rows1 = rows2.
Proof.
  intros H1. revert rows2.
  induction H1 as [|a r1 records rows1 Hr1 _ IH]; intros rows2 H2;
    inversion H2; subst; [reflexivity|].
  f_equal; [eapply is_row_unique; eassumption | apply IH; assumption].
Qed.

(** The loop over the records when writing fails: either a call of
    [writerow] raises, or all of them return. *)
Lemma write_records_fails filename n kept records : forall w written,
  Forall (fun a => has_channels (deref w a)) records ->
  dict_get filename (files w) = Some written ->
  write_records filename (IoWriteFails n kept) records w
  = (set_files (dict_set filename kept (files w)) w, inl OSError) \/
  exists content,
    write_records filename (IoWriteFails n kept) records w
    = (set_files (dict_set filename content (files w)) w, inr tt).
Proof.
  induction records as [|record records IH]; intros w written Hc Hw.
  - right. exists written. cbn [write_records].
    rewrite (dict_set_same _ _ _ Hw), set_files_same. reflexivity.
  - inversion Hc as [|? ? Hc1 Hc']; subst.
    destruct (record_row_ok record channels w Hc1) as (r & Hr & _).
    assert (Hstep :
      write_records filename (IoWriteFails n kept) (record :: records) w
      = if length written =? n
        then (set_files (dict_set filename kept (files w)) w, inl OSError)
        else write_records filename (IoWriteFails n kept) records
               (set_files (dict_set filename (written ++ [r]) (files w)) w)).
    { cbn [write_records]. unfold bind at 1. rewrite Hr.
      unfold bind at 1. unfold writerow. rewrite Hw.
      change (default [] (Some written)) with written.
      destruct (length written =? n); reflexivity. }
    rewrite Hstep. clear Hstep.
    destruct (length written =? n); [left; reflexivity|].
    destruct (IH (set_files (dict_set filename (written ++ [r]) (files w)) w)
                (written ++ [r])) as [Hf | (content & Hf)].
    + eapply Forall_impl; [|exact Hc']. cbn. intros a Ha.
      rewrite deref_set_files. exact Ha.
    + rewrite files_set_files. apply dict_get_set_eq.
    + left. rewrite Hf, files_set_files, set_files_set_files, dict_set_set.
      reflexivity.
    + right. exists content.
      rewrite Hf, files_set_files, set_files_set_files, dict_set_set.
      reflexivity.
Qed.

(** An export when writing fails: wherever the error is raised, it is caught
    and reported, and the file is left with what the file system kept. *)
Lemma export_data_write_fails filename n kept w :
  wf w -> data_records w <> [] -> filename <> [] ->
  export_data filename (IoWriteFails n kept) w
  = (set_dialogs (dialogs w ++ [FailedToExport])
       (set_stdout (stdout w ++ [ExportErrorLine OSError])
          (set_files (dict_set filename kept (files w)) w)), inr tt).
Proof.
  intros Hwf Hne Hfn.
  assert (Hlen : (0 <? length (data_records w)) = true).
  { destruct (data_records w); [contradiction | reflexivity]. }
  unfold export_data. unfold bind at 1. unfold gets at 1. rewrite Hlen.
  rewrite bool_decide_eq_true_2 by exact Hfn.
  assert (Hbody :
    (open_w filename (IoWriteFails n kept) ;;
     writerow filename (IoWriteFails n kept) header ;;
     records <- gets (fun w => dict_values (data_records w)) ;;
     write_records filename (IoWriteFails n kept) records ;;
     close_w filename (IoWriteFails n kept) ;;
     message (ExportSuccess filename))%py w
    = (set_files (dict_set filename kept (files w)) w, inl OSError)).
  { unfold bind at 1. unfold open_w, modify.
    unfold bind at 1. unfold writerow.
    rewrite files_set_files, dict_get_set_eq.
    change (default [] (Some ([] : list row))) with ([] : list row).
    cbn [length app].
    destruct (0 =? n).
    { rewrite set_files_set_files, dict_set_set. reflexivity. }
    rewrite set_files_set_files, dict_set_set.
    unfold bind at 1. unfold gets.
    replace (data_records (set_files (dict_set filename [header] (files w)) w))
      with (data_records w) by (destruct w; reflexivity).
    unfold bind at 1.
    destruct (write_records_fails filename n kept (dict_values (data_records w))
                (set_files (dict_set filename [header] (files w)) w) [header])
      as [Hf | (content & Hf)].
    - pose proof (wf_record_channels _ Hwf) as Hc.
      eapply Forall_impl; [|exact Hc]. cbn. intros a Ha.
      rewrite deref_set_files. exact Ha.
    - rewrite files_set_files. apply dict_get_set_eq.
    - rewrite Hf, files_set_files, set_files_set_files, dict_set_set.
      reflexivity.
    - rewrite Hf, files_set_files, set_files_set_files, dict_set_set.
      unfold bind, close_w.
      rewrite files_set_files, set_files_set_files, dict_set_set.
      reflexivity. }
  unfold try_except. rewrite Hbody.
  unfold bind, print, message, modify. f_equal. destruct w; reflexivity.
Qed.

End ExportFrame.

(** X13. Whatever the window, the file name and the behaviour of the file
    system, [export_data] raises nothing, changes nothing of the window
    (session store, current record, flags, buffers) and leaves every file
    other than the one named as it is. *)
Theorem export_harmless {F : FloatOps} (w : window) (filename : pystr) (fs : io)
    (other : pystr) :
  other <> filename ->
  let w' := fst (export_data filename fs w) in
  snd (export_data filename fs w) = inr tt /\
  same_core w w' /\
  file_content other w' = file_content other w.
Proof.
  intros Hne. cbn zeta.
  split; [apply export_data_returns|]. split; [apply core_kept_export_data|].
  apply (export_data_other_file filename fs other _ Hne w). reflexivity.
Qed.

(** An export on which writing fails, beside an earlier export. *)
Lemma export_harmless_witness :
  let kept := [[CellStr (str "C"); CellStr (str "R")]] in
  let w := run (F := IntegerFloat)
             [ReadyRead [bytes "C:1,R:2,IR:3,G:4,X:5,Y:6,Z:7"];
              ExportClicked (str "a.csv") IoOk]
             SerialPlotterWindow_init in
  let w' := fst (export_data (str "b.csv") (IoWriteFails 1 kept) w) in
  str "a.csv" <> str "b.csv" /\
  snd (export_data (str "b.csv") (IoWriteFails 1 kept) w) = inr tt /\
  same_core w w' /\
  file_content (str "a.csv") w' = file_content (str "a.csv") w /\
  file_content (str "b.csv") w' = Some kept.
Proof.
  intros kept w w'.
  assert (Hne : str "a.csv" <> str "b.csv") by (vm_compute; discriminate).
  split; [exact Hne|].
  destruct (export_harmless w (str "b.csv") (IoWriteFails 1 kept) (str "a.csv") Hne)
    as (H1 & H2 & H3).
  split; [exact H1|]. split; [exact H2|]. split; [exact H3|].
  vm_compute. reflexivity.
Defined.

(** X14. With a non-empty session store: when the file dialog is dismissed
    (empty name) the only effect is the warning about the file name; when
    the file cannot be opened the error is printed and the failure warning
    shown; in both cases no file is created or changed. *)
Theorem export_without_file {F : FloatOps} (w : window) (filename : pystr)
    (fs : io) :
  data_records w <> [] ->
  export_data [] fs w = (set_dialogs (dialogs w ++ [InvalidFilename]) w, inr tt) /\
  (filename <> [] ->
   export_data filename IoOpenFails w
   = (set_dialogs (dialogs w ++ [FailedToExport])
        (set_stdout (stdout w ++ [ExportErrorLine OSError]) w), inr tt)) /\
  files (fst (export_data [] fs w)) = files w /\
  files (fst (export_data filename IoOpenFails w)) = files w.
Proof.
  intros Hne.
  assert (Hlen : (0 <? length (data_records w)) = true).
  { destruct (data_records w); [contradiction | reflexivity]. }
  assert (H1 : forall fs', export_data [] fs' w
               = (set_dialogs (dialogs w ++ [InvalidFilename]) w, inr tt)).
  { intros fs'. unfold export_data, bind, gets. rewrite Hlen. reflexivity. }
  assert (H2 : filename <> [] ->
               export_data filename IoOpenFails w
               = (set_dialogs (dialogs w ++ [FailedToExport])
                    (set_stdout (stdout w ++ [ExportErrorLine OSError]) w), inr tt)).
  { intros Hfn. unfold export_data, bind, gets. rewrite Hlen.
    rewrite bool_decide_eq_true_2 by exact Hfn.
    unfold try_except, open_w, raise, print, message, modify. cbn.
    destruct w; reflexivity. }
  split; [apply H1|]. split; [exact H2|]. split.
  - rewrite H1. destruct w; reflexivity.
  - destruct filename as [|c name]; [rewrite H1 | rewrite H2 by discriminate];
      destruct w; reflexivity.
Qed.

(** One sample in the store. *)
Lemma export_without_file_witness :
  let w := run (F := IntegerFloat)
             [ReadyRead [bytes "C:1,R:2,IR:3,G:4,X:5,Y:6,Z:7"]]
             SerialPlotterWindow_init in
  data_records w <> [] /\ str "out.csv" <> [] /\
  dialogs (fst (export_data [] IoOk w)) = [InvalidFilename] /\
  dialogs (fst (export_data (str "out.csv") IoOpenFails w)) = [FailedToExport] /\
  files (fst (export_data [] IoOk w)) = [] /\
  files (fst (export_data (str "out.csv") IoOpenFails w)) = [].
Proof.
  intros w.
  assert (Hne : data_records w <> []) by (vm_compute; discriminate).
  assert (Hfn : str "out.csv" <> []) by (vm_compute; discriminate).
  destruct (export_without_file w (str "out.csv") IoOk Hne) as (H1 & H2 & H3 & H4).
  split; [exact Hne|]. split; [exact Hfn|].
  split; [rewrite H1; reflexivity|]. split; [rewrite (H2 Hfn); reflexivity|].
  split; [rewrite H3 | rewrite H4]; reflexivity.
Defined.

(** X15. After any events, with a non-empty store and a file name: when
    writing fails, whether the error is raised in a call of [writerow] or
    only when the file is closed, the error is printed and the failure
    warning shown, never the success message; the file is neither removed nor
    written again: it stays under its name with what the file system kept of
    it, which need not be the header and whole rows. *)
Theorem export_write_failure_reported {F : FloatOps} (evs : list event)
    (filename : pystr) (n : nat) (kept : list row) :
  let w := run evs SerialPlotterWindow_init in
  let w' := fst (export_data filename (IoWriteFails n kept) w) in
  data_records w <> [] ->
  filename <> [] ->
  dialogs w' = dialogs w ++ [FailedToExport] /\
  stdout w' = stdout w ++ [ExportErrorLine OSError] /\
  file_content filename w' = Some kept.
Proof.
  intros w w'. pose proof (run_wf evs) as Hwf. fold w in Hwf.
  subst w'. clearbody w. intros Hne Hfn.
  rewrite (export_data_write_fails filename n kept w Hwf Hne Hfn).
  unfold file_content. cbn [fst].
  split; [destruct w; reflexivity|]. split; [destruct w; reflexivity|].
  replace (files _) with (dict_set filename kept (files w))
    by (destruct w; reflexivity).
  apply dict_get_set_eq.
Qed.

(** Two samples; the error comes at the close of the file, after every call
    of [writerow] has returned, and the file ends in the middle of a row. *)
Lemma export_write_failure_reported_witness :
  let evs := [ReadyRead [bytes "C:1,R:2,IR:3,G:4,X:5,Y:6,Z:7";
                         bytes "C:8,X:9"]] in
  let kept := [header; [CellStr (str "1.0"); CellStr (str "2.")]] in
  let w := run (F := IntegerFloat) evs SerialPlotterWindow_init in
  let w' := fst (export_data (str "out.csv") (IoWriteFails 5 kept) w) in
  data_records w <> [] /\ str "out.csv" <> [] /\
  length (data_records w) = 2 /\
  dialogs w' = [FailedToExport] /\
  stdout w' = stdout w ++ [ExportErrorLine OSError] /\
  file_content (str "out.csv") w' = Some kept.
Proof.
  intros evs kept w w'.
  assert (Hne : data_records w <> []) by (vm_compute; discriminate).
  assert (Hfn : str "out.csv" <> []) by (vm_compute; discriminate).
  split; [exact Hne|]. split; [exact Hfn|]. split; [vm_compute; reflexivity|].
  destruct (export_write_failure_reported evs (str "out.csv") 5 kept Hne Hfn)
    as (Hd & Ho & Hf).
  fold w w' in Hd, Ho, Hf.
  split; [rewrite Hd; vm_compute; reflexivity|]. split; [exact Ho | exact Hf].
Defined.

(** X16. After any events, with a non-empty store, a file name and no I/O
    failure: the file an export leaves does not depend on what the file held
    before, and a second export leaves the files exactly as the first did. *)
Theorem export_twice {F : FloatOps} (evs : list event) (filename : pystr) :
  let w := run evs SerialPlotterWindow_init in
  let w1 := fst (export_data filename IoOk w) in
  let w2 := fst (export_data filename IoOk w1) in
  data_records w <> [] ->
  filename <> [] ->
  files w2 = files w1 /\
  (forall old, file_content filename
                 (fst (export_data filename IoOk
                         (set_files (dict_set filename old (files w)) w)))
               = file_content filename w1).
Proof.
  intros w w1 w2. pose proof (run_wf evs) as Hwf. fold w in Hwf.
  subst w2. clearbody w. intros Hne Hfn.
  destruct (export_data_ok filename w Hwf Hne Hfn) as (rows & He & Hrows).
  assert (Hf1 : files w1 = dict_set filename (header :: rows) (files w)).
  { unfold w1. rewrite He. destruct w; reflexivity. }
  pose proof (core_kept_export_data filename IoOk w) as Hsc. fold w1 in Hsc.
  clearbody w1. split.
  - assert (Hwf1 : wf w1) by (eapply wf_same_core; eassumption).
    assert (Hne1 : data_records w1 <> [])
      by (rewrite (sc_data_records _ _ Hsc); exact Hne).
    destruct (export_data_ok filename w1 Hwf1 Hne1 Hfn) as (rows1 & He1 & Hrows1).
    assert (rows1 = rows).
    { rewrite (sc_data_records _ _ Hsc) in Hrows1.
      eapply rows_unique; [|exact Hrows].
      eapply Forall2_impl; [|exact Hrows1]. cbn. intros a r Hr.
      rewrite (same_core_deref _ _ _ Hsc) in Hr. exact Hr. }
    subst rows1. rewrite He1.
    replace (files _) with (dict_set filename (header :: rows) (files w1))
      by (destruct w1; reflexivity).
    rewrite Hf1. apply dict_set_set.
  - intros old.
    assert (Hsc0 : same_core w (set_files (dict_set filename old (files w)) w))
      by (split; destruct w; reflexivity).
    generalize dependent (set_files (dict_set filename old (files w)) w).
    intros w0 Hsc0.
    assert (Hwf0 : wf w0) by (eapply wf_same_core; eassumption).
    assert (Hne0 : data_records w0 <> [])
      by (rewrite (sc_data_records _ _ Hsc0); exact Hne).
    destruct (export_data_ok filename w0 Hwf0 Hne0 Hfn) as (rows0 & He0 & Hrows0).
    assert (rows0 = rows).
    { rewrite (sc_data_records _ _ Hsc0) in Hrows0.
      eapply rows_unique; [|exact Hrows].
      eapply Forall2_impl; [|exact Hrows0]. cbn. intros a r Hr.
      rewrite (same_core_deref _ _ _ Hsc0) in Hr. exact Hr. }
    subst rows0. unfold file_content. rewrite He0, Hf1.
    replace (files (fst _))
      with (dict_set filename (header :: rows) (files w0))
      by (destruct w0; reflexivity).
    rewrite !dict_get_set_eq. reflexivity.
Qed.

(** One sample, exported twice. *)
Lemma export_twice_witness :
  let evs := [ReadyRead [bytes "C:1,R:2,IR:3,G:4,X:5,Y:6,Z:7"]] in
  let w := run (F := IntegerFloat) evs SerialPlotterWindow_init in
  let w1 := fst (export_data (str "out.csv") IoOk w) in
  let w2 := fst (export_data (str "out.csv") IoOk w1) in
  data_records w <> [] /\ str "out.csv" <> [] /\
  files w2 = files w1 /\ length (files w1) = 1.
Proof.
  intros evs w w1 w2.
  assert (Hne : data_records w <> []) by (vm_compute; discriminate).
  assert (Hfn : str "out.csv" <> []) by (vm_compute; discriminate).
  split; [exact Hne|]. split; [exact Hfn|].
  split; [exact (proj1 (export_twice evs (str "out.csv") Hne Hfn))|].
  vm_compute. reflexivity.
Defined.
